(** * Windows keyboard embedder handler: a shallow embedding

    This development embeds
    [shell/platform/windows/keyboard_key_embedder_handler.cc] and proves
    properties of its character codec, key identity resolver, press-state
    machine, synchronization passes and response ledger.

    Conventions.
    - C++ integers ([int], [uint16_t], [char32_t], [uint64_t], [SHORT]) are
      modelled as [Z]; conversions that wrap are written out ([to_char],
      [to_u64]).
    - [std::map<uint64_t, uint64_t>] is a [gmap Z Z]; the critical-key map
      [std::map<UINT, CriticalKey>], which the code iterates in key order and
      mutates in place, is an association list kept sorted by key.
    - [assert] is modelled as in a debug build: a failed assertion aborts the
      call ([Failed]).
    - [get_key_state_] is the OS key state while one raw input is handled, a
      function of the virtual key; every call of [KeyboardHook] brings its
      own.
    - Calls that leave the engine ([perform_send_event_], the caller's
      [callback]) are recorded, in order, as a list of [Effect]s. *)

From stdpp Require Import base gmap list.
From Stdlib Require Import ZArith Lia Sorted.

Local Open Scope Z_scope.

(** ** Results of calls that may hit an assertion *)

Inductive Failure : Type :=
| BadAction            (* assert(action == WM_KEYDOWN || ...) *)
| CodePointOutOfRange  (* assert(0 <= ch && ch <= 0x10FFFF) *)
| CriticalLogicalZero  (* assert(key_info.logical_key != 0) *)
| RecordMissing        (* assert(record_iter != pressingRecords_.end()) *)
| DanglingResponse.    (* user_data does not point to a live PendingResponse *)

Inductive Result (A : Type) : Type :=
| Ok (a : A)
| Failed (why : Failure).
Arguments Ok {A} a.
Arguments Failed {A} why.

(** ** Character codec *)

Module Codec.

Definition kCharacterCacheSize : Z := 8.

(** Conversion of an integer to an 8-bit [char], kept as its bit pattern. *)
Definition to_char (z : Z) : Z := z mod 256.

(** [char _GetBit(char32_t ch, size_t start, size_t end)] *)
Definition _GetBit (ch start end_ : Z) : Z :=
  to_char (Z.land (Z.shiftr ch end_) (Z.shiftl 1 (start - end_) - 1)).

(** [std::string::push_back] of an [int] expression. *)
Definition push_back (result : list Z) (c : Z) : list Z := result ++ [to_char c].

(** The body of [ConvertChar32ToUtf8] below its assertion. *)
Definition ConvertChar32ToUtf8_bytes (ch : Z) : list Z :=
  let result : list Z := [] in
  if ch <=? 0x007F then
    push_back result ch
  else if ch <=? 0x07FF then
    let result := push_back result (0xC0 + _GetBit ch 11 6) in
    push_back result (0x80 + _GetBit ch 6 0)
  else if ch <=? 0xFFFF then
    let result := push_back result (0xE0 + _GetBit ch 16 12) in
    let result := push_back result (0x80 + _GetBit ch 12 6) in
    push_back result (0x80 + _GetBit ch 6 0)
  else
    let result := push_back result (0xF0 + _GetBit ch 21 18) in
    let result := push_back result (0x80 + _GetBit ch 18 12) in
    let result := push_back result (0x80 + _GetBit ch 12 6) in
    push_back result (0x80 + _GetBit ch 6 0).

(** [std::string ConvertChar32ToUtf8(char32_t ch)] *)
Definition ConvertChar32ToUtf8 (ch : Z) : Result (list Z) :=
  if (0 <=? ch) && (ch <=? 0x10FFFF)
  then Ok (ConvertChar32ToUtf8_bytes ch)
  else Failed CodePointOutOfRange.

(** [std::string::c_str] read as a C string: the bytes before the first NUL. *)
Fixpoint c_str (s : list Z) : list Z :=
  match s with
  | [] => []
  | b :: rest => if b =? 0 then [] else b :: c_str rest
  end.

(** [ConvertUtf32ToUtf8_(char* out, char32_t ch)]: the C string left in [out]. *)
Definition ConvertUtf32ToUtf8_ (ch : Z) : Result (list Z) :=
  if ch =? 0 then Ok []
  else
    match ConvertChar32ToUtf8 ch with
    | Ok result => Ok (c_str result)
    | Failed w => Failed w
    end.

(** The UTF-8 encoding form as tabulated in RFC 3629, section 3, written
    with division and remainder instead of shifts and masks. *)
Definition utf8_standard (cp : Z) : list Z :=
  if cp <? 0x80 then [cp]
  else if cp <? 0x800 then [0xC0 + cp / 64; 0x80 + cp mod 64]
  else if cp <? 0x10000 then
    [0xE0 + cp / 4096; 0x80 + (cp / 64) mod 64; 0x80 + cp mod 64]
  else
    [0xF0 + cp / 262144; 0x80 + (cp / 4096) mod 64;
     0x80 + (cp / 64) mod 64; 0x80 + cp mod 64].

(** The decoder for that table: the code point of a well-formed sequence
    of one to four bytes. *)
Definition utf8_decode (bytes : list Z) : option Z :=
  match bytes with
  | [b0] => if b0 <? 0x80 then Some b0 else None
  | [b0; b1] => Some ((b0 - 0xC0) * 64 + (b1 - 0x80))
  | [b0; b1; b2] => Some ((b0 - 0xE0) * 4096 + (b1 - 0x80) * 64 + (b2 - 0x80))
  | [b0; b1; b2; b3] =>
      Some ((b0 - 0xF0) * 262144 + (b1 - 0x80) * 4096 + (b2 - 0x80) * 64 + (b3 - 0x80))
  | _ => None
  end.

End Codec.

(** ** Constants of the Windows SDK used by the handler *)

Module Win.
Definition VK_CAPITAL : Z := 0x14.
Definition VK_NUMLOCK : Z := 0x90.
Definition VK_SCROLL : Z := 0x91.
Definition VK_LSHIFT : Z := 0xA0.
Definition VK_RSHIFT : Z := 0xA1.
Definition VK_LCONTROL : Z := 0xA2.
Definition VK_RCONTROL : Z := 0xA3.
Definition VK_PROCESSKEY : Z := 0xE5.
Definition WM_KEYDOWN : Z := 0x0100.
Definition WM_KEYUP : Z := 0x0101.
Definition WM_SYSKEYDOWN : Z := 0x0104.
Definition WM_SYSKEYUP : Z := 0x0105.
End Win.
Import Win.

Definition kStateMaskToggled : Z := 0x01.
Definition kStateMaskPressed : Z := 0x80.
Definition empty_character : list Z := [].

(** Conversions to the unsigned types of the code. *)
Definition to_u32 (z : Z) : Z := z mod 2 ^ 32.
Definition to_u64 (z : Z) : Z := z mod 2 ^ 64.

(** ** Data model *)

Inductive FlutterKeyEventType : Type :=
| kFlutterKeyEventTypeUp
| kFlutterKeyEventTypeDown
| kFlutterKeyEventTypeRepeat.

Global Instance FlutterKeyEventType_eq_dec : EqDecision FlutterKeyEventType.
Proof. solve_decision. Defined.

(** [FlutterKeyEvent] without [struct_size] (a constant) and [timestamp]
    (a clock reading). [character] holds the bytes before the terminator. *)
Record FlutterKeyEvent : Type := mkEvent {
  type : FlutterKeyEventType;
  physical : Z;
  logical : Z;
  character : list Z;
  synthesized : bool;
}.

Global Instance FlutterKeyEvent_eq_dec : EqDecision FlutterKeyEvent.
Proof. solve_decision. Defined.

Record CriticalKey : Type := mkCriticalKey {
  physical_key : Z;
  logical_key : Z;
  check_pressed : bool;
  check_toggled : bool;
  toggled_on : bool;
}.

Global Instance CriticalKey_eq_dec : EqDecision CriticalKey.
Proof. solve_decision. Defined.

(** The caller's [std::function<void(bool)>], identified by a token. *)
Abbreviation Callback := Z (only parsing).

(** What the engine does to its collaborators: a call of
    [perform_send_event_(event, callback, user_data)], where [user_data] is
    [None] for [nullptr, nullptr] and [Some id] for [HandleResponse] with a
    pointer to the ledger entry [id]; or a call of a caller's callback. *)
Inductive Effect : Type :=
| PerformSend (event : FlutterKeyEvent) (user_data : option Z)
| InvokeCallback (callback : Callback) (handled : bool).

Global Instance Effect_eq_dec : EqDecision Effect.
Proof. solve_decision. Defined.

Record Engine : Type := mkEngine {
  pressingRecords_ : gmap Z Z;
  critical_keys_ : list (Z * CriticalKey);
  response_id_ : Z;
  pending_responses_ : gmap Z Callback;
  sent_any_events : bool;
}.

Definition set_pressingRecords_ (r : gmap Z Z) (e : Engine) : Engine :=
  mkEngine r (critical_keys_ e) (response_id_ e) (pending_responses_ e) (sent_any_events e).
Definition set_critical_keys_ (c : list (Z * CriticalKey)) (e : Engine) : Engine :=
  mkEngine (pressingRecords_ e) c (response_id_ e) (pending_responses_ e) (sent_any_events e).
Definition set_response_id_ (i : Z) (e : Engine) : Engine :=
  mkEngine (pressingRecords_ e) (critical_keys_ e) i (pending_responses_ e) (sent_any_events e).
Definition set_pending_responses_ (p : gmap Z Callback) (e : Engine) : Engine :=
  mkEngine (pressingRecords_ e) (critical_keys_ e) (response_id_ e) p (sent_any_events e).
Definition set_sent_any_events (b : bool) (e : Engine) : Engine :=
  mkEngine (pressingRecords_ e) (critical_keys_ e) (response_id_ e) (pending_responses_ e) b.

Definition set_toggled_on (b : bool) (k : CriticalKey) : CriticalKey :=
  mkCriticalKey (physical_key k) (logical_key k) (check_pressed k) (check_toggled k) b.
Definition set_last_seen (p l : Z) (k : CriticalKey) : CriticalKey :=
  mkCriticalKey p l (check_pressed k) (check_toggled k) (toggled_on k).

(** ** The monad of member functions: engine state, effects, assertions *)

Definition M (A : Type) : Type := Engine → Result (A * Engine * list Effect).

Global Instance M_ret : MRet M := λ A a e, Ok (a, e, []).
Global Instance M_bind : MBind M := λ A B f m e,
  match m e with
  | Ok (a, e1, o1) =>
      match f a e1 with
      | Ok (b, e2, o2) => Ok (b, e2, o1 ++ o2)
      | Failed w => Failed w
      end
  | Failed w => Failed w
  end.

Definition gets {A} (f : Engine → A) : M A := λ e, Ok (f e, e, []).
Definition modify (f : Engine → Engine) : M unit := λ e, Ok (tt, f e, []).
Definition emit (x : Effect) : M unit := λ e, Ok (tt, e, [x]).
Definition assert (w : Failure) (b : bool) : M unit :=
  λ e, if b then Ok (tt, e, []) else Failed w.
Definition lift {A} (r : Result A) : M A :=
  λ e, match r with Ok a => Ok (a, e, []) | Failed w => Failed w end.

(** Part of the platform that is not in this file of the repository: the
    generated key tables and plane constants ([flutter_key_map.cc]),
    [UndeadChar] ([keyboard_win32_common.h]) and the Windows call
    [MapVirtualKey(_, MAPVK_VK_TO_VSC)]. *)
Record Platform : Type := mkPlatform {
  windowsToPhysicalMap_ : gmap Z Z;
  windowsToLogicalMap_ : gmap Z Z;
  scanCodeToLogicalMap_ : gmap Z Z;
  valueMask : Z;
  unicodePlane : Z;
  windowsPlane : Z;
  UndeadChar : Z → Z;
  MapVirtualKey : Z → Z;
}.

(** ** Key identity resolver *)

Definition isEasciiPrintable (codeUnit : Z) : bool :=
  ((codeUnit <=? 0x7f) && (codeUnit >=? 0x20)) ||
  ((codeUnit <=? 0xff) && (codeUnit >=? 0x80)).

Definition toLower (n : Z) : Z :=
  let lower_a := 0x61 in
  let upper_a := 0x41 in
  let upper_z := 0x5a in
  let lower_a_grave := 0xe0 in
  let upper_a_grave := 0xc0 in
  let upper_thorn := 0xde in
  let division := 0xf7 in
  if (n >=? upper_a) && (n <=? upper_z) then n - upper_a + lower_a
  else if (n >=? upper_a_grave) && (n <=? upper_thorn) && negb (n =? division)
  then n - upper_a_grave + lower_a_grave
  else n.

Definition normalizeScancode (windowsScanCode : Z) (extended : bool) : Z :=
  Z.lor (Z.land windowsScanCode 0xff) (if extended then 0xe000 else 0).

Section Handler.
Context (pf : Platform).

Definition ApplyPlaneToId (id plane : Z) : Z :=
  Z.lor (Z.land id (valueMask pf)) plane.

Definition GetPhysicalKey (scancode : Z) (extended : bool) : Z :=
  let chromiumScancode := normalizeScancode scancode extended in
  match windowsToPhysicalMap_ pf !! chromiumScancode with
  | Some second => second
  | None => ApplyPlaneToId (to_u64 scancode) (windowsPlane pf)
  end.

Definition GetLogicalKey (key : Z) (extended : bool) (scancode : Z) : Z :=
  if key =? VK_PROCESSKEY then VK_PROCESSKEY
  else
    match scanCodeToLogicalMap_ pf !! normalizeScancode scancode extended with
    | Some second => second
    | None =>
        match windowsToLogicalMap_ pf !! to_u64 key with
        | Some second => second
        | None =>
            if isEasciiPrintable key
            then ApplyPlaneToId (toLower (to_u64 key)) (unicodePlane pf)
            else ApplyPlaneToId (toLower (to_u64 key)) (windowsPlane pf)
        end
    end.

(** *** Dispatch *)

(** [SendEvent(event, callback, user_data)] *)
Definition SendEvent (event : FlutterKeyEvent) (user_data : option Z) : M unit :=
  modify (set_sent_any_events true) ;;
  emit (PerformSend event user_data).

Definition SynthesizeSimpleEvent (type : FlutterKeyEventType)
    (physical logical : Z) (character : list Z) : FlutterKeyEvent :=
  {| type := type; physical := physical; logical := logical;
     character := character; synthesized := true |}.

(** *** Critical-key registry *)

(** [critical_keys_.find(virtual_key)] followed by an update of the found
    record through the iterator. *)
Fixpoint update_found (virtual_key : Z) (f : CriticalKey → CriticalKey)
    (l : list (Z * CriticalKey)) : list (Z * CriticalKey) :=
  match l with
  | [] => []
  | (k, ck) :: rest =>
      if k =? virtual_key then (k, f ck) :: rest
      else (k, ck) :: update_found virtual_key f rest
  end.

Definition UpdateLastSeenCritialKey (virtual_key physical_key logical_key : Z) : M unit :=
  modify (λ e, set_critical_keys_
    (update_found (to_u32 virtual_key) (set_last_seen physical_key logical_key)
       (critical_keys_ e)) e).

(** [for (auto& kv : critical_keys_)]: the body sees the key and a reference
    to the record, which it may update; it never adds or removes records. *)
Fixpoint for_each_critical (body : Z → CriticalKey → M CriticalKey)
    (l : list (Z * CriticalKey)) : M (list (Z * CriticalKey)) :=
  match l with
  | [] => mret []
  | (virtual_key, key_info) :: rest =>
      key_info' ← body virtual_key key_info;
      rest' ← for_each_critical body rest;
      mret ((virtual_key, key_info') :: rest')
  end.

Definition for_critical_keys_ (body : Z → CriticalKey → M CriticalKey) : M unit :=
  l ← gets critical_keys_;
  l' ← for_each_critical body l;
  modify (set_critical_keys_ l').

Definition toggled_body (get_key_state_ : Z → Z) (this_virtual_key : Z)
    (is_down_event : bool) (virtual_key : Z) (key_info : CriticalKey) : M CriticalKey :=
  if physical_key key_info =? 0 then mret key_info
  else
    assert CriticalLogicalZero (negb (logical_key key_info =? 0)) ;;
    if check_toggled key_info then
      let state := get_key_state_ virtual_key in
      let should_toggled := negb (Z.land state kStateMaskToggled =? 0) in
      let key_info :=
        if (virtual_key =? to_u32 this_virtual_key) && is_down_event
        then set_toggled_on (negb (toggled_on key_info)) key_info
        else key_info in
      (if negb (eqb (toggled_on key_info) should_toggled) then
         records ← gets pressingRecords_;
         match records !! physical_key key_info with
         | Some _ =>
             SendEvent (SynthesizeSimpleEvent kFlutterKeyEventTypeUp
                          (physical_key key_info) (logical_key key_info)
                          empty_character) None
         | None => mret tt
         end ;;
         modify (λ e, set_pressingRecords_
           (<[physical_key key_info := logical_key key_info]> (pressingRecords_ e)) e) ;;
         SendEvent (SynthesizeSimpleEvent kFlutterKeyEventTypeDown
                      (physical_key key_info) (logical_key key_info)
                      empty_character) None
       else mret tt) ;;
      mret (set_toggled_on should_toggled key_info)
    else mret key_info.

Definition SynchronizeCritialToggledStates (get_key_state_ : Z → Z)
    (this_virtual_key : Z) (is_down_event : bool) : M unit :=
  for_critical_keys_ (toggled_body get_key_state_ this_virtual_key is_down_event).

Definition pressed_body (get_key_state_ : Z → Z) (this_virtual_key : Z)
    (pressed_state_will_change : bool) (virtual_key : Z) (key_info : CriticalKey)
    : M CriticalKey :=
  if physical_key key_info =? 0 then mret key_info
  else
    assert CriticalLogicalZero (negb (logical_key key_info =? 0)) ;;
    if check_pressed key_info then
      let state := get_key_state_ virtual_key in
      records ← gets pressingRecords_;
      let recorded_pressed :=
        match records !! physical_key key_info with Some _ => true | None => false end in
      let should_pressed := negb (Z.land state kStateMaskPressed =? 0) in
      let should_pressed :=
        if (virtual_key =? to_u32 this_virtual_key) && pressed_state_will_change
        then negb should_pressed else should_pressed in
      (if negb (eqb recorded_pressed should_pressed) then
         (if recorded_pressed then
            modify (λ e, set_pressingRecords_
              (delete (physical_key key_info) (pressingRecords_ e)) e)
          else
            modify (λ e, set_pressingRecords_
              (<[physical_key key_info := logical_key key_info]> (pressingRecords_ e)) e)) ;;
         let empty_character : list Z := [] in
         SendEvent (SynthesizeSimpleEvent
                      (if recorded_pressed then kFlutterKeyEventTypeUp
                       else kFlutterKeyEventTypeDown)
                      (physical_key key_info) (logical_key key_info)
                      empty_character) None
       else mret tt) ;;
      mret key_info
    else mret key_info.

Definition SynchronizeCritialPressedStates (get_key_state_ : Z → Z)
    (this_virtual_key : Z) (pressed_state_will_change : bool) : M unit :=
  for_critical_keys_ (pressed_body get_key_state_ this_virtual_key pressed_state_will_change).

(** [critical_keys_.emplace(virtual_key, record)]: insertion in key order,
    without effect when the key is present. *)
Fixpoint emplace (virtual_key : Z) (ck : CriticalKey) (l : list (Z * CriticalKey))
    : list (Z * CriticalKey) :=
  match l with
  | [] => [(virtual_key, ck)]
  | (k, c) :: rest =>
      if virtual_key <? k then (virtual_key, ck) :: (k, c) :: rest
      else if virtual_key =? k then (k, c) :: rest
      else (k, c) :: emplace virtual_key ck rest
  end.

Definition createCheckedKey (get_key_state_ : Z → Z) (virtual_key : Z)
    (extended check_pressed check_toggled : bool) : CriticalKey :=
  let scan_code := MapVirtualKey pf virtual_key in
  {| physical_key := GetPhysicalKey scan_code extended;
     logical_key := GetLogicalKey virtual_key extended scan_code;
     check_pressed := check_pressed || check_toggled;
     check_toggled := check_toggled;
     toggled_on :=
       if check_toggled
       then negb (negb (negb (Z.land (get_key_state_ virtual_key) kStateMaskToggled =? 0)))
       else false |}.

Definition InitCriticalKeys (get_key_state_ : Z → Z) (critical_keys_ : list (Z * CriticalKey))
    : list (Z * CriticalKey) :=
  let createCheckedKey := createCheckedKey get_key_state_ in
  let critical_keys_ := emplace VK_LSHIFT (createCheckedKey VK_LSHIFT false true false) critical_keys_ in
  let critical_keys_ := emplace VK_RSHIFT (createCheckedKey VK_RSHIFT false true false) critical_keys_ in
  let critical_keys_ := emplace VK_LCONTROL (createCheckedKey VK_LCONTROL false true false) critical_keys_ in
  let critical_keys_ := emplace VK_RCONTROL (createCheckedKey VK_RCONTROL true true false) critical_keys_ in
  let critical_keys_ := emplace VK_CAPITAL (createCheckedKey VK_CAPITAL false true true) critical_keys_ in
  let critical_keys_ := emplace VK_SCROLL (createCheckedKey VK_SCROLL false true true) critical_keys_ in
  let critical_keys_ := emplace VK_NUMLOCK (createCheckedKey VK_NUMLOCK true true true) critical_keys_ in
  critical_keys_.

(** The constructor: empty tables, [response_id_(1)], then
    [InitCriticalKeys()]. [sent_any_events] is written by [KeyboardHook]
    before it is read. *)
Definition KeyboardKeyEmbedderHandler (get_key_state_ : Z → Z) : Engine :=
  {| pressingRecords_ := ∅;
     critical_keys_ := InitCriticalKeys get_key_state_ [];
     response_id_ := 1;
     pending_responses_ := ∅;
     sent_any_events := false |}.

(** *** The press-state machine *)

(** The variables assigned by the classification branches of
    [KeyboardHookImpl]. *)
Record Classified : Type := mkClassified {
  cl_type : FlutterKeyEventType;
  result_logical_key : Z;
  eventual_logical_record : Z;
  character_bytes : list Z;
}.

Definition valid_action (action : Z) : bool :=
  (action =? WM_KEYDOWN) || (action =? WM_KEYUP) ||
  (action =? WM_SYSKEYDOWN) || (action =? WM_SYSKEYUP).

(** Lines 182 to 223 of [KeyboardHookImpl], the classification of the
    transition; [None] stands for the branches that call back and return. *)
Definition classify (logical_key character : Z)
    (is_physical_down had_record was_down : bool) (last_logical_record : Z)
    (callback : Callback) : M (option Classified) :=
  if is_physical_down then
    if had_record then
      if was_down then
        character_bytes ← lift (Codec.ConvertUtf32ToUtf8_ character);
        mret (Some (mkClassified kFlutterKeyEventTypeRepeat
                      last_logical_record last_logical_record character_bytes))
      else
        emit (InvokeCallback callback true) ;; mret None
    else
      character_bytes ← lift (Codec.ConvertUtf32ToUtf8_ character);
      mret (Some (mkClassified kFlutterKeyEventTypeDown
                    logical_key logical_key character_bytes))
  else
    if last_logical_record =? 0 then
      emit (InvokeCallback callback true) ;; mret None
    else
      mret (Some (mkClassified kFlutterKeyEventTypeUp last_logical_record 0 [])).

(** Lines 225 to 292 of [KeyboardHookImpl]: the IME filter, the two
    synchronization passes, the update of the press-state table and the
    dispatch of the primary event. *)
Definition dispatch (get_key_state_ : Z → Z) (key physical_key : Z)
    (callback : Callback) (c : Classified) : M unit :=
  let type := cl_type c in
  let result_logical_key := result_logical_key c in
  let eventual_logical_record := eventual_logical_record c in
  let character_bytes := character_bytes c in
  if result_logical_key =? VK_PROCESSKEY then
    emit (InvokeCallback callback true)
  else
    UpdateLastSeenCritialKey key physical_key result_logical_key ;;
    SynchronizeCritialToggledStates get_key_state_ key
      (bool_decide (type = kFlutterKeyEventTypeDown)) ;;
    SynchronizeCritialPressedStates get_key_state_ key
      (bool_decide (type ≠ kFlutterKeyEventTypeRepeat)) ;;
    (if negb (eventual_logical_record =? 0) then
       modify (λ e, set_pressingRecords_
         (<[physical_key := eventual_logical_record]> (pressingRecords_ e)) e)
     else
       records ← gets pressingRecords_;
       assert RecordMissing
         (match records !! physical_key with Some _ => true | None => false end) ;;
       modify (λ e, set_pressingRecords_ (delete physical_key (pressingRecords_ e)) e)) ;;
    let key_data :=
      {| type := type; physical := physical_key; logical := result_logical_key;
         character := character_bytes; synthesized := false |} in
    modify (λ e, set_response_id_ (to_u64 (response_id_ e + 1)) e) ;;
    response_id ← gets response_id_;
    modify (λ e, set_pending_responses_
      (<[response_id := callback]> (pending_responses_ e)) e) ;;
    SendEvent key_data (Some response_id).

Definition KeyboardHookImpl (get_key_state_ : Z → Z)
    (key scancode action character : Z) (extended was_down : bool)
    (callback : Callback) : M unit :=
  let physical_key := GetPhysicalKey scancode extended in
  let logical_key := GetLogicalKey key extended scancode in
  assert BadAction (valid_action action) ;;
  let is_physical_down := (action =? WM_KEYDOWN) || (action =? WM_SYSKEYDOWN) in
  records ← gets pressingRecords_;
  let last_logical_record_iter := records !! physical_key in
  let had_record :=
    match last_logical_record_iter with Some _ => true | None => false end in
  let last_logical_record :=
    match last_logical_record_iter with Some second => second | None => 0 end in
  let character := UndeadChar pf character in
  classified ← classify logical_key character is_physical_down had_record was_down
                  last_logical_record callback;
  match classified with
  | None => mret tt
  | Some c => dispatch get_key_state_ key physical_key callback c
  end.

Definition empty_event : FlutterKeyEvent :=
  {| type := kFlutterKeyEventTypeDown; physical := 0; logical := 0;
     character := empty_character; synthesized := false |}.

Definition KeyboardHook (get_key_state_ : Z → Z)
    (key scancode action character : Z) (extended was_down : bool)
    (callback : Callback) : M unit :=
  modify (set_sent_any_events false) ;;
  KeyboardHookImpl get_key_state_ key scancode action character extended was_down callback ;;
  sent ← gets sent_any_events;
  if negb sent then SendEvent empty_event None else mret tt.

(** [HandleResponse(handled, user_data)], the acknowledgment trampoline, with
    the closure stored in the pending response: [user_data] points to the
    ledger entry with that response id. *)
Definition HandleResponse (handled : bool) (user_data : Z) : M unit :=
  pending ← gets pending_responses_;
  match pending !! user_data with
  | None => lift (Failed DanglingResponse)
  | Some callback =>
      modify (λ e, set_pending_responses_ (delete user_data (pending_responses_ e)) e) ;;
      emit (InvokeCallback callback handled)
  end.

End Handler.

(** Sequences of calls on one engine: raw inputs with the OS key state at
    the time of the call, and acknowledgments of the host. *)
Inductive Call : Type :=
| CallKeyboardHook (get_key_state_ : Z → Z) (key scancode action character : Z)
    (extended was_down : bool) (callback : Callback)
| CallHandleResponse (handled : bool) (user_data : Z).

Definition call (pf : Platform) (c : Call) : M unit :=
  match c with
  | CallKeyboardHook get_key_state_ key scancode action character extended was_down callback =>
      KeyboardHook pf get_key_state_ key scancode action character extended was_down callback
  | CallHandleResponse handled user_data => HandleResponse handled user_data
  end.

Fixpoint run (pf : Platform) (cs : list Call) : M unit :=
  match cs with
  | [] => mret tt
  | c :: rest => call pf c ;; run pf rest
  end.

(** ** A fixture platform

    A few rows in the shape of the generated tables, the plane constants,
    [UndeadChar] clearing the dead-key bit, and the scan codes of the
    critical keys. *)
Definition fixture : Platform :=
  {| windowsToPhysicalMap_ :=
       list_to_map [(0x1e, 0x00070004); (0x2a, 0x000700e1); (0x3a, 0x00070039);
                    (0x36, 0x000700e5); (0x1d, 0x000700e0); (0xe01d, 0x000700e4);
                    (0x46, 0x00070047); (0xe045, 0x00070053)];
     windowsToLogicalMap_ :=
       list_to_map [(0x14, 0x100000104); (0x90, 0x10000010a); (0x91, 0x10000010c);
                    (0xA0, 0x200000102); (0xA1, 0x200000103);
                    (0xA2, 0x200000100); (0xA3, 0x200000101)];
     scanCodeToLogicalMap_ := ∅;
     valueMask := 0x000FFFFFFFF;
     unicodePlane := 0;
     windowsPlane := 0x01600000000;
     UndeadChar := λ ch, Z.land ch 0x7FFFFFFF;
     MapVirtualKey := λ vk,
       if vk =? VK_LSHIFT then 0x2A else if vk =? VK_RSHIFT then 0x36
       else if vk =? VK_LCONTROL then 0x1D else if vk =? VK_RCONTROL then 0x1D
       else if vk =? VK_CAPITAL then 0x3A else if vk =? VK_SCROLL then 0x46
       else if vk =? VK_NUMLOCK then 0x45 else 0 |}.

(** OS key states used in examples. *)
Definition all_up : Z → Z := λ _, 0.
Definition only_pressed (vk : Z) : Z → Z := λ v, if v =? vk then 0x80 else 0.
Definition only_toggled (vk : Z) : Z → Z := λ v, if v =? vk then 0x01 else 0.
Definition pressed_and_toggled (vk : Z) : Z → Z := λ v, if v =? vk then 0x81 else 0.

(** ** Observations on effects *)

Definition send_none (ev : FlutterKeyEvent) : Effect := PerformSend ev None.

(** The events handed to [perform_send_event_], in order. *)
Fixpoint sends (o : list Effect) : list (FlutterKeyEvent * option Z) :=
  match o with
  | [] => []
  | PerformSend ev ud :: rest => (ev, ud) :: sends rest
  | InvokeCallback _ _ :: rest => sends rest
  end.

(** The calls of callers' callbacks, in order. *)
Fixpoint callbacks (o : list Effect) : list (Callback * bool) :=
  match o with
  | [] => []
  | PerformSend _ _ :: rest => callbacks rest
  | InvokeCallback cb h :: rest => (cb, h) :: callbacks rest
  end.

(** The response ids handed out with primary events, in order. *)
Fixpoint response_ids (o : list Effect) : list Z :=
  match o with
  | [] => []
  | PerformSend _ (Some id) :: rest => id :: response_ids rest
  | _ :: rest => response_ids rest
  end.

(** What a consumer of the event stream takes the keyboard to be: a Down or
    Repeat event puts the physical key down with the event's logical id, an
    Up event releases it. *)
Definition replay_event (r : gmap Z Z) (ev : FlutterKeyEvent) : gmap Z Z :=
  match type ev with
  | kFlutterKeyEventTypeUp => delete (physical ev) r
  | kFlutterKeyEventTypeDown | kFlutterKeyEventTypeRepeat =>
      <[physical ev := logical ev]> r
  end.

Definition replay (evs : list FlutterKeyEvent) (r : gmap Z Z) : gmap Z Z :=
  foldl replay_event r evs.

(** The neutral event of [KeyboardHook] is the one event that is neither
    synthesized nor tracked; it says nothing about any key. *)
Definition is_neutral (x : FlutterKeyEvent * option Z) : bool :=
  negb (synthesized x.1) && match x.2 with None => true | Some _ => false end.

Fixpoint key_events (o : list Effect) : list FlutterKeyEvent :=
  match o with
  | [] => []
  | PerformSend ev ud :: rest =>
      if is_neutral (ev, ud) then key_events rest else ev :: key_events rest
  | InvokeCallback _ _ :: rest => key_events rest
  end.

Definition keys_down (o : list Effect) (r : gmap Z Z) : gmap Z Z :=
  replay (key_events o) r.

(** ** Summaries of the member functions

    Each summary is a pure function; the lemmas of the next part show that
    the member functions above compute exactly these. *)

(** The engine after the synthesized events [evs] were sent and the
    press-state table was updated along with them. *)
Definition apply_events (evs : list FlutterKeyEvent) (e : Engine) : Engine :=
  {| pressingRecords_ := replay evs (pressingRecords_ e);
     critical_keys_ := critical_keys_ e;
     response_id_ := response_id_ e;
     pending_responses_ := pending_responses_ e;
     sent_any_events :=
       sent_any_events e || match evs with [] => false | _ :: _ => true end |}.

Definition toggled_step (get_key_state_ : Z → Z) (this_virtual_key : Z)
    (is_down_event : bool) (virtual_key : Z) (key_info : CriticalKey)
    (records : gmap Z Z) : Result (CriticalKey * list FlutterKeyEvent) :=
  if physical_key key_info =? 0 then Ok (key_info, [])
  else if logical_key key_info =? 0 then Failed CriticalLogicalZero
  else if check_toggled key_info then
    let should_toggled :=
      negb (Z.land (get_key_state_ virtual_key) kStateMaskToggled =? 0) in
    let anticipated :=
      if (virtual_key =? to_u32 this_virtual_key) && is_down_event
      then negb (toggled_on key_info) else toggled_on key_info in
    Ok (set_toggled_on should_toggled key_info,
        if negb (eqb anticipated should_toggled) then
          match records !! physical_key key_info with
          | Some _ => [SynthesizeSimpleEvent kFlutterKeyEventTypeUp
                         (physical_key key_info) (logical_key key_info) []]
          | None => []
          end ++
          [SynthesizeSimpleEvent kFlutterKeyEventTypeDown
             (physical_key key_info) (logical_key key_info) []]
        else [])
  else Ok (key_info, []).

Definition pressed_step (get_key_state_ : Z → Z) (this_virtual_key : Z)
    (pressed_state_will_change : bool) (virtual_key : Z) (key_info : CriticalKey)
    (records : gmap Z Z) : Result (CriticalKey * list FlutterKeyEvent) :=
  if physical_key key_info =? 0 then Ok (key_info, [])
  else if logical_key key_info =? 0 then Failed CriticalLogicalZero
  else if check_pressed key_info then
    let recorded_pressed :=
      match records !! physical_key key_info with Some _ => true | None => false end in
    let os_pressed :=
      negb (Z.land (get_key_state_ virtual_key) kStateMaskPressed =? 0) in
    let should_pressed :=
      if (virtual_key =? to_u32 this_virtual_key) && pressed_state_will_change
      then negb os_pressed else os_pressed in
    Ok (key_info,
        if negb (eqb recorded_pressed should_pressed) then
          [SynthesizeSimpleEvent
             (if recorded_pressed then kFlutterKeyEventTypeUp
              else kFlutterKeyEventTypeDown)
             (physical_key key_info) (logical_key key_info) []]
        else [])
  else Ok (key_info, []).

Fixpoint sync_steps
    (step : Z → CriticalKey → gmap Z Z → Result (CriticalKey * list FlutterKeyEvent))
    (l : list (Z * CriticalKey)) (records : gmap Z Z)
    : Result (list (Z * CriticalKey) * list FlutterKeyEvent) :=
  match l with
  | [] => Ok ([], [])
  | (virtual_key, key_info) :: rest =>
      match step virtual_key key_info records with
      | Failed w => Failed w
      | Ok (key_info', evs1) =>
          match sync_steps step rest (replay evs1 records) with
          | Failed w => Failed w
          | Ok (rest', evs2) => Ok ((virtual_key, key_info') :: rest', evs1 ++ evs2)
          end
      end
  end.

(** Lines 182 to 223 of [KeyboardHookImpl]: [Ok None] for the two branches
    that call back and return. *)
Definition classification (pf : Platform) (records : gmap Z Z)
    (key scancode action character : Z) (extended was_down : bool)
    : Result (option Classified) :=
  let physical_key := GetPhysicalKey pf scancode extended in
  let logical_key := GetLogicalKey pf key extended scancode in
  let is_physical_down := (action =? WM_KEYDOWN) || (action =? WM_SYSKEYDOWN) in
  let character := UndeadChar pf character in
  match records !! physical_key with
  | Some last_logical_record =>
      if is_physical_down then
        if was_down then
          match Codec.ConvertUtf32ToUtf8_ character with
          | Ok bytes => Ok (Some (mkClassified kFlutterKeyEventTypeRepeat
                                   last_logical_record last_logical_record bytes))
          | Failed w => Failed w
          end
        else Ok None
      else if last_logical_record =? 0 then Ok None
      else Ok (Some (mkClassified kFlutterKeyEventTypeUp last_logical_record 0 []))
  | None =>
      if is_physical_down then
        match Codec.ConvertUtf32ToUtf8_ character with
        | Ok bytes => Ok (Some (mkClassified kFlutterKeyEventTypeDown
                                 logical_key logical_key bytes))
        | Failed w => Failed w
        end
      else Ok None
  end.

(** The part of [KeyboardHookImpl] after the IME filter. *)
Definition processed (pf : Platform) (get_key_state_ : Z → Z)
    (key scancode : Z) (extended : bool) (callback : Callback)
    (c : Classified) (e : Engine) : Result (unit * Engine * list Effect) :=
  let physical_key := GetPhysicalKey pf scancode extended in
  let l1 := update_found (to_u32 key)
              (set_last_seen physical_key (result_logical_key c)) (critical_keys_ e) in
  match sync_steps
          (toggled_step get_key_state_ key
             (bool_decide (cl_type c = kFlutterKeyEventTypeDown)))
          l1 (pressingRecords_ e) with
  | Failed w => Failed w
  | Ok (l2, evT) =>
      let r2 := replay evT (pressingRecords_ e) in
      match sync_steps
              (pressed_step get_key_state_ key
                 (bool_decide (cl_type c ≠ kFlutterKeyEventTypeRepeat)))
              l2 r2 with
      | Failed w => Failed w
      | Ok (l3, evP) =>
          let r3 := replay evP r2 in
          let response_id := to_u64 (response_id_ e + 1) in
          let primary :=
            {| type := cl_type c; physical := physical_key;
               logical := result_logical_key c;
               character := character_bytes c; synthesized := false |} in
          let done r :=
            Ok (tt,
                {| pressingRecords_ := r; critical_keys_ := l3;
                   response_id_ := response_id;
                   pending_responses_ := <[response_id := callback]> (pending_responses_ e);
                   sent_any_events := true |},
                map send_none evT ++ map send_none evP ++
                [PerformSend primary (Some response_id)]) in
          if negb (eventual_logical_record c =? 0) then
            done (<[physical_key := eventual_logical_record c]> r3)
          else
            match r3 !! physical_key with
            | Some _ => done (delete physical_key r3)
            | None => Failed RecordMissing
            end
      end
  end.

Definition KeyboardHookImpl_summary (pf : Platform) (get_key_state_ : Z → Z)
    (key scancode action character : Z) (extended was_down : bool)
    (callback : Callback) (e : Engine) : Result (unit * Engine * list Effect) :=
  if valid_action action then
    match classification pf (pressingRecords_ e) key scancode action character
            extended was_down with
    | Failed w => Failed w
    | Ok None => Ok (tt, e, [InvokeCallback callback true])
    | Ok (Some c) =>
        if result_logical_key c =? VK_PROCESSKEY
        then Ok (tt, e, [InvokeCallback callback true])
        else processed pf get_key_state_ key scancode extended callback c e
    end
  else Failed BadAction.

(** ** Invariants of the engine state *)

(** The guard of the synchronization loops: a critical key with a physical
    id has a logical id. *)
Definition critical_ok_b (l : list (Z * CriticalKey)) : bool :=
  forallb (λ kv, (physical_key kv.2 =? 0) || negb (logical_key kv.2 =? 0)) l.

(** The keys of the registry with their two check flags. *)
Definition critical_layout (l : list (Z * CriticalKey)) : list (Z * bool * bool) :=
  map (λ kv, (kv.1, check_pressed kv.2, check_toggled kv.2)) l.

Definition fixed_layout : list (Z * bool * bool) :=
  [(VK_CAPITAL, true, true); (VK_NUMLOCK, true, true); (VK_SCROLL, true, true);
   (VK_LSHIFT, true, false); (VK_RSHIFT, true, false);
   (VK_LCONTROL, true, false); (VK_RCONTROL, true, false)].

(** [critical_keys_.find(virtual_key)] *)
Fixpoint find_critical (virtual_key : Z) (l : list (Z * CriticalKey)) : option CriticalKey :=
  match l with
  | [] => None
  | (k, ck) :: rest => if k =? virtual_key then Some ck else find_critical virtual_key rest
  end.

(** No value of the press-state table is 0, the value the code reads as
    "no record". *)
Definition records_nonzero (r : gmap Z Z) : Prop :=
  ∀ p l, r !! p = Some l → l ≠ 0.

(** A synthesized press or release of a critical key. *)
Definition is_synthesized_key_event (ev : FlutterKeyEvent) : Prop :=
  synthesized ev = true ∧ type ev ≠ kFlutterKeyEventTypeRepeat ∧
  character ev = [] ∧ physical ev ≠ 0 ∧ logical ev ≠ 0.

(** The fields of a critical-key record that the loops never write. *)
Definition same_ids (ki ki' : CriticalKey) : Prop :=
  physical_key ki' = physical_key ki ∧ logical_key ki' = logical_key ki ∧
  check_pressed ki' = check_pressed ki ∧ check_toggled ki' = check_toggled ki.

(** A synthesized event made from the ids of a critical-key record. *)
Definition event_of (ki : CriticalKey) (ev : FlutterKeyEvent) : Prop :=
  (ev = SynthesizeSimpleEvent kFlutterKeyEventTypeUp (physical_key ki) (logical_key ki) [] ∨
   ev = SynthesizeSimpleEvent kFlutterKeyEventTypeDown (physical_key ki) (logical_key ki) []) ∧
  physical_key ki ≠ 0 ∧ logical_key ki ≠ 0.

(** What the loop bodies have in common. *)
Definition sound_step
    (step : Z → CriticalKey → gmap Z Z → Result (CriticalKey * list FlutterKeyEvent))
    : Prop :=
  ∀ vk ki r,
    match step vk ki r with
    | Ok (ki', evs) =>
        same_ids ki ki' ∧ Forall (event_of ki) evs ∧
        (physical_key ki ≠ 0 → logical_key ki ≠ 0)
    | Failed _ => physical_key ki ≠ 0 ∧ logical_key ki = 0
    end.

(** Every pending response id is at most the last id handed out. *)
Definition ledger_bounded (e : Engine) : Prop :=
  ∀ id, is_Some (pending_responses_ e !! id) → id ≤ response_id_ e.

(** The raw input of a call resolves to a logical id other than 0, the
    value that [KeyboardHookImpl] reads as "remove the record". *)
Definition resolves_nonzero (pf : Platform) (c : Call) : Prop :=
  match c with
  | CallKeyboardHook _ key scancode _ _ extended _ _ =>
      GetLogicalKey pf key extended scancode ≠ 0
  | CallHandleResponse _ _ => True
  end.

(** The events of a list that concern one physical key. *)
Definition events_of_key (p : Z) (evs : list FlutterKeyEvent) : list FlutterKeyEvent :=
  List.filter (λ ev, physical ev =? p) evs.

(** ** Notions used in further properties *)

(** No value of a key table is 0. *)
Definition table_nonzero_b (m : gmap Z Z) : bool :=
  forallb (λ kv : Z * Z, negb (kv.2 =? 0)) (map_to_list m).

(** A platform whose tables and planes give ids other than 0: the Windows
    plane is not empty, the value mask keeps the low byte, and no table
    maps to 0. *)
Definition platform_ok_b (pf : Platform) : bool :=
  negb (windowsPlane pf =? 0) &&
  (Z.land (valueMask pf) 0xff =? 0xff) &&
  table_nonzero_b (windowsToPhysicalMap_ pf) &&
  table_nonzero_b (windowsToLogicalMap_ pf) &&
  table_nonzero_b (scanCodeToLogicalMap_ pf).

(** The pressed state that [SynchronizeCritialPressedStates] expects of a
    critical key: the OS pressed bit, inverted for the key of the raw input
    when its pressed state is about to change. *)
Definition expected_pressed (get_key_state_ : Z → Z) (this_virtual_key : Z)
    (pressed_state_will_change : bool) (virtual_key : Z) : bool :=
  let os_pressed := negb (Z.land (get_key_state_ virtual_key) kStateMaskPressed =? 0) in
  if (virtual_key =? to_u32 this_virtual_key) && pressed_state_will_change
  then negb os_pressed else os_pressed.

(** The callbacks handed to [KeyboardHook] by a sequence of calls. *)
Fixpoint hook_callbacks (cs : list Call) : list Z :=
  match cs with
  | [] => []
  | CallKeyboardHook _ _ _ _ _ _ _ callback :: rest => callback :: hook_callbacks rest
  | CallHandleResponse _ _ :: rest => hook_callbacks rest
  end.

(** Every record of the registry has a physical and a logical id: no
    critical key reads as "never seen". *)
Definition registry_seen (l : list (Z * CriticalKey)) : Prop :=
  Forall (λ kv : Z * CriticalKey, physical_key kv.2 ≠ 0 ∧ logical_key kv.2 ≠ 0) l.

(** The physical ids of the records of the registry. *)
Definition registry_physical (l : list (Z * CriticalKey)) : list Z :=
  map (λ kv : Z * CriticalKey, physical_key kv.2) l.

(** The bookkeeping of callbacks: [used] are the callbacks handed to
    [KeyboardHook] so far, [invoked] those that were called. *)
Definition callbacks_accounted (e : Engine) (used invoked : list Z) : Prop :=
  NoDup invoked ∧
  (∀ cb, cb ∈ invoked → cb ∈ used) ∧
  (∀ id cb, pending_responses_ e !! id = Some cb → cb ∈ used ∧ cb ∉ invoked) ∧
  (∀ id1 id2 cb, pending_responses_ e !! id1 = Some cb →
                 pending_responses_ e !! id2 = Some cb → id1 = id2) ∧
  (∀ cb, cb ∈ used → cb ∈ invoked ∨ ∃ id, pending_responses_ e !! id = Some cb).

(** ** Values used in examples *)

(** A freshly constructed engine on the fixture platform, all keys up and
    no toggle on. *)
Definition engine0 : Engine := KeyboardKeyEmbedderHandler fixture all_up.

(** The primary event of pressing the key A (scan code 0x1e) with character
    'A'. *)
Definition down_A_event : FlutterKeyEvent :=
  {| type := kFlutterKeyEventTypeDown; physical := 0x00070004; logical := 0x61;
     character := [0x41]; synthesized := false |}.

(** [engine0] after that key press was dispatched with response id 2 for
    the callback 7. *)
Definition engine_A_down : Engine :=
  {| pressingRecords_ := {[ 0x00070004 := 0x61 ]};
     critical_keys_ := critical_keys_ engine0;
     response_id_ := 2;
     pending_responses_ := {[ 2 := 7 ]};
     sent_any_events := true |}.

(** [engine0] after left shift (scan code 0x2a) was pressed, dispatched with
    response id 2 for the callback 7. *)
Definition engine_shift_down : Engine :=
  {| pressingRecords_ := {[ 0x000700e1 := 0x200000102 ]};
     critical_keys_ := critical_keys_ engine0;
     response_id_ := 2;
     pending_responses_ := {[ 2 := 7 ]};
     sent_any_events := true |}.

Definition down_shift_event : FlutterKeyEvent :=
  {| type := kFlutterKeyEventTypeDown; physical := 0x000700e1; logical := 0x200000102;
     character := []; synthesized := false |}.

Example conv_A : Codec.ConvertChar32ToUtf8 0x41 = Ok [0x41].
Proof. reflexivity. Qed.
Example conv_grin : Codec.ConvertChar32ToUtf8 0x1F600 = Ok [0xF0; 0x9F; 0x98; 0x80].
Proof. reflexivity. Qed.
Example conv_cent : Codec.ConvertChar32ToUtf8 0x00A2 = Ok [0xC2; 0xA2].
Proof. reflexivity. Qed.
Example conv_devanagari_ha : Codec.ConvertChar32ToUtf8 0x0939 = Ok [0xE0; 0xA4; 0xB9].
Proof. reflexivity. Qed.
Example conv_out_of_range : Codec.ConvertChar32ToUtf8 0x110000 = Failed CodePointOutOfRange.
Proof. reflexivity. Qed.
Example lower_A : GetLogicalKey fixture 0x41 false 0x1e = 0x61.
Proof. reflexivity. Qed.

(** ** The member functions compute their summaries *)

Lemma bind_eq {A B} (m : M A) (f : A → M B) (e : Engine) :
  (m ≫= f) e =
  match m e with
  | Ok (a, e1, o1) =>
      match f a e1 with
      | Ok (b, e2, o2) => Ok (b, e2, o1 ++ o2)
      | Failed w => Failed w
      end
  | Failed w => Failed w
  end.
Proof. reflexivity. Qed.

Lemma replay_app (evs1 evs2 : list FlutterKeyEvent) (r : gmap Z Z) :
  replay (evs1 ++ evs2) r = replay evs2 (replay evs1 r).
Proof. unfold replay. apply foldl_app. Qed.

Lemma apply_events_nil (e : Engine) : apply_events [] e = e.
Proof. destruct e as [r c i p s]. unfold apply_events; simpl. by rewrite orb_false_r. Qed.

Lemma apply_events_app (evs1 evs2 : list FlutterKeyEvent) (e : Engine) :
  apply_events evs2 (apply_events evs1 e) = apply_events (evs1 ++ evs2) e.
Proof.
  unfold apply_events; simpl. rewrite replay_app. f_equal.
  destruct evs1, evs2; simpl; rewrite ?orb_false_r, ?orb_true_r; reflexivity.
Qed.

Ltac run_monad :=
  unfold SendEvent, mbind, M_bind, mret, M_ret, gets, modify, emit, assert, lift;
  cbn beta iota.

Lemma toggled_body_step gks this d vk ki (e : Engine) :
  toggled_body gks this d vk ki e =
  match toggled_step gks this d vk ki (pressingRecords_ e) with
  | Ok (ki', evs) => Ok (ki', apply_events evs e, map send_none evs)
  | Failed w => Failed w
  end.
Proof.
  unfold toggled_body, toggled_step.
  destruct (physical_key ki =? 0).
  { by rewrite apply_events_nil. }
  run_monad.
  destruct (logical_key ki =? 0); simpl; [done|].
  destruct (check_toggled ki); [|by rewrite apply_events_nil].
  destruct ((vk =? to_u32 this) && d); simpl;
    (match goal with |- context [negb (eqb ?a ?b)] => destruct (negb (eqb a b)) end;
     [|cbn; by rewrite apply_events_nil]);
    destruct e as [r c i p s]; cbn;
    destruct (r !! physical_key ki); cbn;
    unfold apply_events, replay, replay_event; cbn;
    rewrite ?insert_delete_eq, ?orb_true_r; reflexivity.
Qed.

Lemma pressed_body_step gks this d vk ki (e : Engine) :
  pressed_body gks this d vk ki e =
  match pressed_step gks this d vk ki (pressingRecords_ e) with
  | Ok (ki', evs) => Ok (ki', apply_events evs e, map send_none evs)
  | Failed w => Failed w
  end.
Proof.
  unfold pressed_body, pressed_step.
  destruct (physical_key ki =? 0).
  { by rewrite apply_events_nil. }
  run_monad.
  destruct (logical_key ki =? 0); simpl; [done|].
  destruct (check_pressed ki); [|by rewrite apply_events_nil].
  destruct e as [r c i p s]; cbn.
  destruct (r !! physical_key ki); cbn;
    destruct ((vk =? to_u32 this) && d);
    destruct (Z.land (gks vk) kStateMaskPressed =? 0);
    cbn; unfold apply_events; cbn; rewrite ?orb_true_r, ?orb_false_r; reflexivity.
Qed.

Lemma for_each_critical_steps body step l :
  (∀ vk ki e,
     body vk ki e =
     match step vk ki (pressingRecords_ e) with
     | Ok (ki', evs) => Ok (ki', apply_events evs e, map send_none evs)
     | Failed w => Failed w
     end) →
  ∀ e : Engine,
    for_each_critical body l e =
    match sync_steps step l (pressingRecords_ e) with
    | Ok (l', evs) => Ok (l', apply_events evs e, map send_none evs)
    | Failed w => Failed w
    end.
Proof.
  intros Hbody. induction l as [|[vk ki] rest IH]; intros e.
  - simpl. by rewrite apply_events_nil.
  - simpl. rewrite bind_eq, Hbody.
    destruct (step vk ki (pressingRecords_ e)) as [[ki' evs1]|w]; [|done].
    rewrite bind_eq, IH. simpl.
    destruct (sync_steps step rest (replay evs1 (pressingRecords_ e)))
      as [[rest' evs2]|w]; [|done].
    simpl. rewrite apply_events_app, app_nil_r, map_app. reflexivity.
Qed.

Lemma for_critical_keys_steps body step :
  (∀ vk ki e,
     body vk ki e =
     match step vk ki (pressingRecords_ e) with
     | Ok (ki', evs) => Ok (ki', apply_events evs e, map send_none evs)
     | Failed w => Failed w
     end) →
  ∀ e : Engine,
    for_critical_keys_ body e =
    match sync_steps step (critical_keys_ e) (pressingRecords_ e) with
    | Ok (l', evs) =>
        Ok (tt, set_critical_keys_ l' (apply_events evs e), map send_none evs)
    | Failed w => Failed w
    end.
Proof.
  intros Hbody e. unfold for_critical_keys_.
  rewrite bind_eq. unfold gets at 1. rewrite bind_eq.
  rewrite (for_each_critical_steps body step _ Hbody).
  destruct (sync_steps step (critical_keys_ e) (pressingRecords_ e)) as [[l' evs]|w];
    [|done].
  simpl. by rewrite app_nil_r.
Qed.

Lemma SynchronizeCritialToggledStates_steps gks this d (e : Engine) :
  SynchronizeCritialToggledStates gks this d e =
  match sync_steps (toggled_step gks this d) (critical_keys_ e) (pressingRecords_ e) with
  | Ok (l', evs) =>
      Ok (tt, set_critical_keys_ l' (apply_events evs e), map send_none evs)
  | Failed w => Failed w
  end.
Proof. apply for_critical_keys_steps, toggled_body_step. Qed.

Lemma SynchronizeCritialPressedStates_steps gks this d (e : Engine) :
  SynchronizeCritialPressedStates gks this d e =
  match sync_steps (pressed_step gks this d) (critical_keys_ e) (pressingRecords_ e) with
  | Ok (l', evs) =>
      Ok (tt, set_critical_keys_ l' (apply_events evs e), map send_none evs)
  | Failed w => Failed w
  end.
Proof. apply for_critical_keys_steps, pressed_body_step. Qed.

Lemma UpdateLastSeenCritialKey_eq vk p l (e : Engine) :
  UpdateLastSeenCritialKey vk p l e =
  Ok (tt, set_critical_keys_
            (update_found (to_u32 vk) (set_last_seen p l) (critical_keys_ e)) e, []).
Proof. reflexivity. Qed.

Lemma dispatch_eq pf gks key scancode extended callback c (e : Engine) :
  dispatch gks key (GetPhysicalKey pf scancode extended) callback c e =
  if result_logical_key c =? VK_PROCESSKEY
  then Ok (tt, e, [InvokeCallback callback true])
  else processed pf gks key scancode extended callback c e.
Proof.
  unfold dispatch, processed.
  destruct (result_logical_key c =? VK_PROCESSKEY); [reflexivity|].
  rewrite bind_eq, UpdateLastSeenCritialKey_eq.
  rewrite bind_eq, SynchronizeCritialToggledStates_steps.
  cbn [critical_keys_ pressingRecords_ set_critical_keys_].
  destruct (sync_steps _ _ (pressingRecords_ e)) as [[l2 evT]|w]; [|done].
  rewrite bind_eq, SynchronizeCritialPressedStates_steps.
  cbn [critical_keys_ pressingRecords_ set_critical_keys_ apply_events].
  destruct (sync_steps _ l2 _) as [[l3 evP]|w]; [|done].
  destruct e as [r cr i p s]. cbn [pressingRecords_ critical_keys_ response_id_
    pending_responses_ sent_any_events].
  destruct (negb (eventual_logical_record c =? 0)).
  - run_monad. cbn. reflexivity.
  - run_monad. cbn.
    destruct (replay evP (replay evT r) !! GetPhysicalKey pf scancode extended); [|done].
    cbn. reflexivity.
Qed.

Lemma classify_eq pf key scancode action character extended was_down callback
    (e : Engine) :
  let r := pressingRecords_ e !! GetPhysicalKey pf scancode extended in
  classify (GetLogicalKey pf key extended scancode) (UndeadChar pf character)
    ((action =? WM_KEYDOWN) || (action =? WM_SYSKEYDOWN))
    (match r with Some _ => true | None => false end) was_down
    (match r with Some second => second | None => 0 end) callback e =
  match classification pf (pressingRecords_ e) key scancode action character
          extended was_down with
  | Ok (Some c) => Ok (Some c, e, [])
  | Ok None => Ok (None, e, [InvokeCallback callback true])
  | Failed w => Failed w
  end.
Proof.
  unfold classify, classification. cbn zeta.
  destruct (pressingRecords_ e !! GetPhysicalKey pf scancode extended) as [last|];
    destruct ((action =? WM_KEYDOWN) || (action =? WM_SYSKEYDOWN));
    try destruct was_down; try destruct (last =? 0); cbn [Z.eqb];
    try reflexivity;
    run_monad;
    destruct (Codec.ConvertUtf32ToUtf8_ (UndeadChar pf character)); reflexivity.
Qed.

Lemma KeyboardHookImpl_eq pf gks key scancode action character extended was_down
    callback (e : Engine) :
  KeyboardHookImpl pf gks key scancode action character extended was_down callback e =
  KeyboardHookImpl_summary pf gks key scancode action character extended was_down
    callback e.
Proof.
  unfold KeyboardHookImpl, KeyboardHookImpl_summary.
  rewrite bind_eq. unfold assert at 1.
  destruct (valid_action action); [|done].
  rewrite bind_eq. unfold gets at 1.
  rewrite bind_eq, classify_eq.
  destruct (classification pf (pressingRecords_ e) key scancode action character
              extended was_down) as [[c|]|w]; [| reflexivity | reflexivity].
  rewrite dispatch_eq.
  destruct (result_logical_key c =? VK_PROCESSKEY); [reflexivity|].
  destruct (processed pf gks key scancode extended callback c e) as [[[[] e2] o2]|w];
    reflexivity.
Qed.

(** ** Properties of the synchronization loops *)

Lemma toggled_step_sound gks this d : sound_step (toggled_step gks this d).
Proof.
  intros vk ki r. unfold toggled_step.
  destruct (Z.eqb_spec (physical_key ki) 0) as [|Hp]; [by repeat split|].
  destruct (Z.eqb_spec (logical_key ki) 0) as [|Hl]; [done|].
  destruct (check_toggled ki) eqn:Hc; [|by repeat split].
  split; [by repeat split|]. split; [|done].
  destruct (negb _); [|constructor].
  destruct (r !! physical_key ki); simpl;
    repeat (constructor; [split; [by (left + right)|done]|]); constructor.
Qed.

Lemma pressed_step_sound gks this d : sound_step (pressed_step gks this d).
Proof.
  intros vk ki r. unfold pressed_step.
  destruct (Z.eqb_spec (physical_key ki) 0) as [|Hp]; [by repeat split|].
  destruct (Z.eqb_spec (logical_key ki) 0) as [|Hl]; [done|].
  destruct (check_pressed ki) eqn:Hc; [|by repeat split].
  split; [by repeat split|]. split; [|done].
  destruct (negb _); [|constructor].
  destruct (r !! physical_key ki); simpl;
    (constructor; [split; [by (left + right)|done]|]); constructor.
Qed.

Lemma pressed_step_same gks this d vk ki r ki' evs :
  pressed_step gks this d vk ki r = Ok (ki', evs) → ki' = ki.
Proof.
  unfold pressed_step. repeat case_match; congruence.
Qed.

Lemma sync_steps_sound step l r l' evs :
  sound_step step →
  sync_steps step l r = Ok (l', evs) →
  Forall2 (λ a b, a.1 = b.1 ∧ same_ids a.2 b.2) l l' ∧
  Forall (λ ev, ∃ kv, kv ∈ l ∧ event_of kv.2 ev) evs.
Proof.
  intros Hstep. revert r l' evs.
  induction l as [|[vk ki] rest IH]; intros r l' evs H; simpl in H.
  - inversion H; subst. split; constructor.
  - pose proof (Hstep vk ki r) as Hs.
    destruct (step vk ki r) as [[ki' evs1]|w]; [|done].
    destruct (sync_steps step rest (replay evs1 r)) as [[rest' evs2]|w] eqn:Hrest; [|done].
    inversion H; subst. destruct Hs as (Hid & Hev & _).
    destruct (IH _ _ _ Hrest) as [IH1 IH2].
    split; [constructor; [done|done]|].
    apply Forall_app. split.
    + eapply Forall_impl; [exact Hev|]. intros ev Hv. exists (vk, ki).
      split; [left|done].
    + eapply Forall_impl; [exact IH2|]. intros ev (kv & Hin & Hv). exists kv.
      split; [by right|done].
Qed.

Lemma sync_steps_pressed_same gks this d l r l' evs :
  sync_steps (pressed_step gks this d) l r = Ok (l', evs) → l' = l.
Proof.
  revert r l' evs. induction l as [|[vk ki] rest IH]; intros r l' evs H; simpl in H.
  - by inversion H.
  - destruct (pressed_step gks this d vk ki r) as [[ki' evs1]|w] eqn:Hs; [|done].
    destruct (sync_steps _ rest _) as [[rest' evs2]|w] eqn:Hrest; [|done].
    inversion H; subst. apply pressed_step_same in Hs. apply IH in Hrest. by subst.
Qed.

Lemma same_ids_layout l l' :
  Forall2 (λ a b : Z * CriticalKey, a.1 = b.1 ∧ same_ids a.2 b.2) l l' →
  critical_layout l' = critical_layout l ∧ critical_ok_b l' = critical_ok_b l.
Proof.
  induction 1 as [|[k ki] [k' ki'] l l' [Hk (Hp & Hl & Hcp & Hct)] _ [IH1 IH2]];
    [done|].
  simpl in *. subst. rewrite IH1, IH2, Hp, Hl, Hcp, Hct. done.
Qed.

Lemma critical_ok_b_Forall l :
  critical_ok_b l = true ↔
  Forall (λ kv : Z * CriticalKey, physical_key kv.2 ≠ 0 → logical_key kv.2 ≠ 0) l.
Proof.
  unfold critical_ok_b. rewrite forallb_forall, Forall_forall.
  split; intros H kv Hin.
  - apply list_elem_of_In in Hin. specialize (H kv Hin).
    apply orb_true_iff in H as [H|H]; [lia|].
    apply negb_true_iff in H. lia.
  - apply list_elem_of_In in Hin. specialize (H kv Hin).
    destruct (Z.eqb_spec (physical_key kv.2) 0); [done|].
    destruct (Z.eqb_spec (logical_key kv.2) 0); [|done]. by destruct H.
Qed.

Lemma sync_steps_total step l r :
  sound_step step →
  critical_ok_b l = true →
  ∃ l' evs, sync_steps step l r = Ok (l', evs).
Proof.
  intros Hstep. revert r. induction l as [|[vk ki] rest IH]; intros r Hok.
  - by eexists _, _.
  - simpl in Hok. apply andb_true_iff in Hok as [Hk Hrest].
    simpl. pose proof (Hstep vk ki r) as Hs.
    destruct (step vk ki r) as [[ki' evs1]|w].
    + destruct (IH (replay evs1 r) Hrest) as (rest' & evs2 & ->). by eexists _, _.
    + destruct Hs as [Hp Hl]. simpl in Hk.
      apply orb_true_iff in Hk as [Hk|Hk]; [lia|].
      apply negb_true_iff in Hk. lia.
Qed.

Lemma sync_steps_Ok_critical_ok step l r l' evs :
  sound_step step →
  sync_steps step l r = Ok (l', evs) → critical_ok_b l = true.
Proof.
  intros Hstep. revert r l' evs.
  induction l as [|[vk ki] rest IH]; intros r l' evs H; [done|].
  simpl in H. simpl.
  pose proof (Hstep vk ki r) as Hs.
  destruct (step vk ki r) as [[ki' evs1]|w]; [|done].
  destruct (sync_steps step rest _) as [[rest' evs2]|w] eqn:Hrest; [|done].
  rewrite (IH _ _ _ Hrest), andb_true_r.
  destruct Hs as (_ & _ & Hs).
  destruct (Z.eqb_spec (physical_key ki) 0); [done|].
  destruct (Z.eqb_spec (logical_key ki) 0) as [Hz|]; [|done]. by destruct Hs.
Qed.

Lemma event_of_synthesized ki ev : event_of ki ev → is_synthesized_key_event ev.
Proof. intros [[-> | ->] [Hp Hl]]; by repeat split. Qed.

Lemma sync_steps_events step l r l' evs :
  sound_step step →
  sync_steps step l r = Ok (l', evs) →
  Forall is_synthesized_key_event evs.
Proof.
  intros Hstep H. destruct (sync_steps_sound _ _ _ _ _ Hstep H) as [_ Hev].
  eapply Forall_impl; [exact Hev|]. intros ev (kv & _ & Hv).
  by eapply event_of_synthesized.
Qed.

Lemma replay_snoc evs ev r : replay (evs ++ [ev]) r = replay_event (replay evs r) ev.
Proof. by rewrite replay_app. Qed.

Lemma replay_nonzero evs r :
  records_nonzero r →
  Forall (λ ev, type ev ≠ kFlutterKeyEventTypeUp → logical ev ≠ 0) evs →
  records_nonzero (replay evs r).
Proof.
  intros Hr Hev. revert r Hr. induction Hev as [|ev evs Hv _ IH]; intros r Hr; [done|].
  simpl. apply IH. intros p l. unfold replay_event.
  destruct (type ev) eqn:Ht.
  - rewrite lookup_delete. case_decide; [done|]. apply Hr.
  - rewrite lookup_insert. case_decide; [|apply Hr].
    intros [= <-]. apply Hv. congruence.
  - rewrite lookup_insert. case_decide; [|apply Hr].
    intros [= <-]. apply Hv. congruence.
Qed.

Lemma replay_synthesized_nonzero evs r :
  records_nonzero r → Forall is_synthesized_key_event evs →
  records_nonzero (replay evs r).
Proof.
  intros Hr Hev. apply replay_nonzero; [done|].
  eapply Forall_impl; [exact Hev|]. by intros ev (_ & _ & _ & _ & Hl) _.
Qed.

Lemma replay_untouched evs r p :
  Forall (λ ev, physical ev ≠ p) evs → replay evs r !! p = r !! p.
Proof.
  intros Hev. revert r. induction Hev as [|ev evs Hv _ IH]; intros r; [done|].
  simpl. rewrite IH. unfold replay_event.
  destruct (type ev); by rewrite ?lookup_delete_ne, ?lookup_insert_ne.
Qed.

Lemma sync_steps_untouched step l r l' evs p :
  sound_step step →
  sync_steps step l r = Ok (l', evs) →
  Forall (λ kv : Z * CriticalKey, physical_key kv.2 ≠ p) l →
  Forall (λ ev, physical ev ≠ p) evs.
Proof.
  intros Hstep H Hl. destruct (sync_steps_sound _ _ _ _ _ Hstep H) as [_ Hev].
  eapply Forall_impl; [exact Hev|]. intros ev (kv & Hin & [Hv _]).
  rewrite Forall_forall in Hl. specialize (Hl kv Hin).
  by destruct Hv as [-> | ->].
Qed.

(** *** The registry under [UpdateLastSeenCritialKey] *)

Lemma update_found_layout vk p l cr :
  critical_layout (update_found vk (set_last_seen p l) cr) = critical_layout cr.
Proof.
  induction cr as [|[k ck] rest IH]; [done|]. simpl.
  destruct (k =? vk); simpl; [done|]. by rewrite IH.
Qed.

Lemma find_critical_update_found vk vk' f cr :
  find_critical vk' (update_found vk f cr) =
  if vk' =? vk then f <$> find_critical vk cr else find_critical vk' cr.
Proof.
  induction cr as [|[k ck] rest IH]; simpl.
  - by destruct (vk' =? vk).
  - destruct (Z.eqb_spec k vk) as [->|Hk]; simpl.
    + destruct (Z.eqb_spec vk vk') as [->|Hne].
      * by rewrite Z.eqb_refl.
      * destruct (Z.eqb_spec vk' vk); [congruence|done].
    + destruct (Z.eqb_spec k vk') as [->|Hk'].
      * destruct (Z.eqb_spec vk' vk); [congruence|done].
      * exact IH.
Qed.

Lemma update_found_critical_ok vk p l cr :
  critical_ok_b cr = true → (p ≠ 0 → l ≠ 0) →
  critical_ok_b (update_found vk (set_last_seen p l) cr) = true.
Proof.
  intros Hok Hpl. induction cr as [|[k ck] rest IH]; [done|].
  simpl in *. apply andb_true_iff in Hok as [Hk Hrest].
  destruct (k =? vk); simpl.
  - rewrite Hrest, andb_true_r.
    destruct (Z.eqb_spec p 0); [done|]. destruct (Z.eqb_spec l 0); [|done].
    by destruct Hpl.
  - by rewrite Hk, IH.
Qed.

(** *** Inversion of the summaries *)

Lemma classification_inv pf r key scancode action character extended was_down c :
  classification pf r key scancode action character extended was_down = Ok (Some c) →
  let P := GetPhysicalKey pf scancode extended in
  let down := (action =? WM_KEYDOWN) || (action =? WM_SYSKEYDOWN) in
  (cl_type c = kFlutterKeyEventTypeDown ∧ r !! P = None ∧ down = true ∧
   result_logical_key c = GetLogicalKey pf key extended scancode ∧
   eventual_logical_record c = GetLogicalKey pf key extended scancode ∧
   Codec.ConvertUtf32ToUtf8_ (UndeadChar pf character) = Ok (character_bytes c)) ∨
  (cl_type c = kFlutterKeyEventTypeRepeat ∧ r !! P = Some (result_logical_key c) ∧
   down = true ∧ was_down = true ∧
   eventual_logical_record c = result_logical_key c ∧
   Codec.ConvertUtf32ToUtf8_ (UndeadChar pf character) = Ok (character_bytes c)) ∨
  (cl_type c = kFlutterKeyEventTypeUp ∧ r !! P = Some (result_logical_key c) ∧
   down = false ∧ result_logical_key c ≠ 0 ∧
   eventual_logical_record c = 0 ∧ character_bytes c = []).
Proof.
  intros H P down. unfold classification in H. cbn zeta in H. fold P in H. fold down in H.
  destruct (r !! P) as [last|]; destruct down; try destruct was_down;
    try destruct (Z.eqb_spec last 0);
    try destruct (Codec.ConvertUtf32ToUtf8_ (UndeadChar pf character)) as [bytes|w];
    try discriminate; injection H as <-; simpl; naive_solver.
Qed.

Lemma processed_inv pf gks key scancode extended callback c (e e' : Engine) out :
  processed pf gks key scancode extended callback c e = Ok (tt, e', out) →
  let P := GetPhysicalKey pf scancode extended in
  let l1 := update_found (to_u32 key) (set_last_seen P (result_logical_key c))
              (critical_keys_ e) in
  let rid := to_u64 (response_id_ e + 1) in
  ∃ l2 evT evP,
    sync_steps (toggled_step gks key (bool_decide (cl_type c = kFlutterKeyEventTypeDown)))
      l1 (pressingRecords_ e) = Ok (l2, evT) ∧
    sync_steps (pressed_step gks key (bool_decide (cl_type c ≠ kFlutterKeyEventTypeRepeat)))
      l2 (replay evT (pressingRecords_ e)) = Ok (l2, evP) ∧
    (let r3 := replay (evT ++ evP) (pressingRecords_ e) in
     if eventual_logical_record c =? 0
     then is_Some (r3 !! P) ∧ pressingRecords_ e' = delete P r3
     else pressingRecords_ e' = <[P := eventual_logical_record c]> r3) ∧
    critical_keys_ e' = l2 ∧
    response_id_ e' = rid ∧
    pending_responses_ e' = <[rid := callback]> (pending_responses_ e) ∧
    sent_any_events e' = true ∧
    out = map send_none (evT ++ evP) ++
          [PerformSend {| type := cl_type c; physical := P;
                          logical := result_logical_key c;
                          character := character_bytes c; synthesized := false |}
             (Some rid)].
Proof.
  intros H P l1 rid. unfold processed in H. cbn zeta in H. fold P in H. fold l1 in H.
  destruct (sync_steps _ l1 _) as [[l2 evT]|w] eqn:HT; [|done].
  destruct (sync_steps _ l2 _) as [[l3 evP]|w] eqn:HP; [|done].
  pose proof (sync_steps_pressed_same _ _ _ _ _ _ _ HP) as ->.
  exists l2, evT, evP. rewrite replay_app, map_app, <- app_assoc.
  split; [done|]. split; [done|].
  destruct (eventual_logical_record c =? 0); simpl in H.
  - destruct (replay evP (replay evT (pressingRecords_ e)) !! P) eqn:Hl; [|done].
    injection H as <- <-. by repeat split.
  - injection H as <- <-. by repeat split.
Qed.

Lemma KeyboardHookImpl_inv pf gks key scancode action character extended was_down
    callback (e e' : Engine) out :
  KeyboardHookImpl pf gks key scancode action character extended was_down callback e
    = Ok (tt, e', out) →
  valid_action action = true ∧
  ((e' = e ∧ out = [InvokeCallback callback true]) ∨
   ∃ c,
     classification pf (pressingRecords_ e) key scancode action character
       extended was_down = Ok (Some c) ∧
     result_logical_key c ≠ VK_PROCESSKEY ∧
     processed pf gks key scancode extended callback c e = Ok (tt, e', out)).
Proof.
  rewrite KeyboardHookImpl_eq. unfold KeyboardHookImpl_summary.
  destruct (valid_action action); [|done]. intros H. split; [done|].
  destruct (classification _ _ _ _ _ _ _ _) as [[c|]|w]; [| |done].
  - destruct (Z.eqb_spec (result_logical_key c) VK_PROCESSKEY).
    + injection H as <- <-. by left.
    + right. by exists c.
  - injection H as <- <-. by left.
Qed.

Lemma KeyboardHook_eq pf gks key scancode action character extended was_down
    callback (e : Engine) :
  KeyboardHook pf gks key scancode action character extended was_down callback e =
  match KeyboardHookImpl pf gks key scancode action character extended was_down
          callback (set_sent_any_events false e) with
  | Ok (_, e1, o1) =>
      if sent_any_events e1 then Ok (tt, e1, o1)
      else Ok (tt, set_sent_any_events true e1, o1 ++ [PerformSend empty_event None])
  | Failed w => Failed w
  end.
Proof.
  unfold KeyboardHook. rewrite bind_eq. unfold modify at 1. rewrite bind_eq.
  destruct (KeyboardHookImpl _ _ _ _ _ _ _ _ _ _) as [[[[] e1] o1]|w]; [|done].
  rewrite bind_eq. unfold gets at 1.
  destruct (sent_any_events e1); simpl; by rewrite ?app_nil_r.
Qed.

(** *** Observations on summaries *)

Lemma sends_app o1 o2 : sends (o1 ++ o2) = sends o1 ++ sends o2.
Proof.
  induction o1 as [|[ev ud|cb h] o1 IH]; simpl; [done| |done]. by rewrite IH.
Qed.

Lemma sends_send_none evs : sends (map send_none evs) = map (λ ev, (ev, None)) evs.
Proof. induction evs as [|ev evs IH]; simpl; [done|]. by rewrite IH. Qed.

Lemma callbacks_app o1 o2 : callbacks (o1 ++ o2) = callbacks o1 ++ callbacks o2.
Proof.
  induction o1 as [|[ev ud|cb h] o1 IH]; simpl; [done|done|]. by rewrite IH.
Qed.

Lemma callbacks_send_none evs : callbacks (map send_none evs) = [].
Proof. induction evs as [|ev evs IH]; simpl; done. Qed.

Lemma response_ids_app o1 o2 : response_ids (o1 ++ o2) = response_ids o1 ++ response_ids o2.
Proof.
  induction o1 as [|[ev [id|]|cb h] o1 IH]; simpl; [done| |done|done]. by rewrite IH.
Qed.

Lemma response_ids_send_none evs : response_ids (map send_none evs) = [].
Proof. induction evs as [|ev evs IH]; simpl; done. Qed.

Lemma valid_action_down action :
  action = WM_KEYDOWN ∨ action = WM_SYSKEYDOWN →
  valid_action action = true ∧ (action =? WM_KEYDOWN) || (action =? WM_SYSKEYDOWN) = true.
Proof. by intros [-> | ->]. Qed.

Lemma valid_action_up action :
  action = WM_KEYUP ∨ action = WM_SYSKEYUP →
  valid_action action = true ∧ (action =? WM_KEYDOWN) || (action =? WM_SYSKEYDOWN) = false.
Proof. by intros [-> | ->]. Qed.

Lemma ConvertUtf32ToUtf8__total (cp : Z) :
  0 ≤ cp ≤ 0x10FFFF →
  Codec.ConvertUtf32ToUtf8_ cp = Ok (Codec.c_str (Codec.ConvertChar32ToUtf8_bytes cp)).
Proof.
  intros Hcp. unfold Codec.ConvertUtf32ToUtf8_, Codec.ConvertChar32ToUtf8.
  destruct (Z.eqb_spec cp 0) as [->|]; [done|].
  destruct (Z.leb_spec 0 cp); [|lia].
  destruct (Z.leb_spec cp 0x10FFFF); [|lia]. done.
Qed.

(** ** Absorbed and ignored transitions *)

(** Claim C3. A non-repeat down transition on a physical key that is recorded
    down, and an up transition on a physical key that is not recorded down,
    are absorbed by [KeyboardHookImpl]: the call returns with the engine
    unchanged (so the press-state table and the critical-key registry are
    unchanged), no event is handed to the host, and the caller's callback is
    invoked exactly once, with [handled = true]. *)
Theorem absorbed_transitions pf gks key scancode action character extended was_down
    callback (e : Engine) :
  let P := GetPhysicalKey pf scancode extended in
  ((action = WM_KEYDOWN ∨ action = WM_SYSKEYDOWN) ∧ was_down = false ∧
   is_Some (pressingRecords_ e !! P)) ∨
  ((action = WM_KEYUP ∨ action = WM_SYSKEYUP) ∧ pressingRecords_ e !! P = None) →
  ∃ out,
    KeyboardHookImpl pf gks key scancode action character extended was_down callback e
      = Ok (tt, e, out) ∧
    sends out = [] ∧ callbacks out = [(callback, true)].
Proof.
  intros P H. exists [InvokeCallback callback true]. split; [|done].
  rewrite KeyboardHookImpl_eq. unfold KeyboardHookImpl_summary, classification.
  fold P.
  destruct H as [(Ha & -> & [last Hl]) | (Ha & Hl)].
  - apply valid_action_down in Ha as [-> ->]. by rewrite Hl.
  - apply valid_action_up in Ha as [-> ->]. by rewrite Hl.
Qed.

Lemma absorbed_transitions_witness :
  ∃ out,
    KeyboardHookImpl fixture all_up 0x41 0x1e WM_KEYUP 0x41 false false 7
      (KeyboardKeyEmbedderHandler fixture all_up)
      = Ok (tt, KeyboardKeyEmbedderHandler fixture all_up, out) ∧
    sends out = [] ∧ callbacks out = [(7, true)].
Proof.
  apply (absorbed_transitions fixture all_up 0x41 0x1e WM_KEYUP 0x41 false false 7).
  right. split; [by left|reflexivity].
Defined.

(** Claim C5. When the logical id of the resulting event is the IME sentinel
    [VK_PROCESSKEY], because a down transition without a record resolves to
    it (as it does when the virtual key is [VK_PROCESSKEY]), or because the
    recorded logical id reused by a repeat or an up transition is the
    sentinel, [KeyboardHookImpl] ignores the input: the engine is unchanged,
    no event is handed to the host and the callback is invoked with
    [handled = true]. *)
Theorem ime_sentinel_ignored pf gks key scancode action character extended was_down
    callback (e : Engine) :
  let P := GetPhysicalKey pf scancode extended in
  let cp := UndeadChar pf character in
  ((action = WM_KEYDOWN ∨ action = WM_SYSKEYDOWN) ∧ pressingRecords_ e !! P = None ∧
   GetLogicalKey pf key extended scancode = VK_PROCESSKEY ∧ 0 ≤ cp ≤ 0x10FFFF) ∨
  ((action = WM_KEYDOWN ∨ action = WM_SYSKEYDOWN) ∧
   pressingRecords_ e !! P = Some VK_PROCESSKEY ∧ 0 ≤ cp ≤ 0x10FFFF) ∨
  ((action = WM_KEYUP ∨ action = WM_SYSKEYUP) ∧
   pressingRecords_ e !! P = Some VK_PROCESSKEY) →
  GetLogicalKey pf VK_PROCESSKEY extended scancode = VK_PROCESSKEY ∧
  ∃ out,
    KeyboardHookImpl pf gks key scancode action character extended was_down callback e
      = Ok (tt, e, out) ∧
    sends out = [] ∧ callbacks out = [(callback, true)].
Proof.
  intros P cp H. split; [reflexivity|].
  exists [InvokeCallback callback true]. split; [|done].
  rewrite KeyboardHookImpl_eq. unfold KeyboardHookImpl_summary, classification.
  fold P. fold cp.
  destruct H as [(Ha & Hl & Hk & Hcp) | [(Ha & Hl & Hcp) | (Ha & Hl)]].
  - apply valid_action_down in Ha as [-> ->]. rewrite Hl.
    rewrite ConvertUtf32ToUtf8__total by done. simpl. by rewrite Hk.
  - apply valid_action_down in Ha as [-> ->]. rewrite Hl.
    rewrite ConvertUtf32ToUtf8__total by done. by destruct was_down.
  - apply valid_action_up in Ha as [-> ->]. by rewrite Hl.
Qed.

Lemma ime_sentinel_ignored_witness :
  GetLogicalKey fixture VK_PROCESSKEY false 0x1e = VK_PROCESSKEY ∧
  ∃ out,
    KeyboardHookImpl fixture all_up VK_PROCESSKEY 0x1e WM_KEYDOWN 0x41 false false 7
      (KeyboardKeyEmbedderHandler fixture all_up)
      = Ok (tt, KeyboardKeyEmbedderHandler fixture all_up, out) ∧
    sends out = [] ∧ callbacks out = [(7, true)].
Proof.
  apply (ime_sentinel_ignored fixture all_up VK_PROCESSKEY 0x1e WM_KEYDOWN 0x41
           false false 7).
  left. split; [by left|]. split; [reflexivity|]. split; [reflexivity|].
  vm_compute. split; discriminate.
Defined.

(** ** The shape of a processed transition *)

Lemma processed_shape pf gks key scancode extended callback c (e e' : Engine) out :
  processed pf gks key scancode extended callback c e = Ok (tt, e', out) →
  let P := GetPhysicalKey pf scancode extended in
  let rid := to_u64 (response_id_ e + 1) in
  ∃ evs,
    Forall is_synthesized_key_event evs ∧
    out = map send_none evs ++
          [PerformSend {| type := cl_type c; physical := P;
                          logical := result_logical_key c;
                          character := character_bytes c; synthesized := false |}
             (Some rid)] ∧
    (let r3 := replay evs (pressingRecords_ e) in
     if eventual_logical_record c =? 0
     then is_Some (r3 !! P) ∧ pressingRecords_ e' = delete P r3
     else pressingRecords_ e' = <[P := eventual_logical_record c]> r3) ∧
    critical_layout (critical_keys_ e') = critical_layout (critical_keys_ e) ∧
    critical_ok_b (critical_keys_ e') = true ∧
    response_id_ e' = rid ∧
    pending_responses_ e' = <[rid := callback]> (pending_responses_ e) ∧
    sent_any_events e' = true.
Proof.
  intros H P rid.
  destruct (processed_inv _ _ _ _ _ _ _ _ _ _ H)
    as (l2 & evT & evP & HT & HP & Hr & Hc & Hi & Hp & Hs & Ho).
  exists (evT ++ evP).
  pose proof (sync_steps_sound _ _ _ _ _ (toggled_step_sound _ _ _) HT) as [HT2 _].
  apply same_ids_layout in HT2 as [Hlay Hok].
  split.
  { apply Forall_app. split.
    - eapply sync_steps_events; [apply toggled_step_sound|exact HT].
    - eapply sync_steps_events; [apply pressed_step_sound|exact HP]. }
  split; [done|]. split; [done|].
  rewrite Hc. split; [by rewrite Hlay, update_found_layout|].
  split; [|done].
  eapply sync_steps_Ok_critical_ok; [apply pressed_step_sound|exact HP].
Qed.

Lemma KeyboardHookImpl_sent pf gks key scancode action character extended was_down
    callback (e e' : Engine) out :
  KeyboardHookImpl pf gks key scancode action character extended was_down callback e
    = Ok (tt, e', out) →
  Forall (λ x, is_neutral x = false) (sends out) ∧
  ((sends out = [] ∧ e' = e) ∨ (sends out ≠ [] ∧ sent_any_events e' = true)).
Proof.
  intros H. apply KeyboardHookImpl_inv in H as [_ [[-> ->] | (c & _ & _ & H)]].
  - split; [constructor|by left].
  - apply processed_shape in H as (evs & Hev & -> & _ & _ & _ & _ & _ & Hs).
    rewrite sends_app, sends_send_none. simpl. split.
    + apply Forall_app. split; [|by repeat constructor].
      apply Forall_map. eapply Forall_impl; [exact Hev|].
      intros ev (Hsy & _). unfold is_neutral. simpl. by rewrite Hsy.
    + right. split; [|done]. by destruct (map _ evs).
Qed.

(** Claim C4. [KeyboardHook] clears [sent_any_events], runs [KeyboardHookImpl],
    and when that call handed no event (primary or synthesized) to the host
    it sends exactly one event with physical id 0 and logical id 0, with a
    null callback and null user data; when some event was handed to the
    host it sends nothing more. The neutral event is never among the events
    of [KeyboardHookImpl] itself. *)
Theorem neutral_event_guard pf gks key scancode action character extended was_down
    callback (e e1 : Engine) o1 :
  KeyboardHookImpl pf gks key scancode action character extended was_down callback
    (set_sent_any_events false e) = Ok (tt, e1, o1) →
  physical empty_event = 0 ∧ logical empty_event = 0 ∧
  ((empty_event, None) ∉ sends o1) ∧
  match sends o1 with
  | [] =>
      KeyboardHook pf gks key scancode action character extended was_down callback e
        = Ok (tt, set_sent_any_events true e1, o1 ++ [PerformSend empty_event None]) ∧
      sends (o1 ++ [PerformSend empty_event None]) = [(empty_event, None)]
  | _ :: _ =>
      KeyboardHook pf gks key scancode action character extended was_down callback e
        = Ok (tt, e1, o1)
  end.
Proof.
  intros H. split; [done|]. split; [done|].
  rewrite KeyboardHook_eq, H.
  apply KeyboardHookImpl_sent in H as [Hn Hs]. split.
  { intros Hin. rewrite Forall_forall in Hn. by specialize (Hn _ Hin). }
  destruct Hs as [[Hs ->] | [Hs ->]].
  - rewrite Hs. simpl. split; [done|]. by rewrite sends_app, Hs.
  - by destruct (sends o1).
Qed.

Lemma neutral_event_guard_witness :
  physical empty_event = 0 ∧ logical empty_event = 0 ∧
  ((empty_event, None) ∉ sends [InvokeCallback 7 true]) ∧
  KeyboardHook fixture all_up 0x41 0x1e WM_KEYUP 0x41 false false 7
    (KeyboardKeyEmbedderHandler fixture all_up)
    = Ok (tt, set_sent_any_events true (KeyboardKeyEmbedderHandler fixture all_up),
          [InvokeCallback 7 true] ++ [PerformSend empty_event None]) ∧
  sends ([InvokeCallback 7 true] ++ [PerformSend empty_event None])
    = [(empty_event, None)].
Proof.
  apply (neutral_event_guard fixture all_up 0x41 0x1e WM_KEYUP 0x41 false false 7
           (KeyboardKeyEmbedderHandler fixture all_up)
           (KeyboardKeyEmbedderHandler fixture all_up) [InvokeCallback 7 true]).
  reflexivity.
Defined.

(** ** The character codec *)

Lemma land_mask (x n : Z) : 0 ≤ n → Z.land x (Z.shiftl 1 n - 1) = x mod 2 ^ n.
Proof.
  intros Hn. rewrite Z.shiftl_1_l.
  replace (2 ^ n - 1) with (Z.ones n) by (rewrite Z.ones_equiv; lia).
  by apply Z.land_ones.
Qed.

Lemma GetBit_eq (ch s e : Z) :
  0 ≤ e → e ≤ s → s - e ≤ 8 → Codec._GetBit ch s e = (ch / 2 ^ e) mod 2 ^ (s - e).
Proof.
  intros He Hs H8. unfold Codec._GetBit, Codec.to_char.
  rewrite land_mask by lia. rewrite Z.shiftr_div_pow2 by lia.
  apply Z.mod_small.
  assert (0 < 2 ^ (s - e)) by (apply Z.pow_pos_nonneg; lia).
  assert (2 ^ (s - e) ≤ 2 ^ 8) by (apply Z.pow_le_mono_r; lia).
  pose proof (Z.mod_pos_bound (ch / 2 ^ e) (2 ^ (s - e))).
  change (2 ^ 8) with 256 in *. lia.
Qed.

Lemma ConvertChar32ToUtf8_bytes_eq (ch : Z) :
  Codec.ConvertChar32ToUtf8_bytes ch =
  if ch <=? 0x7F then [ch mod 256]
  else if ch <=? 0x7FF then
    [(0xC0 + (ch / 64) mod 32) mod 256; (0x80 + ch mod 64) mod 256]
  else if ch <=? 0xFFFF then
    [(0xE0 + (ch / 4096) mod 16) mod 256; (0x80 + (ch / 64) mod 64) mod 256;
     (0x80 + ch mod 64) mod 256]
  else
    [(0xF0 + (ch / 262144) mod 8) mod 256; (0x80 + (ch / 4096) mod 64) mod 256;
     (0x80 + (ch / 64) mod 64) mod 256; (0x80 + ch mod 64) mod 256].
Proof.
  unfold Codec.ConvertChar32ToUtf8_bytes, Codec.push_back.
  rewrite !GetBit_eq by lia. unfold Codec.to_char. simpl app.
  change (2 ^ 0) with 1. change (2 ^ 6) with 64. change (2 ^ 12) with 4096.
  change (2 ^ 18) with 262144.
  change (2 ^ (6 - 0)) with 64. change (2 ^ (11 - 6)) with 32.
  change (2 ^ (12 - 6)) with 64. change (2 ^ (16 - 12)) with 16.
  change (2 ^ (18 - 12)) with 64. change (2 ^ (21 - 18)) with 8.
  rewrite !Z.div_1_r. reflexivity.
Qed.

Lemma ConvertChar32ToUtf8_bytes_standard (cp : Z) :
  0 ≤ cp ≤ 0x10FFFF → Codec.ConvertChar32ToUtf8_bytes cp = Codec.utf8_standard cp.
Proof.
  intros Hcp. rewrite ConvertChar32ToUtf8_bytes_eq. unfold Codec.utf8_standard.
  repeat case_match; try lia; repeat f_equal; Z.div_mod_to_equations; lia.
Qed.

Lemma utf8_decode_standard (cp : Z) :
  0 ≤ cp ≤ 0x10FFFF → Codec.utf8_decode (Codec.utf8_standard cp) = Some cp.
Proof.
  intros Hcp. unfold Codec.utf8_standard.
  destruct (Z.ltb_spec cp 0x80).
  { simpl. destruct (Z.ltb_spec cp 0x80); [done|lia]. }
  destruct (Z.ltb_spec cp 0x800); [|destruct (Z.ltb_spec cp 0x10000)];
    unfold Codec.utf8_decode; f_equal; Z.div_mod_to_equations; lia.
Qed.

Lemma ConvertChar32ToUtf8_bytes_length (ch : Z) :
  (length (Codec.ConvertChar32ToUtf8_bytes ch) ≤ 4)%nat.
Proof.
  rewrite ConvertChar32ToUtf8_bytes_eq. repeat case_match; simpl; lia.
Qed.

Lemma c_str_length (s : list Z) : (length (Codec.c_str s) ≤ length s)%nat.
Proof.
  induction s as [|b s IH]; simpl; [done|]. destruct (b =? 0); simpl; lia.
Qed.

Lemma c_str_nonzero (s : list Z) : Forall (λ b, b ≠ 0) s → Codec.c_str s = s.
Proof.
  induction 1 as [|b s Hb _ IH]; simpl; [done|].
  destruct (Z.eqb_spec b 0); [done|]. by rewrite IH.
Qed.

Lemma utf8_standard_nonzero (cp : Z) :
  0 < cp ≤ 0x10FFFF → Forall (λ b, b ≠ 0) (Codec.utf8_standard cp).
Proof.
  intros Hcp. unfold Codec.utf8_standard.
  repeat case_match; repeat constructor; Z.div_mod_to_equations; lia.
Qed.

Lemma ConvertUtf32ToUtf8__inv (cp : Z) bytes :
  Codec.ConvertUtf32ToUtf8_ cp = Ok bytes →
  bytes = Codec.c_str (Codec.ConvertChar32ToUtf8_bytes cp) ∧
  (cp ≠ 0 → 0 ≤ cp ≤ 0x10FFFF).
Proof.
  unfold Codec.ConvertUtf32ToUtf8_, Codec.ConvertChar32ToUtf8.
  destruct (Z.eqb_spec cp 0) as [->|Hz].
  - intros [= <-]. done.
  - destruct (Z.leb_spec 0 cp); [|done].
    destruct (Z.leb_spec cp 0x10FFFF); [|done]. intros [= <-]. split; [done|lia].
Qed.

Lemma primary_event_inv pf gks key scancode action ch extended was_down callback
    (e e' : Engine) out ev rid :
  KeyboardHookImpl pf gks key scancode action ch extended was_down callback e
    = Ok (tt, e', out) →
  (ev, Some rid) ∈ sends out →
  ∃ c evs,
    classification pf (pressingRecords_ e) key scancode action ch extended was_down
      = Ok (Some c) ∧
    result_logical_key c ≠ VK_PROCESSKEY ∧
    processed pf gks key scancode extended callback c e = Ok (tt, e', out) ∧
    out = map send_none evs ++ [PerformSend ev (Some rid)] ∧
    ev = {| type := cl_type c; physical := GetPhysicalKey pf scancode extended;
            logical := result_logical_key c; character := character_bytes c;
            synthesized := false |} ∧
    rid = to_u64 (response_id_ e + 1).
Proof.
  intros H Hin.
  apply KeyboardHookImpl_inv in H as [_ [[-> ->] | (c & Hc & Hne & H)]].
  { simpl in Hin. by apply elem_of_nil in Hin. }
  pose proof (processed_shape _ _ _ _ _ _ _ _ _ _ H) as (evs & _ & Hout & _).
  exists c, evs. rewrite Hout in Hin.
  rewrite sends_app, sends_send_none in Hin. simpl in Hin.
  apply elem_of_app in Hin as [Hin|Hin].
  - by apply list_elem_of_fmap in Hin as (ev' & [= _ ?] & _).
  - apply list_elem_of_singleton in Hin. injection Hin as -> ->. by repeat split.
Qed.

(** Claim C6. A primary Up event carries the empty character payload. A primary
    Down or Repeat event carries the C string that [ConvertUtf32ToUtf8_]
    writes for the code point supplied with the raw input (after
    [UndeadChar]): the bytes of [ConvertChar32ToUtf8] up to the terminator,
    which for a non-zero code point are exactly its standard UTF-8 encoding.
    On every code point of [0, 0x10FFFF] [ConvertChar32ToUtf8] returns the
    standard UTF-8 encoding; 0x41 gives the byte 0x41 and 0x1F600 gives
    0xF0 0x9F 0x98 0x80. A payload with its terminator takes at most
    [kCharacterCacheSize] = 8 bytes. *)
Theorem primary_event_character pf gks key scancode action ch extended was_down
    callback (e e' : Engine) out ev rid :
  KeyboardHookImpl pf gks key scancode action ch extended was_down callback e
    = Ok (tt, e', out) →
  (ev, Some rid) ∈ sends out →
  let cp := UndeadChar pf ch in
  (type ev = kFlutterKeyEventTypeUp → character ev = []) ∧
  (type ev ≠ kFlutterKeyEventTypeUp →
     character ev = Codec.c_str (Codec.ConvertChar32ToUtf8_bytes cp) ∧
     (cp ≠ 0 →
        Codec.ConvertChar32ToUtf8 cp = Ok (Codec.utf8_standard cp) ∧
        character ev = Codec.utf8_standard cp)) ∧
  Z.of_nat (length (character ev)) + 1 ≤ Codec.kCharacterCacheSize ∧
  (∀ c, 0 ≤ c ≤ 0x10FFFF →
     Codec.ConvertChar32ToUtf8 c = Ok (Codec.utf8_standard c)) ∧
  Codec.ConvertChar32ToUtf8 0x41 = Ok [0x41] ∧
  Codec.ConvertChar32ToUtf8 0x1F600 = Ok [0xF0; 0x9F; 0x98; 0x80].
Proof.
  intros H Hin cp.
  assert (Hstd : ∀ c, 0 ≤ c ≤ 0x10FFFF →
            Codec.ConvertChar32ToUtf8 c = Ok (Codec.utf8_standard c)).
  { intros c Hc. unfold Codec.ConvertChar32ToUtf8.
    destruct (Z.leb_spec 0 c); [|lia]. destruct (Z.leb_spec c 0x10FFFF); [|lia].
    simpl. by rewrite ConvertChar32ToUtf8_bytes_standard. }
  destruct (primary_event_inv _ _ _ _ _ _ _ _ _ _ _ _ _ _ H Hin)
    as (c & evs & Hc & _ & _ & _ & -> & _).
  apply classification_inv in Hc. simpl.
  assert (Hlen : ∀ bytes, Codec.ConvertUtf32ToUtf8_ cp = Ok bytes →
            Z.of_nat (length bytes) + 1 ≤ Codec.kCharacterCacheSize).
  { intros bytes Hb. apply ConvertUtf32ToUtf8__inv in Hb as [-> _].
    pose proof (c_str_length (Codec.ConvertChar32ToUtf8_bytes cp)).
    pose proof (ConvertChar32ToUtf8_bytes_length cp).
    unfold Codec.kCharacterCacheSize. lia. }
  assert (Hpay : ∀ bytes, Codec.ConvertUtf32ToUtf8_ cp = Ok bytes →
            bytes = Codec.c_str (Codec.ConvertChar32ToUtf8_bytes cp) ∧
            (cp ≠ 0 →
               Codec.ConvertChar32ToUtf8 cp = Ok (Codec.utf8_standard cp) ∧
               bytes = Codec.utf8_standard cp)).
  { intros bytes Hb. apply ConvertUtf32ToUtf8__inv in Hb as [-> Hr].
    split; [done|]. intros Hz. specialize (Hr Hz). split; [by apply Hstd|].
    rewrite ConvertChar32ToUtf8_bytes_standard by done.
    apply c_str_nonzero, utf8_standard_nonzero. lia. }
  destruct Hc as [(Ht & _ & _ & _ & _ & Hb) | [(Ht & _ & _ & _ & _ & Hb) |
                  (Ht & _ & _ & _ & _ & Hb)]]; rewrite Ht.
  - split; [done|]. split; [intros _; by apply Hpay|]. split; [by apply Hlen|]. done.
  - split; [done|]. split; [intros _; by apply Hpay|]. split; [by apply Hlen|]. done.
  - rewrite Hb. split; [done|]. split; [done|]. split; [|done].
    unfold Codec.kCharacterCacheSize. simpl. lia.
Qed.

Lemma primary_event_character_witness :
  character down_A_event = Codec.utf8_standard 0x41 ∧
  Z.of_nat (length (character down_A_event)) + 1 ≤ Codec.kCharacterCacheSize.
Proof.
  pose proof (primary_event_character fixture all_up 0x41 0x1e WM_KEYDOWN 0x41
                false false 7 engine0 engine_A_down
                [PerformSend down_A_event (Some 2)] down_A_event 2) as H.
  assert (H1 : KeyboardHookImpl fixture all_up 65 30 WM_KEYDOWN 65 false false 7 engine0
               = Ok ((), engine_A_down, [PerformSend down_A_event (Some 2)])).
  { vm_compute. reflexivity. }
  assert (H2 : (down_A_event, Some 2) ∈ sends [PerformSend down_A_event (Some 2)]).
  { simpl. apply list_elem_of_here. }
  destruct (H H1 H2) as (_ & Hpay & Hlen & _).
  split; [|exact Hlen].
  apply Hpay; [discriminate|]. vm_compute. discriminate.
Defined.

(** ** Down transitions without a record *)

Lemma processed_total pf gks key scancode extended callback c (e : Engine) :
  critical_ok_b (critical_keys_ e) = true →
  result_logical_key c ≠ 0 →
  eventual_logical_record c ≠ 0 →
  ∃ e' out, processed pf gks key scancode extended callback c e = Ok (tt, e', out).
Proof.
  intros Hok Hres Hev. unfold processed.
  set (l1 := update_found _ _ _).
  assert (Hok1 : critical_ok_b l1 = true) by by apply update_found_critical_ok.
  destruct (sync_steps_total _ l1 (pressingRecords_ e) (toggled_step_sound gks key
              (bool_decide (cl_type c = kFlutterKeyEventTypeDown))) Hok1)
    as (l2 & evT & HT).
  rewrite HT.
  pose proof (sync_steps_sound _ _ _ _ _ (toggled_step_sound _ _ _) HT) as [HT2 _].
  apply same_ids_layout in HT2 as [_ Hok2]. rewrite Hok1 in Hok2.
  destruct (sync_steps_total _ l2 (replay evT (pressingRecords_ e))
              (pressed_step_sound gks key
                 (bool_decide (cl_type c ≠ kFlutterKeyEventTypeRepeat))) Hok2)
    as (l3 & evP & HP).
  rewrite HP.
  destruct (Z.eqb_spec (eventual_logical_record c) 0); [done|]. simpl.
  by eexists _, _.
Qed.

(** Claim C9 as amended. A down transition on a physical key without an entry
    in the press-state table, whose freshly resolved logical id is neither
    the IME sentinel nor 0, is dispatched as a primary event of type Down
    with that logical id, whether or not the platform flagged the input as
    a repeat: the call returns, the last event handed to the host is that
    Down event with response tracking, every event before it is a
    synthesized press or release (never a Repeat), the callback is not
    invoked by the call, and the table then maps the physical key to the
    logical id. *)
Theorem fresh_down_is_down pf gks key scancode action ch extended was_down
    callback (e : Engine) :
  let P := GetPhysicalKey pf scancode extended in
  let L := GetLogicalKey pf key extended scancode in
  action = WM_KEYDOWN ∨ action = WM_SYSKEYDOWN →
  pressingRecords_ e !! P = None →
  L ≠ VK_PROCESSKEY →
  L ≠ 0 →
  0 ≤ UndeadChar pf ch ≤ 0x10FFFF →
  critical_ok_b (critical_keys_ e) = true →
  ∃ e' evs bytes rid,
    KeyboardHookImpl pf gks key scancode action ch extended was_down callback e
      = Ok (tt, e',
            map send_none evs ++
            [PerformSend {| type := kFlutterKeyEventTypeDown; physical := P;
                            logical := L; character := bytes;
                            synthesized := false |} (Some rid)]) ∧
    Forall is_synthesized_key_event evs ∧
    pressingRecords_ e' !! P = Some L.
Proof.
  intros P L Ha Hno Hime Hz Hcp Hok.
  apply valid_action_down in Ha as [Hva Hdown].
  rewrite KeyboardHookImpl_eq. unfold KeyboardHookImpl_summary, classification.
  fold P. fold L. rewrite Hva, Hdown, Hno.
  rewrite ConvertUtf32ToUtf8__total by done.
  set (bytes := Codec.c_str _).
  set (c := mkClassified kFlutterKeyEventTypeDown L L bytes).
  destruct (processed_total pf gks key scancode extended callback c e Hok Hz Hz)
    as (e' & out & H).
  rewrite H.
  apply processed_shape in H as (evs & Hev & -> & Hr & _).
  subst c. cbn [result_logical_key eventual_logical_record cl_type character_bytes] in *.
  destruct (Z.eqb_spec L VK_PROCESSKEY); [done|].
  exists e', evs, bytes, (to_u64 (response_id_ e + 1)).
  split; [done|]. split; [done|].
  destruct (Z.eqb_spec L 0); [done|]. rewrite Hr. apply lookup_insert_eq.
Qed.

Lemma fresh_down_is_down_witness :
  ∃ e' evs bytes rid,
    KeyboardHookImpl fixture all_up 0x41 0x1e WM_KEYDOWN 0x41 false true 7 engine0
      = Ok (tt, e',
            map send_none evs ++
            [PerformSend {| type := kFlutterKeyEventTypeDown;
                            physical := GetPhysicalKey fixture 0x1e false;
                            logical := GetLogicalKey fixture 0x41 false 0x1e;
                            character := bytes;
                            synthesized := false |} (Some rid)]) ∧
    Forall is_synthesized_key_event evs ∧
    pressingRecords_ e' !! GetPhysicalKey fixture 0x1e false
      = Some (GetLogicalKey fixture 0x41 false 0x1e).
Proof.
  apply (fresh_down_is_down fixture all_up 0x41 0x1e WM_KEYDOWN 0x41 false true 7
           engine0).
  - by left.
  - reflexivity.
  - vm_compute. discriminate.
  - vm_compute. discriminate.
  - vm_compute. split; discriminate.
  - reflexivity.
Defined.

(** Claim C9, counterexample. The claim as stated fails: a down transition with the virtual key
    [VK_PROCESSKEY] on a physical key without a record sends no event at
    all; the callback is invoked with [handled = true]. *)
Lemma fresh_down_counterexample :
  pressingRecords_ engine0 !! GetPhysicalKey fixture 0x1e false = None ∧
  KeyboardHookImpl fixture all_up VK_PROCESSKEY 0x1e WM_KEYDOWN 0x41 false false 7
    engine0 = Ok (tt, engine0, [InvokeCallback 7 true]) ∧
  sends [InvokeCallback 7 true] = [].
Proof. split; [reflexivity|]. split; [vm_compute; reflexivity|reflexivity]. Qed.

(** ** The removal of the record on an Up event *)

(** Claim C10. The claim is that on a primary Up event the record of the
    physical key is still in the press-state table after both
    synchronization passes, so that the assertion before the final removal
    holds. The code does not ensure it: left shift is pressed and then
    released while the OS still reports it pressed; the pressed-state pass
    expects the key released, removes its record and synthesizes the
    release, and the final removal finds no record. *)
Theorem up_finds_record_removed :
  run fixture
    [CallKeyboardHook (only_pressed VK_LSHIFT) VK_LSHIFT 0x2a WM_KEYDOWN 0 false false 7;
     CallKeyboardHook (only_pressed VK_LSHIFT) VK_LSHIFT 0x2a WM_KEYUP 0 false false 8]
    engine0 = Failed RecordMissing.
Proof. vm_compute. reflexivity. Qed.

(** When the OS reports the key released, the same two inputs complete. *)
Example up_with_key_released_completes :
  sends <$>
    (match run fixture
             [CallKeyboardHook (only_pressed VK_LSHIFT) VK_LSHIFT 0x2a WM_KEYDOWN 0
                false false 7;
              CallKeyboardHook all_up VK_LSHIFT 0x2a WM_KEYUP 0 false false 8]
             engine0 with
     | Ok (_, _, out) => Some out
     | Failed _ => None
     end) =
  Some
    [(mkEvent kFlutterKeyEventTypeDown 0x000700e1 0x200000102 [] false, Some 2);
     (mkEvent kFlutterKeyEventTypeUp 0x000700e1 0x200000102 [] false, Some 3)].
Proof. vm_compute. reflexivity. Qed.

(** ** The critical-key registry *)

Lemma find_critical_same_ids l l' vk ck :
  Forall2 (λ a b : Z * CriticalKey, a.1 = b.1 ∧ same_ids a.2 b.2) l l' →
  find_critical vk l = Some ck →
  ∃ ck', find_critical vk l' = Some ck' ∧ same_ids ck ck'.
Proof.
  induction 1 as [|[k ki] [k' ki'] l l' [Hk Hid] _ IH]; [done|].
  simpl in *. subst k'. destruct (k =? vk); [|exact IH].
  intros [= <-]. by exists ki'.
Qed.

Lemma processed_registry pf gks key scancode extended callback c (e e' : Engine) out :
  processed pf gks key scancode extended callback c e = Ok (tt, e', out) →
  Forall2 (λ a b : Z * CriticalKey, a.1 = b.1 ∧ same_ids a.2 b.2)
    (update_found (to_u32 key)
       (set_last_seen (GetPhysicalKey pf scancode extended) (result_logical_key c))
       (critical_keys_ e))
    (critical_keys_ e').
Proof.
  intros H.
  destruct (processed_inv _ _ _ _ _ _ _ _ _ _ H)
    as (l2 & evT & evP & HT & _ & _ & -> & _).
  by destruct (sync_steps_sound _ _ _ _ _ (toggled_step_sound _ _ _) HT).
Qed.

(** Claim C8 as amended. The physical and logical ids of every critical key
    are populated when the engine is constructed, from the scan code that
    [MapVirtualKey] gives for its virtual key; each processed raw input
    with that virtual key then overwrites them with the physical id and the
    logical id of its primary event, and nothing else in the call changes
    them. A record whose physical id is 0 is skipped by both
    synchronization loops. The toggled flag is set at construction, to bit
    0 of the OS key state for the keys whose toggled state is checked and
    to [false] for the others. *)
Theorem critical_keys_populated_at_construction pf gks0 gks key scancode action ch
    extended was_down callback (e e' : Engine) out ev rid ck :
  KeyboardHookImpl pf gks key scancode action ch extended was_down callback e
    = Ok (tt, e', out) →
  (ev, Some rid) ∈ sends out →
  find_critical (to_u32 key) (critical_keys_ e) = Some ck →
  (* at construction *)
  critical_keys_ (KeyboardKeyEmbedderHandler pf gks0) =
    [(VK_CAPITAL, createCheckedKey pf gks0 VK_CAPITAL false true true);
     (VK_NUMLOCK, createCheckedKey pf gks0 VK_NUMLOCK true true true);
     (VK_SCROLL, createCheckedKey pf gks0 VK_SCROLL false true true);
     (VK_LSHIFT, createCheckedKey pf gks0 VK_LSHIFT false true false);
     (VK_RSHIFT, createCheckedKey pf gks0 VK_RSHIFT false true false);
     (VK_LCONTROL, createCheckedKey pf gks0 VK_LCONTROL false true false);
     (VK_RCONTROL, createCheckedKey pf gks0 VK_RCONTROL true true false)] ∧
  (∀ vk extended check_pressed check_toggled,
     let k := createCheckedKey pf gks0 vk extended check_pressed check_toggled in
     physical_key k = GetPhysicalKey pf (MapVirtualKey pf vk) extended ∧
     logical_key k = GetLogicalKey pf vk extended (MapVirtualKey pf vk) ∧
     toggled_on k =
       check_toggled && negb (Z.land (gks0 vk) kStateMaskToggled =? 0)) ∧
  (* on a processed raw input with a critical virtual key *)
  (∃ ck', find_critical (to_u32 key) (critical_keys_ e') = Some ck' ∧
          physical_key ck' = physical ev ∧ logical_key ck' = logical ev) ∧
  (∀ vk k, vk ≠ to_u32 key → find_critical vk (critical_keys_ e) = Some k →
     ∃ k', find_critical vk (critical_keys_ e') = Some k' ∧ same_ids k k') ∧
  (* physical id 0 reads as unseen *)
  (∀ this d vk ki (e0 : Engine), physical_key ki = 0 →
     toggled_body gks this d vk ki e0 = Ok (ki, e0, []) ∧
     pressed_body gks this d vk ki e0 = Ok (ki, e0, [])).
Proof.
  intros H Hin Hck.
  split; [reflexivity|]. split.
  { intros vk ext cp ct. simpl. split; [done|]. split; [done|].
    destruct ct; [|done]. simpl. by rewrite negb_involutive. }
  destruct (primary_event_inv _ _ _ _ _ _ _ _ _ _ _ _ _ _ H Hin)
    as (c & evs & _ & _ & Hp & _ & -> & _).
  apply processed_registry in Hp. simpl. split; [|split].
  - destruct (find_critical_same_ids _ _ (to_u32 key)
                (set_last_seen (GetPhysicalKey pf scancode extended)
                   (result_logical_key c) ck) Hp)
      as (ck' & Hf & Hpk & Hlk & _).
    { by rewrite find_critical_update_found, Z.eqb_refl, Hck. }
    by exists ck'.
  - intros vk k Hne Hk.
    apply (find_critical_same_ids _ _ vk k Hp).
    rewrite find_critical_update_found.
    by destruct (Z.eqb_spec vk (to_u32 key)).
  - intros this d vk ki e0 Hz. unfold toggled_body, pressed_body. by rewrite Hz.
Qed.

Lemma critical_keys_populated_at_construction_witness :
  ∃ ck', find_critical VK_LSHIFT (critical_keys_ 
           {| pressingRecords_ := {[ 0x000700e1 := 0x200000102 ]};
              critical_keys_ := critical_keys_ engine0;
              response_id_ := 2;
              pending_responses_ := {[ 2 := 7 ]};
              sent_any_events := true |}) = Some ck' ∧
         physical_key ck' = 0x000700e1 ∧ logical_key ck' = 0x200000102.
Proof.
  set (ev := {| type := kFlutterKeyEventTypeDown; physical := 0x000700e1;
                logical := 0x200000102; character := []; synthesized := false |}).
  refine (proj1 (proj2 (proj2
    (critical_keys_populated_at_construction fixture all_up
       (only_pressed VK_LSHIFT) VK_LSHIFT 0x2a WM_KEYDOWN 0 false false 7 engine0
       _ [PerformSend ev (Some 2)] ev 2
       (mkCriticalKey 0x000700e1 0x200000102 true false false) _ _ _)))).
  - vm_compute. reflexivity.
  - simpl. apply list_elem_of_here.
  - reflexivity.
Defined.

(** Claim C8, counterexample. The claim as stated fails: right after construction, before any
    raw input, the caps-lock record already has a non-zero physical id. *)
Lemma critical_keys_counterexample :
  find_critical VK_CAPITAL (critical_keys_ (KeyboardKeyEmbedderHandler fixture all_up))
    = Some {| physical_key := 0x00070039; logical_key := 0x100000104;
              check_pressed := true; check_toggled := true; toggled_on := false |} ∧
  0x00070039 ≠ 0.
Proof. split; [reflexivity|discriminate]. Qed.

(** ** The response ledger *)

Lemma HandleResponse_eq handled user_data (e : Engine) :
  HandleResponse handled user_data e =
  match pending_responses_ e !! user_data with
  | Some callback =>
      Ok (tt, set_pending_responses_ (delete user_data (pending_responses_ e)) e,
          [InvokeCallback callback handled])
  | None => Failed DanglingResponse
  end.
Proof.
  unfold HandleResponse. rewrite bind_eq. unfold gets at 1. simpl.
  by destruct (pending_responses_ e !! user_data).
Qed.

Lemma KeyboardHook_ledger pf gks key scancode action ch extended was_down callback
    (e e' : Engine) out :
  KeyboardHook pf gks key scancode action ch extended was_down callback e
    = Ok (tt, e', out) →
  (response_id_ e' = response_id_ e ∧ pending_responses_ e' = pending_responses_ e ∧
   response_ids out = []) ∨
  (response_id_ e' = to_u64 (response_id_ e + 1) ∧
   pending_responses_ e' = <[response_id_ e' := callback]> (pending_responses_ e) ∧
   response_ids out = [response_id_ e']).
Proof.
  rewrite KeyboardHook_eq.
  destruct (KeyboardHookImpl _ _ _ _ _ _ _ _ _ _) as [[[[] e1] o1]|w] eqn:H; [|done].
  intros H'.
  assert (He : e' = e1 ∨ e' = set_sent_any_events true e1).
  { destruct (sent_any_events e1); injection H' as <- <-; auto. }
  assert (Hids : response_ids out = response_ids o1).
  { destruct (sent_any_events e1); injection H' as <- <-; [done|].
    rewrite response_ids_app. simpl. by rewrite app_nil_r. }
  rewrite Hids.
  assert (Hri : response_id_ e' = response_id_ e1 ∧
                pending_responses_ e' = pending_responses_ e1).
  { by destruct He as [-> | ->]. }
  destruct Hri as [-> ->].
  apply KeyboardHookImpl_inv in H as [_ [[-> ->] | (c & _ & _ & H)]]; [by left|].
  apply processed_shape in H as (evs & _ & -> & _ & _ & _ & Hi & Hp & _).
  right. simpl in Hi, Hp. rewrite Hi, Hp.
  rewrite response_ids_app, response_ids_send_none. done.
Qed.

Lemma run_app pf cs1 cs2 (e : Engine) :
  run pf (cs1 ++ cs2) e =
  match run pf cs1 e with
  | Ok (_, e1, o1) =>
      match run pf cs2 e1 with
      | Ok (_, e2, o2) => Ok (tt, e2, o1 ++ o2)
      | Failed w => Failed w
      end
  | Failed w => Failed w
  end.
Proof.
  revert e. induction cs1 as [|c cs1 IH]; intros e; simpl.
  - by destruct (run pf cs2 e) as [[[[] e2] o2]|w].
  - rewrite !bind_eq. destruct (call pf c e) as [[[[] e1] o1]|w]; [|done].
    rewrite IH. destruct (run pf cs1 e1) as [[[[] e2] o2]|w]; [|done].
    destruct (run pf cs2 e2) as [[[[] e3] o3]|w]; [|done].
    by rewrite app_assoc.
Qed.

Lemma call_ledger pf c (e e' : Engine) out :
  call pf c e = Ok (tt, e', out) →
  0 ≤ response_id_ e → response_id_ e + 1 < 2 ^ 64 →
  ledger_bounded e →
  ledger_bounded e' ∧
  ((response_id_ e' = response_id_ e ∧ response_ids out = []) ∨
   (response_id_ e' = response_id_ e + 1 ∧ response_ids out = [response_id_ e'] ∧
    pending_responses_ e !! response_id_ e' = None ∧
    ∃ g k sc a ch x w cb,
      c = CallKeyboardHook g k sc a ch x w cb ∧
      pending_responses_ e' !! response_id_ e' = Some cb)).
Proof.
  intros H H0 Hmax Hb. destruct c as [g k sc a ch x w cb | handled ud]; simpl in H.
  - apply KeyboardHook_ledger in H as [(Hi & Hp & Ho) | (Hi & Hp & Ho)].
    + split; [|by left]. intros id. rewrite Hp, Hi. apply Hb.
    + unfold to_u64 in Hi. rewrite Z.mod_small in Hi by lia.
      split.
      * intros id. rewrite Hp, lookup_insert. case_decide; [lia|].
        intros Hs. apply Hb in Hs. lia.
      * right. split; [done|]. split; [done|]. split.
        -- destruct (pending_responses_ e !! response_id_ e') eqn:Hl; [|done].
           assert (response_id_ e' ≤ response_id_ e) by (apply Hb; by eexists).
           lia.
        -- exists g, k, sc, a, ch, x, w, cb. split; [done|].
           rewrite Hp. apply lookup_insert_eq.
  - rewrite HandleResponse_eq in H.
    destruct (pending_responses_ e !! ud) as [cb|] eqn:Hl; [|done].
    injection H as <- <-. split; [|by left].
    intros id. simpl. rewrite lookup_delete. case_decide; [by intros []|]. apply Hb.
Qed.

Lemma run_ledger pf cs : ∀ (e0 e : Engine) out,
  run pf cs e0 = Ok (tt, e, out) →
  0 ≤ response_id_ e0 → response_id_ e0 + Z.of_nat (length cs) < 2 ^ 64 →
  ledger_bounded e0 →
  response_id_ e0 ≤ response_id_ e ≤ response_id_ e0 + Z.of_nat (length cs) ∧
  ledger_bounded e ∧
  StronglySorted Z.lt (response_ids out) ∧
  Forall (λ id, response_id_ e0 < id ≤ response_id_ e) (response_ids out).
Proof.
  induction cs as [|c cs IH]; intros e0 e out H H0 Hmax Hb.
  - injection H as <- <-. simpl. repeat split; try done; try lia; constructor.
  - simpl in H. rewrite bind_eq in H.
    destruct (call pf c e0) as [[[[] e1] o1]|w] eqn:Hc; [|done].
    destruct (run pf cs e1) as [[[[] e2] o2]|w] eqn:Hr; [|done].
    injection H as <- <-. simpl length in Hmax.
    destruct (call_ledger _ _ _ _ _ Hc H0 ltac:(lia) Hb) as [Hb1 Hstep].
    assert (Hi1 : response_id_ e0 ≤ response_id_ e1 ≤ response_id_ e0 + 1)
      by (destruct Hstep as [[-> _] | [-> _]]; lia).
    destruct (IH _ _ _ Hr ltac:(lia) ltac:(lia) Hb1) as (Hi2 & Hb2 & Hs2 & Hf2).
    cbn [length]. split; [lia|]. split; [done|].
    rewrite response_ids_app.
    destruct Hstep as [[Hi Ho] | (Hi & Ho & _)]; rewrite Ho; simpl.
    + split; [done|]. eapply Forall_impl; [exact Hf2|]. simpl. intros; lia.
    + split.
      * constructor; [done|]. eapply Forall_impl; [exact Hf2|]. simpl. intros; lia.
      * constructor; [lia|]. eapply Forall_impl; [exact Hf2|]. simpl. intros; lia.
Qed.

(** Claim C7. Along any sequence of calls on a freshly constructed engine
    (raw inputs and acknowledgments, fewer than 2^64 - 2 of them, so that
    the 64-bit counter does not wrap), the response ids handed out with
    primary events are strictly increasing and at least 2, hence non-zero.
    The id handed out by a call is not in the ledger before the call and is
    in it afterwards, with the caller's callback. Acknowledging a pending
    id removes its ledger entry and invokes the stored callback exactly
    once, with the handled flag; the entry is then gone. *)
Theorem response_ids_increase pf gks0 cs c (e e' : Engine) out out' :
  run pf cs (KeyboardKeyEmbedderHandler pf gks0) = Ok (tt, e, out) →
  call pf c e = Ok (tt, e', out') →
  Z.of_nat (length cs) + 2 < 2 ^ 64 →
  StronglySorted Z.lt (response_ids (out ++ out')) ∧
  Forall (λ id, 2 ≤ id) (response_ids (out ++ out')) ∧
  (∀ id, id ∈ response_ids out' →
     pending_responses_ e !! id = None ∧
     ∃ g k sc a ch x w cb,
       c = CallKeyboardHook g k sc a ch x w cb ∧
       pending_responses_ e' !! id = Some cb) ∧
  (∀ id cb handled, pending_responses_ e !! id = Some cb →
     ∃ e2, HandleResponse handled id e = Ok (tt, e2, [InvokeCallback cb handled]) ∧
           pending_responses_ e2 = delete id (pending_responses_ e) ∧
           pending_responses_ e2 !! id = None ∧
           HandleResponse handled id e2 = Failed DanglingResponse).
Proof.
  intros Hrun Hcall Hlen.
  set (e0 := KeyboardKeyEmbedderHandler pf gks0) in *.
  assert (Hb0 : ledger_bounded e0) by (intros id [cb Hcb]; done).
  assert (Hall : run pf (cs ++ [c]) e0 = Ok (tt, e', out ++ out')).
  { rewrite run_app, Hrun. simpl. rewrite bind_eq, Hcall. simpl.
    by rewrite app_nil_r. }
  apply run_ledger in Hall as (_ & _ & Hsort & Hall); [|done| |done].
  2:{ rewrite length_app. simpl. change (response_id_ e0) with 1. lia. }
  apply run_ledger in Hrun as (Hi & Hb & _); [|done| |done].
  2:{ change (response_id_ e0) with 1. lia. }
  change (response_id_ e0) with 1 in *.
  split; [done|]. split.
  { eapply Forall_impl; [exact Hall|]. simpl. intros; lia. }
  split.
  - intros id Hid.
    apply call_ledger in Hcall as [_ [[_ Ho] | (_ & Ho & Hnone & Hsome)]];
      [| |lia|lia|done].
    + rewrite Ho in Hid. by apply elem_of_nil in Hid.
    + rewrite Ho in Hid. apply list_elem_of_singleton in Hid as ->. done.
  - intros id cb handled Hp. eexists. rewrite HandleResponse_eq, Hp.
    split; [reflexivity|]. split; [done|]. simpl.
    rewrite HandleResponse_eq. simpl. by rewrite lookup_delete_eq.
Qed.

Lemma response_ids_increase_witness :
  StronglySorted Z.lt [2; 3] ∧ Forall (λ id, 2 ≤ id) [2; 3].
Proof.
  set (up_A_event :=
         {| type := kFlutterKeyEventTypeUp; physical := 0x00070004; logical := 0x61;
            character := []; synthesized := false |}).
  set (e' := {| pressingRecords_ := ∅;
                critical_keys_ := critical_keys_ engine0;
                response_id_ := 3;
                pending_responses_ := {[ 2 := 7; 3 := 8 ]};
                sent_any_events := true |}).
  pose proof (response_ids_increase fixture all_up
                [CallKeyboardHook all_up 0x41 0x1e WM_KEYDOWN 0x41 false false 7]
                (CallKeyboardHook all_up 0x41 0x1e WM_KEYUP 0 false false 8)
                engine_A_down e'
                [PerformSend down_A_event (Some 2)]
                [PerformSend up_A_event (Some 3)]) as H.
  destruct H as (Hs & Hf & _).
  - vm_compute. reflexivity.
  - vm_compute. reflexivity.
  - simpl. lia.
  - split; [exact Hs|exact Hf].
Defined.

(** ** The press-state table *)

Lemma key_events_app o1 o2 : key_events (o1 ++ o2) = key_events o1 ++ key_events o2.
Proof.
  induction o1 as [|[ev ud|cb h] o1 IH]; simpl; [done| |done].
  destruct (is_neutral (ev, ud)); simpl; by rewrite IH.
Qed.

Lemma keys_down_app o1 o2 r : keys_down (o1 ++ o2) r = keys_down o2 (keys_down o1 r).
Proof. unfold keys_down. by rewrite key_events_app, replay_app. Qed.

Lemma key_events_synthesized evs :
  Forall is_synthesized_key_event evs → key_events (map send_none evs) = evs.
Proof.
  induction 1 as [|ev evs (Hs & _) _ IH]; [done|].
  simpl. unfold is_neutral. simpl. rewrite Hs. simpl. by rewrite IH.
Qed.

Lemma processed_table pf gks key scancode extended callback c (e e' : Engine) out :
  processed pf gks key scancode extended callback c e = Ok (tt, e', out) →
  (eventual_logical_record c = 0 → cl_type c = kFlutterKeyEventTypeUp) →
  (eventual_logical_record c ≠ 0 →
     cl_type c ≠ kFlutterKeyEventTypeUp ∧
     eventual_logical_record c = result_logical_key c) →
  records_nonzero (pressingRecords_ e) →
  records_nonzero (pressingRecords_ e') ∧
  pressingRecords_ e' = keys_down out (pressingRecords_ e).
Proof.
  intros H Hz Hnz Hr.
  apply processed_shape in H as (evs & Hev & -> & Ht & _).
  rewrite keys_down_app. unfold keys_down at 2.
  rewrite key_events_synthesized by done.
  pose proof (replay_synthesized_nonzero _ _ Hr Hev) as Hr3.
  set (r3 := replay evs (pressingRecords_ e)) in *.
  unfold keys_down. simpl. unfold replay_event. simpl.
  cbv zeta in Ht.
  destruct (Z.eqb_spec (eventual_logical_record c) 0) as [Hev0|Hev0].
  - destruct Ht as [_ ->]. rewrite (Hz Hev0). split; [|done].
    intros p l. rewrite lookup_delete. case_decide; [done|]. apply Hr3.
  - rewrite Ht. destruct (Hnz Hev0) as [Hty Heq]. rewrite Heq. split.
    + intros p l. rewrite lookup_insert. case_decide; [|apply Hr3].
      intros [= <-]. congruence.
    + by destruct (cl_type c).
Qed.

Lemma KeyboardHookImpl_table pf gks key scancode action ch extended was_down callback
    (e e' : Engine) out :
  KeyboardHookImpl pf gks key scancode action ch extended was_down callback e
    = Ok (tt, e', out) →
  GetLogicalKey pf key extended scancode ≠ 0 →
  records_nonzero (pressingRecords_ e) →
  records_nonzero (pressingRecords_ e') ∧
  pressingRecords_ e' = keys_down out (pressingRecords_ e).
Proof.
  intros H HL Hr.
  apply KeyboardHookImpl_inv in H as [_ [[-> ->] | (c & Hc & _ & H)]]; [done|].
  apply classification_inv in Hc.
  eapply processed_table; [exact H| | |exact Hr].
  - intros Hz.
    destruct Hc as [(_ & _ & _ & _ & He & _) | [(_ & Hl & _ & _ & He & _) |
                    (Ht & _)]]; [congruence| |done].
    apply Hr in Hl. congruence.
  - intros Hnz.
    destruct Hc as [(Ht & _ & _ & Hres & He & _) | [(Ht & _ & _ & _ & He & _) |
                    (_ & _ & _ & _ & He & _)]]; [| |done].
    + split; congruence.
    + split; congruence.
Qed.

Lemma call_table pf c (e e' : Engine) out :
  call pf c e = Ok (tt, e', out) →
  resolves_nonzero pf c →
  records_nonzero (pressingRecords_ e) →
  records_nonzero (pressingRecords_ e') ∧
  pressingRecords_ e' = keys_down out (pressingRecords_ e).
Proof.
  destruct c as [g k sc a ch x w cb | handled ud]; simpl; intros H HL Hr.
  - rewrite KeyboardHook_eq in H.
    destruct (KeyboardHookImpl _ _ _ _ _ _ _ _ _ _) as [[[[] e1] o1]|w'] eqn:Hi; [|done].
    apply KeyboardHookImpl_table in Hi as [Hr1 Ht]; [|done|done].
    simpl in Ht.
    destruct (sent_any_events e1); injection H as <- <-; [done|].
    rewrite keys_down_app. simpl. by rewrite <- Ht.
  - rewrite HandleResponse_eq in H.
    destruct (pending_responses_ e !! ud); [|done]. by injection H as <- <-.
Qed.

Lemma run_table pf cs : ∀ (e0 e : Engine) out,
  run pf cs e0 = Ok (tt, e, out) →
  Forall (resolves_nonzero pf) cs →
  records_nonzero (pressingRecords_ e0) →
  records_nonzero (pressingRecords_ e) ∧
  pressingRecords_ e = keys_down out (pressingRecords_ e0).
Proof.
  induction cs as [|c cs IH]; intros e0 e out H Hcs Hr.
  - by injection H as <- <-.
  - simpl in H. rewrite bind_eq in H.
    destruct (call pf c e0) as [[[[] e1] o1]|w] eqn:Hc; [|done].
    destruct (run pf cs e1) as [[[[] e2] o2]|w] eqn:Hrun; [|done].
    injection H as <- <-. inversion Hcs; subst.
    apply call_table in Hc as [Hr1 Ht1]; [|done|done].
    apply IH in Hrun as [Hr2 Ht2]; [|done|done].
    split; [done|]. by rewrite keys_down_app, <- Ht1.
Qed.

(** *** Engines reached from construction *)

Lemma constructor_layout pf gks0 :
  critical_layout (critical_keys_ (KeyboardKeyEmbedderHandler pf gks0)) = fixed_layout.
Proof. reflexivity. Qed.

Lemma call_registry pf c (e e' : Engine) out :
  call pf c e = Ok (tt, e', out) →
  critical_layout (critical_keys_ e') = critical_layout (critical_keys_ e) ∧
  (critical_ok_b (critical_keys_ e) = true → critical_ok_b (critical_keys_ e') = true).
Proof.
  destruct c as [g k sc a ch x w cb | handled ud]; simpl; intros H.
  - rewrite KeyboardHook_eq in H.
    destruct (KeyboardHookImpl _ _ _ _ _ _ _ _ _ _) as [[[[] e1] o1]|w'] eqn:Hi; [|done].
    assert (Hc : critical_keys_ e' = critical_keys_ e1)
      by (destruct (sent_any_events e1); by injection H as <- <-).
    rewrite Hc.
    apply KeyboardHookImpl_inv in Hi as [_ [[-> ->] | (c & _ & _ & Hp)]]; [done|].
    by apply processed_shape in Hp as (evs & _ & _ & _ & Hlay & Hok & _).
  - rewrite HandleResponse_eq in H.
    destruct (pending_responses_ e !! ud); [|done]. by injection H as <- <-.
Qed.

Lemma run_registry pf cs : ∀ (e0 e : Engine) out,
  run pf cs e0 = Ok (tt, e, out) →
  critical_layout (critical_keys_ e) = critical_layout (critical_keys_ e0) ∧
  (critical_ok_b (critical_keys_ e0) = true → critical_ok_b (critical_keys_ e) = true).
Proof.
  induction cs as [|c cs IH]; intros e0 e out H.
  - by injection H as <- <-.
  - simpl in H. rewrite bind_eq in H.
    destruct (call pf c e0) as [[[[] e1] o1]|w] eqn:Hc; [|done].
    destruct (run pf cs e1) as [[[[] e2] o2]|w] eqn:Hrun; [|done].
    injection H as <- <-.
    apply call_registry in Hc as [Hl1 Hk1]. apply IH in Hrun as [Hl2 Hk2].
    split; [congruence|auto].
Qed.

(** Claim C1. On an engine reached from construction by any sequence of calls
    whose raw inputs resolve to non-zero logical ids, the press-state table
    is exactly the set of keys that the dispatched events leave down (a
    Down or Repeat event puts its physical key down with its logical id, an
    Up event releases it): a physical key has an entry if and only if the
    event stream leaves it down. For the next raw input: a primary Down
    event finds no entry and creates the entry with the freshly resolved
    logical id; a primary Repeat event carries the recorded logical id and
    leaves that entry's value as it is, whatever the resolver would give
    now; a primary Up event carries the recorded logical id and removes the
    entry. The table is a map: a physical key has at most one entry. *)
Theorem press_state_table pf gks0 cs (e : Engine) out
    gks key scancode action ch extended was_down callback (e' : Engine) out' :
  run pf cs (KeyboardKeyEmbedderHandler pf gks0) = Ok (tt, e, out) →
  Forall (resolves_nonzero pf) cs →
  KeyboardHook pf gks key scancode action ch extended was_down callback e
    = Ok (tt, e', out') →
  GetLogicalKey pf key extended scancode ≠ 0 →
  let P := GetPhysicalKey pf scancode extended in
  pressingRecords_ e = keys_down out ∅ ∧
  pressingRecords_ e' = keys_down (out ++ out') ∅ ∧
  (∀ p, is_Some (pressingRecords_ e' !! p) ↔ is_Some (keys_down (out ++ out') ∅ !! p)) ∧
  (∀ ev rid, (ev, Some rid) ∈ sends out' →
     physical ev = P ∧
     match type ev with
     | kFlutterKeyEventTypeDown =>
         pressingRecords_ e !! P = None ∧
         logical ev = GetLogicalKey pf key extended scancode ∧
         pressingRecords_ e' !! P = Some (logical ev)
     | kFlutterKeyEventTypeRepeat =>
         pressingRecords_ e !! P = Some (logical ev) ∧
         pressingRecords_ e' !! P = Some (logical ev)
     | kFlutterKeyEventTypeUp =>
         pressingRecords_ e !! P = Some (logical ev) ∧
         pressingRecords_ e' !! P = None
     end) ∧
  (∀ p l1 l2, pressingRecords_ e' !! p = Some l1 →
              pressingRecords_ e' !! p = Some l2 → l1 = l2).
Proof.
  intros Hrun Hcs Hhook HL P.
  apply run_table in Hrun as [Hr Ht]; [|done|done].
  change (pressingRecords_ (KeyboardKeyEmbedderHandler pf gks0)) with (∅ : gmap Z Z) in Ht.
  assert (Ht' : pressingRecords_ e' = keys_down (out ++ out') ∅).
  { pose proof (call_table pf
        (CallKeyboardHook gks key scancode action ch extended was_down callback)
        e e' out' Hhook HL Hr) as [_ Ht'].
    by rewrite keys_down_app, <- Ht. }
  split; [done|]. split; [done|]. split; [by rewrite Ht'|].
  split; [|intros p l1 l2 H1 H2; congruence].
  intros ev rid Hin.
  rewrite KeyboardHook_eq in Hhook.
  destruct (KeyboardHookImpl _ _ _ _ _ _ _ _ _ _) as [[[[] e1] o1]|w] eqn:Hi; [|done].
  assert (Hin1 : (ev, Some rid) ∈ sends o1).
  { destruct (sent_any_events e1); injection Hhook as <- <-; [done|].
    rewrite sends_app in Hin. apply elem_of_app in Hin as [Hin|Hin]; [done|].
    simpl in Hin. by apply list_elem_of_singleton in Hin. }
  assert (Hrec : pressingRecords_ e' = pressingRecords_ e1).
  { by destruct (sent_any_events e1); injection Hhook as <- <-. }
  rewrite Hrec.
  destruct (primary_event_inv _ _ _ _ _ _ _ _ _ _ _ _ _ _ Hi Hin1)
    as (c & evs & Hc & _ & Hp & _ & -> & _).
  apply classification_inv in Hc. simpl in Hc. fold P in Hc.
  apply processed_shape in Hp as (evs' & _ & _ & Hrec1 & _).
  cbv zeta in Hrec1. simpl in Hrec1. fold P in Hrec1. simpl.
  split; [done|].
  destruct Hc as [(Hty & Hl & _ & Hres & He & _) | [(Hty & Hl & _ & _ & He & _) |
                  (Hty & Hl & _ & _ & He & _)]]; rewrite Hty.
  - split; [done|]. split; [done|]. rewrite He in Hrec1.
    destruct (Z.eqb_spec (GetLogicalKey pf key extended scancode) 0); [done|].
    rewrite Hrec1, Hres. apply lookup_insert_eq.
  - split; [done|]. rewrite He in Hrec1.
    destruct (Z.eqb_spec (result_logical_key c) 0) as [Hz|Hnz].
    { apply Hr in Hl. done. }
    rewrite Hrec1. apply lookup_insert_eq.
  - split; [done|]. rewrite He in Hrec1. simpl in Hrec1.
    destruct Hrec1 as [_ ->]. apply lookup_delete_eq.
Qed.

Lemma press_state_table_witness :
  pressingRecords_ engine_A_down !! 0x00070004 = Some 0x61 ∧
  GetLogicalKey fixture 0x42 false 0x1e = 0x62.
Proof.
  set (repeat_event :=
         {| type := kFlutterKeyEventTypeRepeat; physical := 0x00070004;
            logical := 0x61; character := [0x42]; synthesized := false |}).
  set (e' := {| pressingRecords_ := {[ 0x00070004 := 0x61 ]};
                critical_keys_ := critical_keys_ engine0;
                response_id_ := 3;
                pending_responses_ := {[ 2 := 7; 3 := 8 ]};
                sent_any_events := true |}).
  pose proof (press_state_table fixture all_up
                [CallKeyboardHook all_up 0x41 0x1e WM_KEYDOWN 0x41 false false 7]
                engine_A_down [PerformSend down_A_event (Some 2)]
                all_up 0x42 0x1e WM_KEYDOWN 0x42 false true 8 e'
                [PerformSend repeat_event (Some 3)]) as H.
  destruct H as (_ & _ & _ & Hev & _).
  - vm_compute. reflexivity.
  - constructor; [|constructor]. vm_compute. discriminate.
  - vm_compute. reflexivity.
  - vm_compute. discriminate.
  - destruct (Hev repeat_event 3) as (_ & Hbefore & _).
    + simpl. apply list_elem_of_here.
    + split; [exact Hbefore|reflexivity].
Defined.

(** ** Toggle synchronization of caps lock *)

Lemma fixed_layout_inv cr :
  critical_layout cr = fixed_layout →
  ∃ caps rest,
    cr = (VK_CAPITAL, caps) :: rest ∧
    check_pressed caps = true ∧ check_toggled caps = true ∧
    Forall (λ kv : Z * CriticalKey, kv.1 ≠ VK_CAPITAL) rest.
Proof.
  unfold critical_layout, fixed_layout. intros H.
  destruct cr as [|[k1 c1] [|[k2 c2] [|[k3 c3] [|[k4 c4] [|[k5 c5] [|[k6 c6]
    [|[k7 c7] [|]]]]]]]]; simpl in H; try discriminate.
  simplify_eq.
  eexists _, _. split; [reflexivity|]. split; [done|]. split; [done|].
  repeat constructor; simpl; discriminate.
Qed.

Lemma events_of_key_app p evs1 evs2 :
  events_of_key p (evs1 ++ evs2) = events_of_key p evs1 ++ events_of_key p evs2.
Proof. apply List.filter_app. Qed.

Lemma events_of_key_untouched p evs :
  Forall (λ ev, physical ev ≠ p) evs → events_of_key p evs = [].
Proof.
  induction 1 as [|ev evs Hne _ IH]; [done|]. simpl.
  destruct (Z.eqb_spec (physical ev) p); [done|]. exact IH.
Qed.

Lemma toggle_sync_caps (gks : Z → Z) (d : bool) (caps1 : CriticalKey)
    (rest : list (Z * CriticalKey)) (r : gmap Z Z) :
  let P := physical_key caps1 in
  let L := logical_key caps1 in
  let truth := negb (Z.land (gks VK_CAPITAL) kStateMaskToggled =? 0) in
  let anticipated := if d then negb (toggled_on caps1) else toggled_on caps1 in
  let evC :=
    match r !! P with
    | Some _ => [SynthesizeSimpleEvent kFlutterKeyEventTypeUp P L []]
    | None => []
    end ++ [SynthesizeSimpleEvent kFlutterKeyEventTypeDown P L []] in
  P ≠ 0 → L ≠ 0 → check_toggled caps1 = true →
  critical_ok_b rest = true →
  Forall (λ kv : Z * CriticalKey, physical_key kv.2 ≠ P) rest →
  anticipated ≠ truth →
  ∃ rest' evR,
    sync_steps (toggled_step gks VK_CAPITAL d) ((VK_CAPITAL, caps1) :: rest) r
      = Ok ((VK_CAPITAL, set_toggled_on truth caps1) :: rest', evC ++ evR) ∧
    Forall (λ ev, physical ev ≠ P) evR ∧
    critical_ok_b rest' = true ∧
    replay (evC ++ evR) r !! P = Some L.
Proof.
  intros P L truth anticipated evC HP HL Hct Hok Hrest Hne.
  destruct (sync_steps_total _ rest (replay evC r) (toggled_step_sound gks VK_CAPITAL d)
              Hok) as (rest' & evR & HR).
  exists rest', evR.
  pose proof (sync_steps_untouched _ _ _ _ _ P (toggled_step_sound _ _ _) HR Hrest)
    as Hun.
  pose proof (sync_steps_sound _ _ _ _ _ (toggled_step_sound _ _ _) HR) as [Hids _].
  apply same_ids_layout in Hids as [_ Hok'].
  split; [|split; [done|split; [congruence|]]].
  - cbn [sync_steps]. unfold toggled_step at 1. fold P. fold L.
    destruct (Z.eqb_spec P 0); [done|]. destruct (Z.eqb_spec L 0); [done|].
    rewrite Hct. change (to_u32 VK_CAPITAL) with VK_CAPITAL.
    rewrite Z.eqb_refl. cbn [andb]. fold truth. fold anticipated.
    assert (Hmis : negb (eqb anticipated truth) = true).
    { destruct anticipated, truth; done. }
    rewrite Hmis. fold evC. by rewrite HR.
  - rewrite replay_app, replay_untouched by done.
    unfold evC. destruct (r !! P); simpl; unfold replay_event; simpl;
      apply lookup_insert_eq.
Qed.

(** Claim C2. A caps-lock keydown that is processed (a fresh Down, or a Repeat
    of a recorded key), on an engine with the registry of the constructor:
    when bit 0 of [GetKeyState(VK_CAPITAL)] differs from the tracked
    toggled flag after the anticipatory flip of the loop (the flip is made
    for a fresh Down, not for a Repeat), the toggle-synchronization pass
    sends for the caps-lock physical key exactly one synthesized Up event,
    and only if that key is recorded pressed, followed by exactly one
    synthesized Down event, and leaves the key recorded as pressed. These
    events precede the primary event, which is the last event of the call;
    afterwards caps lock is still recorded as pressed and its tracked
    toggled flag equals the OS toggle state. *)
Theorem caps_lock_toggle_sync pf gks scancode action ch extended was_down callback
    (e : Engine) caps :
  let P := GetPhysicalKey pf scancode extended in
  let recorded := pressingRecords_ e !! P in
  let L := match recorded with
           | Some last => last
           | None => GetLogicalKey pf VK_CAPITAL extended scancode
           end in
  let fresh := match recorded with Some _ => false | None => true end in
  let truth := negb (Z.land (gks VK_CAPITAL) kStateMaskToggled =? 0) in
  let anticipated := if fresh then negb (toggled_on caps) else toggled_on caps in
  let e1 := set_critical_keys_
              (update_found (to_u32 VK_CAPITAL) (set_last_seen P L) (critical_keys_ e))
              e in
  action = WM_KEYDOWN ∨ action = WM_SYSKEYDOWN →
  recorded = None ∨ was_down = true →
  0 ≤ UndeadChar pf ch ≤ 0x10FFFF →
  P ≠ 0 → L ≠ 0 → L ≠ VK_PROCESSKEY →
  critical_layout (critical_keys_ e) = fixed_layout →
  critical_ok_b (critical_keys_ e) = true →
  find_critical VK_CAPITAL (critical_keys_ e) = Some caps →
  Forall (λ kv : Z * CriticalKey, kv.1 ≠ VK_CAPITAL → physical_key kv.2 ≠ P)
    (critical_keys_ e) →
  anticipated ≠ truth →
  ∃ (e2 e' : Engine) evT evP bytes rid caps',
    SynchronizeCritialToggledStates gks VK_CAPITAL fresh e1
      = Ok (tt, e2, map send_none evT) ∧
    events_of_key P evT =
      match recorded with
      | Some _ => [SynthesizeSimpleEvent kFlutterKeyEventTypeUp P L []]
      | None => []
      end ++ [SynthesizeSimpleEvent kFlutterKeyEventTypeDown P L []] ∧
    pressingRecords_ e2 !! P = Some L ∧
    KeyboardHookImpl pf gks VK_CAPITAL scancode action ch extended was_down callback e
      = Ok (tt, e',
            map send_none evT ++ map send_none evP ++
            [PerformSend
               {| type := if fresh then kFlutterKeyEventTypeDown
                          else kFlutterKeyEventTypeRepeat;
                  physical := P; logical := L; character := bytes;
                  synthesized := false |} (Some rid)]) ∧
    Forall is_synthesized_key_event evP ∧
    pressingRecords_ e' !! P = Some L ∧
    find_critical VK_CAPITAL (critical_keys_ e') = Some caps' ∧
    toggled_on caps' = truth.
Proof.
  intros P recorded L fresh truth anticipated e1 Ha Hproc Hcp HP HL Hime Hlay Hok
    Hcaps Hothers Hne.
  apply valid_action_down in Ha as [Hva Hdown].
  destruct (fixed_layout_inv _ Hlay) as (caps0 & rest & Hcr & _ & Hct & Hkeys).
  rewrite Hcr in Hcaps, Hok, Hothers. simpl in Hcaps. injection Hcaps as ->.
  simpl in Hok. apply andb_true_iff in Hok as [_ Hokrest].
  assert (Hrest : Forall (λ kv : Z * CriticalKey, physical_key kv.2 ≠ P) rest).
  { inversion Hothers as [|? ? _ Hr]; subst. rewrite Forall_forall in *.
    intros kv Hin. apply Hr; [done|]. by apply Hkeys. }
  set (caps1 := set_last_seen P L caps).
  assert (Hl1 : update_found (to_u32 VK_CAPITAL) (set_last_seen P L) (critical_keys_ e)
                = (VK_CAPITAL, caps1) :: rest).
  { rewrite Hcr. reflexivity. }
  destruct (toggle_sync_caps gks fresh caps1 rest (pressingRecords_ e))
    as (rest' & evR & HT & HunR & Hok' & HPL); try done.
  cbn [physical_key logical_key caps1 set_last_seen] in HT, HPL. fold recorded in HT, HPL.
  set (evC := match recorded with
              | Some _ => [SynthesizeSimpleEvent kFlutterKeyEventTypeUp P L []]
              | None => []
              end ++ [SynthesizeSimpleEvent kFlutterKeyEventTypeDown P L []]) in *.
  set (caps2 := set_toggled_on truth caps1) in *.
  set (l2 := (VK_CAPITAL, caps2) :: rest') in *.
  assert (Hok2 : critical_ok_b l2 = true).
  { simpl. rewrite Hok', andb_true_r.
    destruct (Z.eqb_spec P 0); [done|]. by destruct (Z.eqb_spec L 0). }
  destruct (sync_steps_total _ l2 (replay (evC ++ evR) (pressingRecords_ e))
              (pressed_step_sound gks VK_CAPITAL
                 (bool_decide ((if fresh then kFlutterKeyEventTypeDown
                                else kFlutterKeyEventTypeRepeat)
                               ≠ kFlutterKeyEventTypeRepeat))) Hok2)
    as (l3 & evP & HPp).
  pose proof (sync_steps_pressed_same _ _ _ _ _ _ _ HPp) as ->.
  pose proof (sync_steps_events _ _ _ _ _ (pressed_step_sound _ _ _) HPp) as HevP.
  set (bytes := Codec.c_str (Codec.ConvertChar32ToUtf8_bytes (UndeadChar pf ch))).
  set (rid := to_u64 (response_id_ e + 1)).
  eexists (set_critical_keys_ l2 (apply_events (evC ++ evR) e1)),
    {| pressingRecords_ :=
         <[P := L]> (replay evP (replay (evC ++ evR) (pressingRecords_ e)));
       critical_keys_ := l2; response_id_ := rid;
       pending_responses_ := <[rid := callback]> (pending_responses_ e);
       sent_any_events := true |},
    (evC ++ evR), evP, bytes, rid, caps2.
  assert (Hd : bool_decide ((if fresh then kFlutterKeyEventTypeDown
                             else kFlutterKeyEventTypeRepeat) = kFlutterKeyEventTypeDown)
               = fresh) by by destruct fresh.
  split.
  { rewrite SynchronizeCritialToggledStates_steps.
    cbn [critical_keys_ pressingRecords_ e1 set_critical_keys_]. by rewrite Hl1, HT. }
  split.
  { rewrite events_of_key_app, (events_of_key_untouched _ evR) by done.
    rewrite app_nil_r. unfold evC, events_of_key.
    destruct recorded; simpl; by rewrite Z.eqb_refl. }
  split; [exact HPL|].
  split.
  { rewrite KeyboardHookImpl_eq. unfold KeyboardHookImpl_summary, classification.
    fold P. fold recorded. rewrite Hva, Hdown.
    rewrite ConvertUtf32ToUtf8__total by done. fold bytes.
    assert (Hc : match recorded with
                 | Some last =>
                     if was_down
                     then Ok (Some (mkClassified kFlutterKeyEventTypeRepeat last last bytes))
                     else Ok None
                 | None =>
                     Ok (Some (mkClassified kFlutterKeyEventTypeDown
                                 (GetLogicalKey pf VK_CAPITAL extended scancode)
                                 (GetLogicalKey pf VK_CAPITAL extended scancode) bytes))
                 end
                 = Ok (Some (mkClassified
                               (if fresh then kFlutterKeyEventTypeDown
                                else kFlutterKeyEventTypeRepeat) L L bytes))).
    { unfold L, fresh. destruct recorded as [last|]; [|done].
      destruct Hproc as [Hn | ->]; done. }
    rewrite Hc. cbn [result_logical_key].
    destruct (Z.eqb_spec L VK_PROCESSKEY); [done|].
    unfold processed.
    cbn [cl_type result_logical_key eventual_logical_record character_bytes].
    fold P. rewrite Hl1, Hd, HT. fold truth. fold caps2. fold l2. rewrite HPp.
    destruct (Z.eqb_spec L 0); [done|]. reflexivity. }
  split; [exact HevP|].
  split; [apply lookup_insert_eq|].
  split; [reflexivity|reflexivity].
Qed.

Lemma caps_lock_toggle_sync_witness :
  ∃ (e2 e' : Engine) evT evP bytes rid caps',
    SynchronizeCritialToggledStates (only_pressed VK_CAPITAL) VK_CAPITAL true
      (set_critical_keys_
         (update_found (to_u32 VK_CAPITAL) (set_last_seen 0x00070039 0x100000104)
            (critical_keys_ engine0)) engine0)
      = Ok (tt, e2, map send_none evT) ∧
    events_of_key 0x00070039 evT =
      [] ++ [SynthesizeSimpleEvent kFlutterKeyEventTypeDown 0x00070039 0x100000104 []] ∧
    pressingRecords_ e2 !! 0x00070039 = Some 0x100000104 ∧
    KeyboardHookImpl fixture (only_pressed VK_CAPITAL) VK_CAPITAL 0x3a WM_KEYDOWN 0
      false false 7 engine0
      = Ok (tt, e',
            map send_none evT ++ map send_none evP ++
            [PerformSend
               {| type := kFlutterKeyEventTypeDown;
                  physical := 0x00070039; logical := 0x100000104; character := bytes;
                  synthesized := false |} (Some rid)]) ∧
    Forall is_synthesized_key_event evP ∧
    pressingRecords_ e' !! 0x00070039 = Some 0x100000104 ∧
    find_critical VK_CAPITAL (critical_keys_ e') = Some caps' ∧
    toggled_on caps' = false.
Proof.
  apply (caps_lock_toggle_sync fixture (only_pressed VK_CAPITAL) 0x3a WM_KEYDOWN 0
           false false 7 engine0
           {| physical_key := 0x00070039; logical_key := 0x100000104;
              check_pressed := true; check_toggled := true; toggled_on := false |}).
  - by left.
  - left. reflexivity.
  - vm_compute. split; discriminate.
  - vm_compute. discriminate.
  - vm_compute. discriminate.
  - vm_compute. discriminate.
  - reflexivity.
  - reflexivity.
  - reflexivity.
  - repeat constructor; vm_compute; intros; congruence.
  - vm_compute. discriminate.
Defined.

(** The same key, held: the repeat finds the OS toggle state changed, and
    the toggle pass releases and presses caps lock before the Repeat. *)
Example caps_lock_repeat_resynchronizes :
  sends <$>
    (match run fixture
             [CallKeyboardHook (pressed_and_toggled VK_CAPITAL) VK_CAPITAL 0x3a
                WM_KEYDOWN 0 false false 7;
              CallKeyboardHook (only_pressed VK_CAPITAL) VK_CAPITAL 0x3a
                WM_KEYDOWN 0 false true 8] engine0 with
     | Ok (_, _, out) => Some out
     | Failed _ => None
     end) =
  Some
    [(mkEvent kFlutterKeyEventTypeDown 0x00070039 0x100000104 [] false, Some 2);
     (mkEvent kFlutterKeyEventTypeUp 0x00070039 0x100000104 [] true, None);
     (mkEvent kFlutterKeyEventTypeDown 0x00070039 0x100000104 [] true, None);
     (mkEvent kFlutterKeyEventTypeRepeat 0x00070039 0x100000104 [] false, Some 3)].
Proof. vm_compute. reflexivity. Qed.

(** * Further properties of the code *)

(** ** The character codec *)

(** X1. Distinct code points of [0, 0x10FFFF] are converted by
    [ConvertChar32ToUtf8] to distinct byte strings. *)
Theorem ConvertChar32ToUtf8_injective (a b : Z) :
  0 ≤ a ≤ 0x10FFFF → 0 ≤ b ≤ 0x10FFFF → a ≠ b →
  Codec.ConvertChar32ToUtf8 a ≠ Codec.ConvertChar32ToUtf8 b.
Proof.
  intros Ha Hb Hne Heq. unfold Codec.ConvertChar32ToUtf8 in Heq.
  destruct (Z.leb_spec 0 a); [|lia]. destruct (Z.leb_spec a 0x10FFFF); [|lia].
  destruct (Z.leb_spec 0 b); [|lia]. destruct (Z.leb_spec b 0x10FFFF); [|lia].
  simpl in Heq. injection Heq as Heq.
  rewrite !ConvertChar32ToUtf8_bytes_standard in Heq by done.
  pose proof (utf8_decode_standard a Ha) as Hda.
  rewrite Heq, utf8_decode_standard in Hda by done. congruence.
Qed.

Lemma ConvertChar32ToUtf8_injective_witness :
  Codec.ConvertChar32ToUtf8 0x41 ≠ Codec.ConvertChar32ToUtf8 0xC1.
Proof.
  apply (ConvertChar32ToUtf8_injective 0x41 0xC1); [lia|lia|discriminate].
Defined.



(** X3. [ConvertUtf32ToUtf8_] writes a string exactly when the character
    is in [0, 0x10FFFF] (otherwise the assertion of [ConvertChar32ToUtf8]
    fails); the string has no NUL byte, is empty exactly for the character
    0, and is the whole output of [ConvertChar32ToUtf8] for every other
    character. *)
Theorem ConvertUtf32ToUtf8__written (ch : Z) :
  ((∃ bytes, Codec.ConvertUtf32ToUtf8_ ch = Ok bytes) ↔ 0 ≤ ch ≤ 0x10FFFF) ∧
  (∀ bytes, Codec.ConvertUtf32ToUtf8_ ch = Ok bytes →
     Forall (λ b, b ≠ 0) bytes ∧
     (bytes = [] ↔ ch = 0) ∧
     (ch ≠ 0 → Codec.ConvertChar32ToUtf8 ch = Ok bytes)) ∧
  (¬ (0 ≤ ch ≤ 0x10FFFF) → Codec.ConvertUtf32ToUtf8_ ch = Failed CodePointOutOfRange).
Proof.
  split; [|split].
  - split.
    + intros [bytes Hb]. apply ConvertUtf32ToUtf8__inv in Hb as [_ Hr].
      destruct (decide (ch = 0)) as [->|Hz]; [lia|auto].
    + intros Hr. eexists. by apply ConvertUtf32ToUtf8__total.
  - intros bytes Hb. pose proof (ConvertUtf32ToUtf8__inv _ _ Hb) as [-> Hr].
    destruct (decide (ch = 0)) as [->|Hz].
    { simpl. split; [constructor|]. split; [done|]. done. }
    specialize (Hr Hz).
    rewrite ConvertChar32ToUtf8_bytes_standard by done.
    pose proof (utf8_standard_nonzero ch ltac:(lia)) as Hnz.
    rewrite c_str_nonzero by done. split; [done|]. split.
    + split; [|done]. intros He. rewrite He in Hnz.
      unfold Codec.utf8_standard in He. by repeat case_match.
    + intros _. unfold Codec.ConvertChar32ToUtf8.
      destruct (Z.leb_spec 0 ch); [|lia]. destruct (Z.leb_spec ch 0x10FFFF); [|lia].
      simpl. by rewrite ConvertChar32ToUtf8_bytes_standard.
  - intros Hr. unfold Codec.ConvertUtf32ToUtf8_, Codec.ConvertChar32ToUtf8.
    destruct (Z.eqb_spec ch 0) as [->|]; [lia|].
    destruct (Z.leb_spec 0 ch); [|done]. destruct (Z.leb_spec ch 0x10FFFF); [lia|done].
Qed.

(** ** The key identity resolver *)

Lemma toLower_value (m : Z) :
  toLower m =
    if ((0x41 <=? m) && (m <=? 0x5A)) || ((0xC0 <=? m) && (m <=? 0xDE))
    then m + 0x20 else m.
Proof.
  unfold toLower. cbv zeta.
  destruct (Z.geb_spec m 0x41), (Z.leb_spec m 0x5a), (Z.geb_spec m 0xc0),
    (Z.leb_spec m 0xde), (Z.eqb_spec m 0xf7), (Z.leb_spec 0x41 m),
    (Z.leb_spec 0xC0 m); simpl; lia.
Qed.

(** X4. [toLower] adds 0x20 to every code in [0x41, 0x5A] and in
    [0xC0, 0xDE] and returns every other code as it is. The exclusion of the
    division sign 0xF7 never applies, so the multiplication sign 0xD7 is
    mapped to 0xF7 with the letters around it. Applying [toLower] twice is
    the same as applying it once. *)
Theorem toLower_spec (n : Z) :
  toLower n =
    (if ((0x41 <=? n) && (n <=? 0x5A)) || ((0xC0 <=? n) && (n <=? 0xDE))
     then n + 0x20 else n) ∧
  toLower (toLower n) = toLower n.
Proof.
  pose proof toLower_value as H.
  split; [apply H|]. rewrite !H.
  destruct (Z.leb_spec 0x41 n), (Z.leb_spec n 0x5A), (Z.leb_spec 0xC0 n),
    (Z.leb_spec n 0xDE); simpl; rewrite ?H;
    repeat match goal with
           | |- context [?a <=? ?b] => destruct (Z.leb_spec a b)
           end; simpl; lia.
Qed.

Lemma toLower_range (n : Z) : 0x20 ≤ n ≤ 0xff → 0x20 ≤ toLower n ≤ 0xff.
Proof.
  intros Hn. unfold toLower. cbv zeta.
  destruct (Z.geb_spec n 0x41), (Z.leb_spec n 0x5a), (Z.geb_spec n 0xc0),
    (Z.leb_spec n 0xde), (Z.eqb_spec n 0xf7); simpl; lia.
Qed.

Lemma land_low_byte (x : Z) : Z.land x 0xff = x mod 256.
Proof. change 0xff with (Z.ones 8). by rewrite Z.land_ones. Qed.

Lemma normalizeScancode_value (sc : Z) (extended : bool) :
  normalizeScancode sc extended = sc mod 256 + (if extended then 0xe000 else 0).
Proof.
  unfold normalizeScancode. rewrite land_low_byte.
  destruct extended; [|by rewrite Z.lor_0_r, Z.add_0_r].
  assert (Hl : Z.land (sc mod 256) 0xe000 = 0).
  { rewrite <- land_low_byte, <- Z.land_assoc. apply Z.land_0_r. }
  by rewrite <- Z.lxor_lor, <- Z.add_nocarry_lxor.
Qed.

(** X5. [normalizeScancode] keeps the low byte of the scan code and sets
    the bits 0xe000 for an extended key: the result is the low byte plus
    0xe000 or 0, fits [uint16_t], and two inputs have the same result
    exactly when their low bytes and extended flags agree. *)
Theorem normalizeScancode_injective (sc sc' : Z) (extended extended' : bool) :
  0 ≤ normalizeScancode sc extended ≤ 0xffff ∧
  normalizeScancode sc extended = sc mod 256 + (if extended then 0xe000 else 0) ∧
  (normalizeScancode sc extended = normalizeScancode sc' extended' ↔
   sc mod 256 = sc' mod 256 ∧ extended = extended').
Proof.
  rewrite !normalizeScancode_value.
  pose proof (Z.mod_pos_bound sc 256 ltac:(lia)).
  pose proof (Z.mod_pos_bound sc' 256 ltac:(lia)).
  split; [destruct extended; lia|]. split; [done|].
  split.
  - destruct extended, extended'; intros; split; (done || lia).
  - by intros [-> ->].
Qed.

Lemma table_nonzero_lookup (m : gmap Z Z) k v :
  table_nonzero_b m = true → m !! k = Some v → v ≠ 0.
Proof.
  unfold table_nonzero_b. rewrite forallb_forall. intros Hall Hl.
  apply elem_of_map_to_list in Hl. apply list_elem_of_In in Hl.
  specialize (Hall _ Hl). simpl in Hall. apply negb_true_iff in Hall. lia.
Qed.

Lemma platform_ok_inv pf :
  platform_ok_b pf = true →
  windowsPlane pf ≠ 0 ∧ Z.land (valueMask pf) 0xff = 0xff ∧
  table_nonzero_b (windowsToPhysicalMap_ pf) = true ∧
  table_nonzero_b (windowsToLogicalMap_ pf) = true ∧
  table_nonzero_b (scanCodeToLogicalMap_ pf) = true.
Proof.
  unfold platform_ok_b. rewrite !andb_true_iff, negb_true_iff.
  intros [[[[H1 H2] H3] H4] H5]. repeat split; try done; lia.
Qed.

Lemma ApplyPlaneToId_nonzero pf id plane :
  plane ≠ 0 → ApplyPlaneToId pf id plane ≠ 0.
Proof. unfold ApplyPlaneToId. rewrite Z.lor_eq_0_iff. tauto. Qed.

Lemma ApplyPlaneToId_low_byte pf id plane :
  Z.land (valueMask pf) 0xff = 0xff → 0 < id ≤ 0xff →
  ApplyPlaneToId pf id plane ≠ 0.
Proof.
  intros Hm Hid. unfold ApplyPlaneToId. rewrite Z.lor_eq_0_iff. intros [Hz _].
  assert (H : Z.land (Z.land id (valueMask pf)) 0xff = id).
  { rewrite <- Z.land_assoc, Hm, land_low_byte. apply Z.mod_small. lia. }
  rewrite Hz, Z.land_0_l in H. lia.
Qed.

Lemma resolved_ids_nonzero_aux pf (key scancode : Z) (extended : bool) :
  platform_ok_b pf = true →
  GetPhysicalKey pf scancode extended ≠ 0 ∧
  GetLogicalKey pf key extended scancode ≠ 0.
Proof.
  intros Hok. apply platform_ok_inv in Hok as (Hw & Hm & Hp & Hl & Hs).
  split.
  - unfold GetPhysicalKey.
    destruct (windowsToPhysicalMap_ pf !! _) eqn:Hlk.
    + exact (table_nonzero_lookup _ _ _ Hp Hlk).
    + by apply ApplyPlaneToId_nonzero.
  - unfold GetLogicalKey.
    destruct (Z.eqb_spec key VK_PROCESSKEY); [done|].
    destruct (scanCodeToLogicalMap_ pf !! _) eqn:Hs1;
      [exact (table_nonzero_lookup _ _ _ Hs Hs1)|].
    destruct (windowsToLogicalMap_ pf !! _) eqn:Hl1;
      [exact (table_nonzero_lookup _ _ _ Hl Hl1)|].
    destruct (isEasciiPrintable key) eqn:Hprint; [|by apply ApplyPlaneToId_nonzero].
    apply ApplyPlaneToId_low_byte; [done|].
    assert (Hk : 0x20 ≤ key ≤ 0xff).
    { unfold isEasciiPrintable in Hprint.
      destruct (Z.leb_spec key 0x7f), (Z.geb_spec key 0x20), (Z.leb_spec key 0xff),
        (Z.geb_spec key 0x80); simpl in Hprint; try done; lia. }
    unfold to_u64. rewrite Z.mod_small by lia.
    destruct (toLower_range key Hk) as [Hlo Hhi]. lia.
Qed.

(** X6. On a platform whose Windows plane is not 0, whose value mask keeps
    the low byte and whose tables hold no 0, [GetPhysicalKey] and
    [GetLogicalKey] never return 0, the value that the engine reads as "key
    never seen" and "no record": every scan code and every virtual key gets
    an id. *)
Theorem resolved_ids_nonzero pf (key scancode : Z) (extended : bool) :
  platform_ok_b pf = true →
  GetPhysicalKey pf scancode extended ≠ 0 ∧
  GetLogicalKey pf key extended scancode ≠ 0.
Proof. apply resolved_ids_nonzero_aux. Qed.

Lemma resolved_ids_nonzero_witness :
  GetPhysicalKey fixture 0x7f true ≠ 0 ∧ GetLogicalKey fixture 0 true 0x7f ≠ 0.
Proof. apply (resolved_ids_nonzero fixture 0 0x7f true). reflexivity. Defined.

(** X7. A virtual key code of an upper-case ASCII letter and the code of
    its lower-case letter resolve to the same logical id, at the same scan
    code, when the virtual-key table has an entry for neither. *)
Theorem GetLogicalKey_folds_case pf (key scancode : Z) (extended : bool) :
  0x41 ≤ key ≤ 0x5A →
  windowsToLogicalMap_ pf !! key = None →
  windowsToLogicalMap_ pf !! (key + 0x20) = None →
  GetLogicalKey pf key extended scancode =
  GetLogicalKey pf (key + 0x20) extended scancode.
Proof.
  intros Hk Hu Hl. unfold GetLogicalKey.
  destruct (Z.eqb_spec key VK_PROCESSKEY) as [He|_]; [unfold VK_PROCESSKEY in He; lia|].
  destruct (Z.eqb_spec (key + 0x20) VK_PROCESSKEY) as [He|_];
    [unfold VK_PROCESSKEY in He; lia|].
  destruct (scanCodeToLogicalMap_ pf !! _); [done|].
  unfold to_u64. rewrite !Z.mod_small by lia. rewrite Hu, Hl.
  assert (Hp1 : isEasciiPrintable key = true).
  { unfold isEasciiPrintable.
    destruct (Z.leb_spec key 0x7f), (Z.geb_spec key 0x20); simpl; lia. }
  assert (Hp2 : isEasciiPrintable (key + 0x20) = true).
  { unfold isEasciiPrintable.
    destruct (Z.leb_spec (key + 0x20) 0x7f), (Z.geb_spec (key + 0x20) 0x20); simpl; lia. }
  rewrite Hp1, Hp2. f_equal.
  rewrite !toLower_value.
  destruct (Z.leb_spec 0x41 key), (Z.leb_spec key 0x5A); try lia. simpl.
  destruct (Z.leb_spec 0x41 (key + 32)), (Z.leb_spec (key + 32) 0x5A),
    (Z.leb_spec 0xC0 (key + 32)), (Z.leb_spec (key + 32) 0xDE); simpl; lia.
Qed.

Lemma GetLogicalKey_folds_case_witness :
  GetLogicalKey fixture 0x41 false 0x1e = GetLogicalKey fixture (0x41 + 0x20) false 0x1e.
Proof.
  apply (GetLogicalKey_folds_case fixture 0x41 0x1e false); [lia|reflexivity|reflexivity].
Defined.

(** X8. When the Unicode plane is 0, the value mask keeps the low byte and
    the tables have no entry for it, the virtual key 0xC5 resolves to the
    IME sentinel [VK_PROCESSKEY], its own lower-case form: a fresh key down
    with that virtual key is ignored like a key owned by an input method. *)
Theorem key_0xC5_resolves_to_sentinel pf gks (scancode ch : Z) (extended was_down : bool)
    callback (e : Engine) :
  unicodePlane pf = 0 →
  Z.land (valueMask pf) 0xff = 0xff →
  scanCodeToLogicalMap_ pf !! normalizeScancode scancode extended = None →
  windowsToLogicalMap_ pf !! 0xC5 = None →
  pressingRecords_ e !! GetPhysicalKey pf scancode extended = None →
  0 ≤ UndeadChar pf ch ≤ 0x10FFFF →
  GetLogicalKey pf 0xC5 extended scancode = VK_PROCESSKEY ∧
  KeyboardHookImpl pf gks 0xC5 scancode WM_KEYDOWN ch extended was_down callback e
    = Ok (tt, e, [InvokeCallback callback true]).
Proof.
  intros Hu Hm Hs Hl Hno Hcp.
  assert (HL : GetLogicalKey pf 0xC5 extended scancode = VK_PROCESSKEY).
  { unfold GetLogicalKey. simpl. rewrite Hs.
    change (to_u64 197) with 0xC5. rewrite Hl.
    change (toLower 197) with 0xE5. unfold ApplyPlaneToId. rewrite Hu, Z.lor_0_r.
    assert (H : Z.land (Z.land 0xE5 (valueMask pf)) 0xff = 0xE5).
    { by rewrite <- Z.land_assoc, Hm. }
    assert (Hle : Z.land 0xE5 (valueMask pf) = Z.land (Z.land 0xE5 (valueMask pf)) 0xff).
    { rewrite <- Z.land_assoc, (Z.land_comm (valueMask pf)), Z.land_assoc.
      change (Z.land 229 255) with 229. done. }
    rewrite Hle, H. reflexivity. }
  split; [done|].
  rewrite KeyboardHookImpl_eq. unfold KeyboardHookImpl_summary, classification.
  rewrite Hno, HL. simpl. rewrite ConvertUtf32ToUtf8__total by done. done.
Qed.

Lemma key_0xC5_resolves_to_sentinel_witness :
  GetLogicalKey fixture 0xC5 false 0x1e = VK_PROCESSKEY ∧
  KeyboardHookImpl fixture all_up 0xC5 0x1e WM_KEYDOWN 0 false false 7 engine0
    = Ok (tt, engine0, [InvokeCallback 7 true]).
Proof.
  apply (key_0xC5_resolves_to_sentinel fixture all_up 0x1e 0 false false 7 engine0);
    try reflexivity.
  vm_compute. split; discriminate.
Defined.

(** ** Invariants of the engine *)

Lemma processed_records_nonzero pf gks key scancode extended callback c (e e' : Engine)
    out :
  processed pf gks key scancode extended callback c e = Ok (tt, e', out) →
  records_nonzero (pressingRecords_ e) → records_nonzero (pressingRecords_ e').
Proof.
  intros H Hr. apply processed_shape in H as (evs & Hev & _ & Ht & _).
  pose proof (replay_synthesized_nonzero _ _ Hr Hev) as Hr3. cbv zeta in Ht.
  destruct (Z.eqb_spec (eventual_logical_record c) 0) as [Hz|Hz].
  - destruct Ht as [_ ->]. intros p l. rewrite lookup_delete.
    case_decide; [done|]. apply Hr3.
  - rewrite Ht. intros p l. rewrite lookup_insert. case_decide; [|apply Hr3].
    by intros [= <-].
Qed.

Lemma call_records_nonzero pf c (e e' : Engine) out :
  call pf c e = Ok (tt, e', out) →
  records_nonzero (pressingRecords_ e) → records_nonzero (pressingRecords_ e').
Proof.
  destruct c as [g k sc a ch x w cb | handled ud]; simpl; intros H Hr.
  - rewrite KeyboardHook_eq in H.
    destruct (KeyboardHookImpl _ _ _ _ _ _ _ _ _ _) as [[[[] e1] o1]|w'] eqn:Hi; [|done].
    assert (Hc : pressingRecords_ e' = pressingRecords_ e1)
      by (destruct (sent_any_events e1); by injection H as <- <-).
    rewrite Hc.
    apply KeyboardHookImpl_inv in Hi as [_ [[-> ->] | (c & _ & _ & Hp)]]; [done|].
    by eapply processed_records_nonzero.
  - rewrite HandleResponse_eq in H.
    destruct (pending_responses_ e !! ud); [|done]. by injection H as <- <-.
Qed.

Lemma run_records_nonzero pf cs : ∀ (e0 e : Engine) out,
  run pf cs e0 = Ok (tt, e, out) →
  records_nonzero (pressingRecords_ e0) → records_nonzero (pressingRecords_ e).
Proof.
  induction cs as [|c cs IH]; intros e0 e out H Hr.
  - by injection H as <- <-.
  - simpl in H. rewrite bind_eq in H.
    destruct (call pf c e0) as [[[[] e1] o1]|w] eqn:Hc; [|done].
    destruct (run pf cs e1) as [[[[] e2] o2]|w] eqn:Hrun; [|done].
    injection H as <- <-. eapply IH; [exact Hrun|]. by eapply call_records_nonzero.
Qed.

(** X9. On every engine reached from construction, on any platform, no
    value of the press-state table is 0: the test [last_logical_record == 0]
    of the up branch holds exactly when the physical key has no record. *)
Theorem records_never_zero pf gks0 cs (e : Engine) out :
  run pf cs (KeyboardKeyEmbedderHandler pf gks0) = Ok (tt, e, out) →
  (∀ p l, pressingRecords_ e !! p = Some l → l ≠ 0) ∧
  (∀ p, match pressingRecords_ e !! p with Some second => second | None => 0 end = 0
        ↔ pressingRecords_ e !! p = None).
Proof.
  intros H. apply run_records_nonzero in H; [|by intros p l Hl].
  split; [exact H|]. intros p. destruct (pressingRecords_ e !! p) as [l|] eqn:Hl.
  - split; [|done]. intros ->. by apply H in Hl.
  - done.
Qed.

Lemma records_never_zero_witness :
  (∀ p l, pressingRecords_ engine_A_down !! p = Some l → l ≠ 0) ∧
  (∀ p, match pressingRecords_ engine_A_down !! p with
        | Some second => second
        | None => 0
        end = 0 ↔ pressingRecords_ engine_A_down !! p = None).
Proof.
  refine (records_never_zero fixture all_up
            [CallKeyboardHook all_up 0x41 0x1e WM_KEYDOWN 0x41 false false 7]
            engine_A_down [PerformSend down_A_event (Some 2)] _).
  vm_compute. reflexivity.
Defined.

Lemma registry_seen_same_ids l l' :
  Forall2 (λ a b : Z * CriticalKey, a.1 = b.1 ∧ same_ids a.2 b.2) l l' →
  registry_seen l → registry_seen l'.
Proof.
  unfold registry_seen.
  induction 1 as [|[k ki] [k' ki'] l l' [_ (Hp & Hl & _)] _ IH]; [done|].
  intros Hs. inversion Hs as [|? ? [H1 H2] Hrest]; subst. simpl in *.
  constructor; [simpl; split; congruence|auto].
Qed.

Lemma registry_seen_update vk p l cr :
  registry_seen cr → p ≠ 0 → l ≠ 0 →
  registry_seen (update_found vk (set_last_seen p l) cr).
Proof.
  unfold registry_seen. intros Hs Hp Hl.
  induction Hs as [|[k ck] rest Hk Hrest IH]; [constructor|].
  simpl. destruct (k =? vk); constructor; done.
Qed.

Lemma registry_seen_critical_ok l : registry_seen l → critical_ok_b l = true.
Proof.
  intros H. apply critical_ok_b_Forall. eapply Forall_impl; [exact H|].
  by intros kv [_ Hl] _.
Qed.

Lemma call_registry_seen pf c (e e' : Engine) out :
  platform_ok_b pf = true →
  call pf c e = Ok (tt, e', out) →
  records_nonzero (pressingRecords_ e) →
  registry_seen (critical_keys_ e) → registry_seen (critical_keys_ e').
Proof.
  intros Hpf.
  destruct c as [g k sc a ch x w cb | handled ud]; simpl; intros H Hr Hs.
  - rewrite KeyboardHook_eq in H.
    destruct (KeyboardHookImpl _ _ _ _ _ _ _ _ _ _) as [[[[] e1] o1]|w'] eqn:Hi; [|done].
    assert (Hc : critical_keys_ e' = critical_keys_ e1)
      by (destruct (sent_any_events e1); by injection H as <- <-).
    rewrite Hc.
    apply KeyboardHookImpl_inv in Hi as [_ [[-> ->] | (c & Hcl & _ & Hp)]]; [done|].
    apply processed_registry in Hp.
    eapply registry_seen_same_ids; [exact Hp|].
    destruct (resolved_ids_nonzero_aux pf k sc x Hpf) as [HP HL].
    apply registry_seen_update; [done|done|].
    apply classification_inv in Hcl.
    destruct Hcl as [(_ & _ & _ & -> & _) | [(_ & Hl & _) | (_ & _ & _ & Hnz & _)]];
      [done| |done].
    by apply Hr in Hl.
  - rewrite HandleResponse_eq in H.
    destruct (pending_responses_ e !! ud); [|done]. by injection H as <- <-.
Qed.

Lemma constructor_registry_seen pf gks0 :
  platform_ok_b pf = true →
  registry_seen (critical_keys_ (KeyboardKeyEmbedderHandler pf gks0)).
Proof.
  intros Hpf. unfold registry_seen. simpl.
  repeat (constructor; [simpl; apply resolved_ids_nonzero_aux, Hpf|]). constructor.
Qed.

Lemma run_invariants pf cs :
  platform_ok_b pf = true →
  ∀ (e0 e : Engine) out,
    run pf cs e0 = Ok (tt, e, out) →
    records_nonzero (pressingRecords_ e0) → registry_seen (critical_keys_ e0) →
    records_nonzero (pressingRecords_ e) ∧ registry_seen (critical_keys_ e).
Proof.
  intros Hpf. induction cs as [|c cs IH]; intros e0 e out H Hr Hs.
  - by injection H as <- <-.
  - simpl in H. rewrite bind_eq in H.
    destruct (call pf c e0) as [[[[] e1] o1]|w] eqn:Hc; [|done].
    destruct (run pf cs e1) as [[[[] e2] o2]|w] eqn:Hrun; [|done].
    injection H as <- <-. eapply IH; [exact Hrun| |].
    + by eapply call_records_nonzero.
    + by eapply call_registry_seen.
Qed.

Lemma reachable_invariants pf gks0 cs (e : Engine) out :
  platform_ok_b pf = true →
  run pf cs (KeyboardKeyEmbedderHandler pf gks0) = Ok (tt, e, out) →
  records_nonzero (pressingRecords_ e) ∧ registry_seen (critical_keys_ e) ∧
  critical_layout (critical_keys_ e) = fixed_layout.
Proof.
  intros Hpf H.
  pose proof (run_registry _ _ _ _ _ H) as [Hlay _].
  eapply run_invariants in H as [Hr Hs]; [|done|by intros p l Hl|
    by apply constructor_registry_seen].
  done.
Qed.

(** X10. The registry of critical keys is fixed at construction: on every
    engine reached from it, the registry holds the same seven virtual keys
    in the same order with the same check flags (pressed checked for all,
    toggled checked for caps lock, num lock and scroll lock). On a platform
    that gives ids other than 0, every record has a physical and a logical
    id at all times, so no critical key is skipped as never seen. *)
Theorem registry_invariant pf gks0 cs (e : Engine) out :
  platform_ok_b pf = true →
  run pf cs (KeyboardKeyEmbedderHandler pf gks0) = Ok (tt, e, out) →
  critical_layout (critical_keys_ e) = fixed_layout ∧
  Forall (λ kv : Z * CriticalKey, physical_key kv.2 ≠ 0 ∧ logical_key kv.2 ≠ 0)
    (critical_keys_ e).
Proof.
  intros Hpf H. by destruct (reachable_invariants _ _ _ _ _ Hpf H) as (_ & Hs & Hlay).
Qed.

Lemma registry_invariant_witness :
  critical_layout (critical_keys_ engine_shift_down) = fixed_layout ∧
  Forall (λ kv : Z * CriticalKey, physical_key kv.2 ≠ 0 ∧ logical_key kv.2 ≠ 0)
    (critical_keys_ engine_shift_down).
Proof.
  apply (registry_invariant fixture all_up
           [CallKeyboardHook (only_pressed VK_LSHIFT) VK_LSHIFT 0x2a WM_KEYDOWN 0
              false false 7]
           engine_shift_down [PerformSend down_shift_event (Some 2)]).
  - reflexivity.
  - vm_compute. reflexivity.
Defined.

(** ** Failures of [KeyboardHook] *)

Lemma processed_failure pf gks key scancode extended callback c (e : Engine) w :
  registry_seen (critical_keys_ e) →
  GetPhysicalKey pf scancode extended ≠ 0 →
  result_logical_key c ≠ 0 →
  processed pf gks key scancode extended callback c e = Failed w →
  w = RecordMissing ∧ eventual_logical_record c = 0.
Proof.
  intros Hs HP HL. unfold processed.
  set (l1 := update_found _ _ _).
  assert (Hok1 : critical_ok_b l1 = true)
    by by apply registry_seen_critical_ok, registry_seen_update.
  destruct (sync_steps_total _ l1 (pressingRecords_ e) (toggled_step_sound gks key
              (bool_decide (cl_type c = kFlutterKeyEventTypeDown))) Hok1)
    as (l2 & evT & HT).
  rewrite HT.
  pose proof (sync_steps_sound _ _ _ _ _ (toggled_step_sound _ _ _) HT) as [HT2 _].
  apply same_ids_layout in HT2 as [_ Hok2]. rewrite Hok1 in Hok2.
  destruct (sync_steps_total _ l2 (replay evT (pressingRecords_ e))
              (pressed_step_sound gks key
                 (bool_decide (cl_type c ≠ kFlutterKeyEventTypeRepeat))) Hok2)
    as (l3 & evP & HPp).
  rewrite HPp.
  destruct (Z.eqb_spec (eventual_logical_record c) 0); [|done]. simpl.
  destruct (_ !! _); [done|]. by intros [= <-].
Qed.

Lemma KeyboardHook_failure_cases pf gks key scancode action ch extended was_down callback
    (e : Engine) w :
  platform_ok_b pf = true →
  records_nonzero (pressingRecords_ e) → registry_seen (critical_keys_ e) →
  KeyboardHook pf gks key scancode action ch extended was_down callback e = Failed w →
  let P := GetPhysicalKey pf scancode extended in
  (w = BadAction ∧ valid_action action = false) ∨
  (w = CodePointOutOfRange ∧ (action = WM_KEYDOWN ∨ action = WM_SYSKEYDOWN) ∧
   ¬ (0 ≤ UndeadChar pf ch ≤ 0x10FFFF) ∧
   (pressingRecords_ e !! P = None ∨ was_down = true)) ∨
  (w = RecordMissing ∧ (action = WM_KEYUP ∨ action = WM_SYSKEYUP) ∧
   is_Some (pressingRecords_ e !! P)).
Proof.
  intros Hpf Hr Hs H P.
  rewrite KeyboardHook_eq, KeyboardHookImpl_eq in H.
  unfold KeyboardHookImpl_summary in H.
  cbn [pressingRecords_ set_sent_any_events] in H.
  destruct (valid_action action) eqn:Hva;
    [|injection H as <-; by left].
  right.
  assert (Hact : (action = WM_KEYDOWN ∨ action = WM_SYSKEYDOWN) ∧
                 (action =? WM_KEYDOWN) || (action =? WM_SYSKEYDOWN) = true ∨
                 (action = WM_KEYUP ∨ action = WM_SYSKEYUP) ∧
                 (action =? WM_KEYDOWN) || (action =? WM_SYSKEYDOWN) = false).
  { unfold valid_action in Hva.
    destruct (Z.eqb_spec action WM_KEYDOWN) as [->|]; [left; auto|].
    destruct (Z.eqb_spec action WM_KEYUP) as [->|]; [right; auto|].
    destruct (Z.eqb_spec action WM_SYSKEYDOWN) as [->|]; [left; auto|].
    destruct (Z.eqb_spec action WM_SYSKEYUP) as [->|]; [right; auto|done]. }
  destruct (resolved_ids_nonzero_aux pf key scancode extended Hpf) as [HP HL].
  destruct (classification pf (pressingRecords_ e) key scancode action ch extended
              was_down) as [[c|]|w'] eqn:Hc.
  - (* processed *)
    destruct (result_logical_key c =? VK_PROCESSKEY); [done|].
    destruct (processed _ _ _ _ _ _ _ _) as [[[[] e1] o1]|w'] eqn:Hp.
    { by destruct (sent_any_events e1). }
    injection H as <-.
    apply classification_inv in Hc. fold P in Hc.
    assert (Hres : result_logical_key c ≠ 0).
    { destruct Hc as [(_ & _ & _ & -> & _) | [(_ & Hl & _) | (_ & _ & _ & Hnz & _)]];
        [done| |done]. by apply Hr in Hl. }
    apply processed_failure in Hp as [-> Hev]; [|done|done|done].
    right. split; [done|].
    destruct Hc as [(_ & _ & _ & _ & He & _) | [(_ & Hl & _ & _ & He & _) |
                    (_ & Hl & Hd & _)]]; [congruence|congruence|].
    split; [|by eexists].
    destruct Hact as [[_ Hd'] | [Hup _]]; [congruence|done].
  - done.
  - (* the character conversion failed *)
    injection H as <-. unfold classification in Hc. fold P in Hc.
    assert (Hconv : Codec.ConvertUtf32ToUtf8_ (UndeadChar pf ch) = Failed w' ∧
                    (action =? WM_KEYDOWN) || (action =? WM_SYSKEYDOWN) = true ∧
                    (pressingRecords_ e !! P = None ∨ was_down = true)).
    { destruct (pressingRecords_ e !! P) as [last|];
        destruct ((action =? WM_KEYDOWN) || (action =? WM_SYSKEYDOWN));
        try destruct was_down; try destruct (last =? 0); try done;
        destruct (Codec.ConvertUtf32ToUtf8_ (UndeadChar pf ch)); try done;
        injection Hc as <-; auto. }
    destruct Hconv as (Hconv & Hd & Hcase).
    assert (Hrange : ¬ (0 ≤ UndeadChar pf ch ≤ 0x10FFFF)).
    { intros Hin. by rewrite ConvertUtf32ToUtf8__total in Hconv. }
    assert (w' = CodePointOutOfRange) as ->.
    { unfold Codec.ConvertUtf32ToUtf8_, Codec.ConvertChar32ToUtf8 in Hconv.
      repeat case_match; congruence. }
    left. split; [done|]. split; [|done].
    destruct Hact as [[Hdn _] | [_ Hd']]; [done|congruence].
Qed.

(** X11. On an engine reached from construction, on a platform that gives
    ids other than 0, a call of [KeyboardHook] can fail in three ways only:
    the assertion on [action] (the action is none of the four messages), the
    assertion of [ConvertChar32ToUtf8] (a key down that is dispatched, with a
    character above 0x10FFFF), and the assertion before the final removal
    (an up transition on a recorded key). The assertion on the logical id of
    a critical key never fails. *)
Theorem KeyboardHook_failures pf gks0 cs (e : Engine) out
    gks key scancode action ch extended was_down callback w :
  platform_ok_b pf = true →
  run pf cs (KeyboardKeyEmbedderHandler pf gks0) = Ok (tt, e, out) →
  KeyboardHook pf gks key scancode action ch extended was_down callback e = Failed w →
  let P := GetPhysicalKey pf scancode extended in
  (w = BadAction ∧ valid_action action = false) ∨
  (w = CodePointOutOfRange ∧ (action = WM_KEYDOWN ∨ action = WM_SYSKEYDOWN) ∧
   ¬ (0 ≤ UndeadChar pf ch ≤ 0x10FFFF) ∧
   (pressingRecords_ e !! P = None ∨ was_down = true)) ∨
  (w = RecordMissing ∧ (action = WM_KEYUP ∨ action = WM_SYSKEYUP) ∧
   is_Some (pressingRecords_ e !! P)).
Proof.
  intros Hpf Hrun H.
  destruct (reachable_invariants _ _ _ _ _ Hpf Hrun) as (Hr & Hs & _).
  by eapply KeyboardHook_failure_cases.
Qed.

Lemma KeyboardHook_failures_witness :
  (RecordMissing = BadAction ∧ valid_action WM_KEYUP = false) ∨
  (RecordMissing = CodePointOutOfRange ∧ (WM_KEYUP = WM_KEYDOWN ∨ WM_KEYUP = WM_SYSKEYDOWN) ∧
   ¬ (0 ≤ UndeadChar fixture 0 ≤ 0x10FFFF) ∧
   (pressingRecords_ engine_shift_down !! GetPhysicalKey fixture 0x2a false = None ∨
    false = true)) ∨
  (RecordMissing = RecordMissing ∧ (WM_KEYUP = WM_KEYUP ∨ WM_KEYUP = WM_SYSKEYUP) ∧
   is_Some (pressingRecords_ engine_shift_down !! GetPhysicalKey fixture 0x2a false)).
Proof.
  apply (KeyboardHook_failures fixture all_up
           [CallKeyboardHook (only_pressed VK_LSHIFT) VK_LSHIFT 0x2a WM_KEYDOWN 0
              false false 7]
           engine_shift_down [PerformSend down_shift_event (Some 2)]
           (only_pressed VK_LSHIFT) VK_LSHIFT 0x2a WM_KEYUP 0 false false 8).
  - reflexivity.
  - vm_compute. reflexivity.
  - vm_compute. reflexivity.
Defined.

(** X12. On an engine reached from construction, on a platform that gives
    ids other than 0, a down transition with a character in [0, 0x10FFFF]
    never fails an assertion: [KeyboardHook] returns, whatever the recorded
    state of the key, the repeat flag and the OS key state. *)
Theorem key_down_never_aborts pf gks0 cs (e : Engine) out
    gks key scancode action ch extended was_down callback :
  platform_ok_b pf = true →
  run pf cs (KeyboardKeyEmbedderHandler pf gks0) = Ok (tt, e, out) →
  action = WM_KEYDOWN ∨ action = WM_SYSKEYDOWN →
  0 ≤ UndeadChar pf ch ≤ 0x10FFFF →
  ∃ e' out',
    KeyboardHook pf gks key scancode action ch extended was_down callback e
      = Ok (tt, e', out').
Proof.
  intros Hpf Hrun Ha Hcp.
  destruct (reachable_invariants _ _ _ _ _ Hpf Hrun) as (Hr & Hs & _).
  destruct (KeyboardHook _ _ _ _ _ _ _ _ _ e) as [[[[] e'] out']|w] eqn:H;
    [by eexists _, _|].
  apply KeyboardHook_failure_cases in H as [[_ Hva] | [(_ & _ & Hn & _) |
    (_ & Hup & _)]]; [| | |done|done|done].
  - apply valid_action_down in Ha as [Hva' _]. congruence.
  - done.
  - destruct Ha as [-> | ->], Hup as [Hu | Hu]; discriminate.
Qed.

Lemma key_down_never_aborts_witness :
  ∃ e' out',
    KeyboardHook fixture (only_toggled VK_CAPITAL) VK_CAPITAL 0x3a WM_KEYDOWN 0
      false true 8 engine_shift_down = Ok (tt, e', out').
Proof.
  apply (key_down_never_aborts fixture all_up
           [CallKeyboardHook (only_pressed VK_LSHIFT) VK_LSHIFT 0x2a WM_KEYDOWN 0
              false false 7]
           engine_shift_down [PerformSend down_shift_event (Some 2)]).
  - reflexivity.
  - vm_compute. reflexivity.
  - by left.
  - vm_compute. split; discriminate.
Defined.

(** ** The synchronization passes *)

Lemma toggled_pass_inv gks this d (e e' : Engine) out :
  SynchronizeCritialToggledStates gks this d e = Ok (tt, e', out) →
  ∃ l' evs,
    sync_steps (toggled_step gks this d) (critical_keys_ e) (pressingRecords_ e)
      = Ok (l', evs) ∧
    e' = set_critical_keys_ l' (apply_events evs e) ∧ out = map send_none evs.
Proof.
  rewrite SynchronizeCritialToggledStates_steps.
  destruct (sync_steps _ _ _) as [[l' evs]|w]; [|done].
  intros [= <- <-]. by exists l', evs.
Qed.

Lemma pressed_pass_inv gks this d (e e' : Engine) out :
  SynchronizeCritialPressedStates gks this d e = Ok (tt, e', out) →
  ∃ evs,
    sync_steps (pressed_step gks this d) (critical_keys_ e) (pressingRecords_ e)
      = Ok (critical_keys_ e, evs) ∧
    e' = apply_events evs e ∧ out = map send_none evs.
Proof.
  rewrite SynchronizeCritialPressedStates_steps.
  destruct (sync_steps _ _ _) as [[l' evs]|w] eqn:Hs; [|done].
  pose proof (sync_steps_pressed_same _ _ _ _ _ _ _ Hs) as ->.
  intros [= <- <-]. exists evs. split; [done|]. split; [|done].
  by destruct e.
Qed.

Lemma sends_events evs : map fst (sends (map send_none evs)) = evs.
Proof. rewrite sends_send_none. induction evs; simpl; congruence. Qed.

(** X13. Both synchronization passes are fire-and-forget: every event they
    send is a synthesized Up or Down event with an empty character, a
    non-zero physical and logical id, and a null callback; they invoke no
    caller callback and leave the response counter and the ledger as they
    are. The press-state table after a pass is the table before it with the
    sent events applied in order. *)
Theorem synchronization_is_fire_and_forget gks this d (toggled : bool) (e e' : Engine) out :
  (if toggled then SynchronizeCritialToggledStates gks this d e
   else SynchronizeCritialPressedStates gks this d e) = Ok (tt, e', out) →
  Forall (λ x : FlutterKeyEvent * option Z,
            x.2 = None ∧ is_synthesized_key_event x.1) (sends out) ∧
  callbacks out = [] ∧
  response_id_ e' = response_id_ e ∧
  pending_responses_ e' = pending_responses_ e ∧
  pressingRecords_ e' = replay (map fst (sends out)) (pressingRecords_ e).
Proof.
  intros H.
  assert (Hx : ∃ l' evs,
            Forall is_synthesized_key_event evs ∧
            e' = set_critical_keys_ l' (apply_events evs e) ∧ out = map send_none evs).
  { destruct toggled.
    - apply toggled_pass_inv in H as (l' & evs & Hs & -> & ->).
      exists l', evs. split; [|done].
      eapply sync_steps_events; [apply toggled_step_sound|exact Hs].
    - apply pressed_pass_inv in H as (evs & Hs & -> & ->).
      exists (critical_keys_ e), evs. split; [|by destruct e].
      eapply sync_steps_events; [apply pressed_step_sound|exact Hs]. }
  destruct Hx as (l' & evs & Hev & -> & ->).
  rewrite sends_events, callbacks_send_none, sends_send_none.
  split; [|done]. apply Forall_map. eapply Forall_impl; [exact Hev|]. done.
Qed.

Lemma synchronization_is_fire_and_forget_witness :
  callbacks [PerformSend
               (SynthesizeSimpleEvent kFlutterKeyEventTypeDown 0x000700e1 0x200000102 [])
               None] = [] ∧
  response_id_ (apply_events
                  [SynthesizeSimpleEvent kFlutterKeyEventTypeDown 0x000700e1 0x200000102 []]
                  engine0) = response_id_ engine0.
Proof.
  destruct (synchronization_is_fire_and_forget (only_pressed VK_LSHIFT) 0x41 true false
              engine0
              (apply_events
                 [SynthesizeSimpleEvent kFlutterKeyEventTypeDown 0x000700e1 0x200000102 []]
                 engine0)
              [PerformSend
                 (SynthesizeSimpleEvent kFlutterKeyEventTypeDown 0x000700e1 0x200000102 [])
                 None]) as (_ & Hc & Hi & _).
  - vm_compute. reflexivity.
  - split; [exact Hc|exact Hi].
Defined.

Lemma toggled_steps_post gks this d l : ∀ (r : gmap Z Z) l' evs,
  sync_steps (toggled_step gks this d) l r = Ok (l', evs) →
  Forall2 (λ a b : Z * CriticalKey,
             a.1 = b.1 ∧ same_ids a.2 b.2 ∧
             toggled_on b.2 =
               if negb (physical_key a.2 =? 0) && check_toggled a.2
               then negb (Z.land (gks a.1) kStateMaskToggled =? 0)
               else toggled_on a.2) l l' ∧
  (∀ p, is_Some (r !! p) → is_Some (replay evs r !! p)).
Proof.
  induction l as [|[vk ki] rest IH]; intros r l' evs H; simpl in H.
  - injection H as <- <-. split; [constructor|done].
  - destruct (toggled_step gks this d vk ki r) as [[ki' evs1]|w] eqn:Hs; [|done].
    destruct (sync_steps _ rest _) as [[rest' evs2]|w] eqn:Hrest; [|done].
    injection H as <- <-. apply IH in Hrest as [IH1 IH2].
    assert (Hhead : same_ids ki ki' ∧
              toggled_on ki' =
                (if negb (physical_key ki =? 0) && check_toggled ki
                 then negb (Z.land (gks vk) kStateMaskToggled =? 0)
                 else toggled_on ki) ∧
              (∀ p, is_Some (r !! p) → is_Some (replay evs1 r !! p))).
    { unfold toggled_step in Hs.
      destruct (physical_key ki =? 0); [by injection Hs as <- <-|].
      destruct (logical_key ki =? 0); [done|].
      destruct (check_toggled ki); [|by injection Hs as <- <-].
      injection Hs as <- <-. split; [done|]. split; [done|].
      intros p Hp. destruct (negb (eqb _ _)); [|done].
      destruct (r !! physical_key ki); simpl; unfold replay_event; simpl;
        rewrite ?insert_delete_eq, lookup_insert; by case_decide. }
    destruct Hhead as (Hid & Htog & Hdom).
    split; [by constructor|].
    intros p Hp. rewrite replay_app. auto.
Qed.

(** X14. After [SynchronizeCritialToggledStates] every critical key with a
    physical id whose toggled state is checked has its tracked toggled flag
    equal to bit 0 of the OS key state; the flags of the other records, and
    the ids and check flags of all records, are as before. The pass never
    removes a record from the press-state table. *)
Theorem toggled_pass_postcondition gks this d (e e' : Engine) out :
  SynchronizeCritialToggledStates gks this d e = Ok (tt, e', out) →
  Forall2 (λ a b : Z * CriticalKey,
             a.1 = b.1 ∧ same_ids a.2 b.2 ∧
             toggled_on b.2 =
               if negb (physical_key a.2 =? 0) && check_toggled a.2
               then negb (Z.land (gks a.1) kStateMaskToggled =? 0)
               else toggled_on a.2)
    (critical_keys_ e) (critical_keys_ e') ∧
  (∀ p, is_Some (pressingRecords_ e !! p) → is_Some (pressingRecords_ e' !! p)).
Proof.
  intros H. apply toggled_pass_inv in H as (l' & evs & Hs & -> & _).
  by apply toggled_steps_post in Hs.
Qed.

Lemma toggled_pass_postcondition_witness :
  is_Some (pressingRecords_
             (set_critical_keys_
                (update_found VK_CAPITAL (set_toggled_on true)
                   (critical_keys_ engine_shift_down))
                (apply_events
                   [SynthesizeSimpleEvent kFlutterKeyEventTypeDown 0x00070039
                      0x100000104 []] engine_shift_down))
           !! GetPhysicalKey fixture 0x2a false).
Proof.
  refine (proj2 (toggled_pass_postcondition (only_toggled VK_CAPITAL) 0x41 true
                   engine_shift_down _
                   [PerformSend
                      (SynthesizeSimpleEvent kFlutterKeyEventTypeDown 0x00070039
                         0x100000104 []) None] _) (GetPhysicalKey fixture 0x2a false) _);
    [|vm_compute; eauto].
  vm_compute. reflexivity.
Defined.

Lemma pressed_step_post gks this d vk ki (r : gmap Z Z) evs :
  pressed_step gks this d vk ki r = Ok (ki, evs) →
  physical_key ki ≠ 0 → check_pressed ki = true →
  (is_Some (replay evs r !! physical_key ki) ↔ expected_pressed gks this d vk = true).
Proof.
  unfold pressed_step, expected_pressed. intros H Hp Hc.
  destruct (Z.eqb_spec (physical_key ki) 0); [done|].
  destruct (logical_key ki =? 0); [done|]. rewrite Hc in H.
  injection H as <-.
  set (should := if (vk =? to_u32 this) && d then _ else _).
  destruct (r !! physical_key ki) as [l|] eqn:Hl; destruct should; simpl;
    unfold replay_event; simpl;
    rewrite ?Hl, ?lookup_delete_eq, ?lookup_insert_eq;
    split; (done || by intros [? ?] || by eexists).
Qed.

Lemma pressed_steps_post gks this d l : ∀ (r : gmap Z Z) evs,
  sync_steps (pressed_step gks this d) l r = Ok (l, evs) →
  NoDup (registry_physical l) →
  ∀ kv, kv ∈ l → physical_key kv.2 ≠ 0 → check_pressed kv.2 = true →
        (is_Some (replay evs r !! physical_key kv.2)
         ↔ expected_pressed gks this d kv.1 = true).
Proof.
  induction l as [|[vk ki] rest IH]; intros r evs H Hnd kv Hin Hp Hc.
  - by apply elem_of_nil in Hin.
  - simpl in H.
    destruct (pressed_step gks this d vk ki r) as [[ki' evs1]|w] eqn:Hs; [|done].
    pose proof (pressed_step_same _ _ _ _ _ _ _ _ Hs) as ->.
    destruct (sync_steps _ rest _) as [[rest' evs2]|w] eqn:Hrest; [|done].
    pose proof (sync_steps_pressed_same _ _ _ _ _ _ _ Hrest) as ->.
    injection H as <-. simpl in Hnd. apply NoDup_cons in Hnd as [Hnotin Hnd].
    rewrite replay_app.
    apply elem_of_cons in Hin as [-> | Hin].
    + simpl in *.
      rewrite replay_untouched; [by apply pressed_step_post|].
      eapply sync_steps_untouched; [apply pressed_step_sound|exact Hrest|].
      apply Forall_forall. intros kv Hkv Heq. apply Hnotin.
      unfold registry_physical. apply list_elem_of_fmap. by exists kv.
    + by apply (IH _ _ Hrest Hnd).
Qed.

Lemma pressed_steps_quiet gks this d l : ∀ (r : gmap Z Z),
  critical_ok_b l = true →
  (∀ kv, kv ∈ l → physical_key kv.2 ≠ 0 → check_pressed kv.2 = true →
         (is_Some (r !! physical_key kv.2) ↔ expected_pressed gks this d kv.1 = true)) →
  sync_steps (pressed_step gks this d) l r = Ok (l, []).
Proof.
  induction l as [|[vk ki] rest IH]; intros r Hok Hagree; [done|].
  simpl in Hok. apply andb_true_iff in Hok as [Hk Hrest].
  assert (Hs : pressed_step gks this d vk ki r = Ok (ki, [])).
  { unfold pressed_step. destruct (Z.eqb_spec (physical_key ki) 0) as [|Hp]; [done|].
    simpl in Hk. destruct (logical_key ki =? 0); [done|].
    destruct (check_pressed ki) eqn:Hc; [|done].
    specialize (Hagree (vk, ki) ltac:(left) Hp Hc). simpl in Hagree.
    unfold expected_pressed in Hagree.
    set (should := if (vk =? to_u32 this) && d then _ else _) in *.
    destruct (r !! physical_key ki), should; simpl; try done.
    - destruct Hagree as [Ha _]. by discriminate Ha.
    - destruct Hagree as [_ Ha]. by destruct Ha. }
  simpl. rewrite Hs. simpl. rewrite IH; [done|done|].
  intros kv Hin. apply Hagree. by right.
Qed.

(** X15. When the records of the registry have pairwise different physical
    ids, after [SynchronizeCritialPressedStates] every critical key with a
    physical id whose pressed state is checked is recorded pressed exactly
    when the pass expects it pressed: the OS pressed bit, inverted for the
    key of the raw input when its pressed state is about to change. The
    registry is left as it is. *)
Theorem pressed_pass_postcondition gks this d (e e' : Engine) out :
  SynchronizeCritialPressedStates gks this d e = Ok (tt, e', out) →
  NoDup (registry_physical (critical_keys_ e)) →
  critical_keys_ e' = critical_keys_ e ∧
  ∀ vk ki, (vk, ki) ∈ critical_keys_ e →
    physical_key ki ≠ 0 → check_pressed ki = true →
    (is_Some (pressingRecords_ e' !! physical_key ki)
     ↔ expected_pressed gks this d vk = true).
Proof.
  intros H Hnd. apply pressed_pass_inv in H as (evs & Hs & -> & _).
  split; [done|]. intros vk ki Hin Hp Hc.
  exact (pressed_steps_post _ _ _ _ _ _ Hs Hnd (vk, ki) Hin Hp Hc).
Qed.

Lemma pressed_pass_postcondition_witness :
  is_Some (pressingRecords_
             (apply_events
                [SynthesizeSimpleEvent kFlutterKeyEventTypeDown 0x000700e1 0x200000102 []]
                engine0) !! 0x000700e1)
  ↔ expected_pressed (only_pressed VK_LSHIFT) 0x41 true VK_LSHIFT = true.
Proof.
  refine (proj2 (pressed_pass_postcondition (only_pressed VK_LSHIFT) 0x41 true engine0 _
                   [PerformSend
                      (SynthesizeSimpleEvent kFlutterKeyEventTypeDown 0x000700e1
                         0x200000102 []) None] _ _)
            VK_LSHIFT (mkCriticalKey 0x000700e1 0x200000102 true false false) _ _ _).
  - vm_compute. reflexivity.
  - apply (bool_decide_unpack _). vm_compute. reflexivity.
  - apply (bool_decide_unpack _). vm_compute. reflexivity.
  - discriminate.
  - reflexivity.
Defined.

(** X16. [SynchronizeCritialPressedStates] is idempotent when the records
    of the registry have pairwise different physical ids: run again with
    the same arguments on the engine it returned, it sends nothing and
    changes nothing. *)
Theorem pressed_pass_idempotent gks this d (e e' : Engine) out :
  SynchronizeCritialPressedStates gks this d e = Ok (tt, e', out) →
  NoDup (registry_physical (critical_keys_ e)) →
  SynchronizeCritialPressedStates gks this d e' = Ok (tt, e', []).
Proof.
  intros H Hnd. apply pressed_pass_inv in H as (evs & Hs & -> & _).
  rewrite SynchronizeCritialPressedStates_steps.
  cbn [critical_keys_ pressingRecords_ apply_events].
  rewrite (pressed_steps_quiet gks this d (critical_keys_ e)).
  - simpl. f_equal. f_equal. destruct e; simpl. unfold apply_events; simpl.
    unfold set_critical_keys_; simpl. by rewrite orb_false_r.
  - eapply sync_steps_Ok_critical_ok; [apply pressed_step_sound|exact Hs].
  - intros kv Hin. by apply (pressed_steps_post _ _ _ _ _ _ Hs Hnd).
Qed.

Lemma pressed_pass_idempotent_witness :
  SynchronizeCritialPressedStates (only_pressed VK_LSHIFT) 0x41 true
    (apply_events
       [SynthesizeSimpleEvent kFlutterKeyEventTypeDown 0x000700e1 0x200000102 []]
       engine0)
  = Ok (tt,
        apply_events
          [SynthesizeSimpleEvent kFlutterKeyEventTypeDown 0x000700e1 0x200000102 []]
          engine0, []).
Proof.
  apply (pressed_pass_idempotent (only_pressed VK_LSHIFT) 0x41 true engine0 _
           [PerformSend
              (SynthesizeSimpleEvent kFlutterKeyEventTypeDown 0x000700e1
                 0x200000102 []) None]).
  - vm_compute. reflexivity.
  - apply (bool_decide_unpack _). vm_compute. reflexivity.
Defined.

(** ** Up events that complete *)

Lemma same_ids_physical l l' :
  Forall2 (λ a b : Z * CriticalKey, a.1 = b.1 ∧ same_ids a.2 b.2) l l' →
  registry_physical l' = registry_physical l.
Proof.
  induction 1 as [|[k ki] [k' ki'] l l' [_ (Hp & _)] _ IH]; [done|].
  simpl in *. by rewrite Hp, IH.
Qed.

Lemma same_ids_elem_of l l' vk ki' :
  Forall2 (λ a b : Z * CriticalKey, a.1 = b.1 ∧ same_ids a.2 b.2) l l' →
  (vk, ki') ∈ l' → ∃ ki, (vk, ki) ∈ l ∧ same_ids ki ki'.
Proof.
  induction 1 as [|[k ki] [k' ki2] l l' [Hk Hid] _ IH]; intros Hin.
  - by apply elem_of_nil in Hin.
  - simpl in *. subst k'. apply elem_of_cons in Hin as [[= -> ->] | Hin].
    + exists ki. split; [left|done].
    + destruct (IH Hin) as (ki0 & Hin0 & Hid0). exists ki0. split; [by right|done].
Qed.

(** X17. An up transition on a recorded physical key completes, and removes
    the record, when the registry (with the raw input's ids stored for its
    virtual key) passes the loops' assertion, its records have pairwise
    different physical ids, and every critical key that sits on the
    released physical key is one that the pressed-state pass expects
    pressed before the event: for the released key itself, the OS reports
    it released. The primary Up event is then the last event sent and
    carries the recorded logical id. *)
Theorem up_completes pf gks key scancode action ch extended was_down callback
    (e : Engine) L :
  let P := GetPhysicalKey pf scancode extended in
  let l1 := update_found (to_u32 key) (set_last_seen P L) (critical_keys_ e) in
  action = WM_KEYUP ∨ action = WM_SYSKEYUP →
  pressingRecords_ e !! P = Some L →
  L ≠ 0 → L ≠ VK_PROCESSKEY → P ≠ 0 →
  critical_ok_b l1 = true →
  NoDup (registry_physical l1) →
  (∀ vk ki, (vk, ki) ∈ l1 → physical_key ki = P →
            check_pressed ki = true ∧ expected_pressed gks key true vk = true) →
  ∃ (e' : Engine) evs rid,
    KeyboardHookImpl pf gks key scancode action ch extended was_down callback e
      = Ok (tt, e',
            map send_none evs ++
            [PerformSend {| type := kFlutterKeyEventTypeUp; physical := P;
                            logical := L; character := [];
                            synthesized := false |} (Some rid)]) ∧
    Forall is_synthesized_key_event evs ∧
    pressingRecords_ e' !! P = None.
Proof.
  intros P l1 Ha Hrec HL Hime HP Hok Hnd Hagree.
  apply valid_action_up in Ha as [Hva Hup].
  rewrite KeyboardHookImpl_eq. unfold KeyboardHookImpl_summary, classification.
  fold P. rewrite Hva, Hup, Hrec.
  destruct (Z.eqb_spec L 0); [done|]. cbn [result_logical_key].
  destruct (Z.eqb_spec L VK_PROCESSKEY); [done|].
  set (c := mkClassified kFlutterKeyEventTypeUp L 0 []).
  destruct (sync_steps_total _ l1 (pressingRecords_ e)
              (toggled_step_sound gks key
                 (bool_decide (cl_type c = kFlutterKeyEventTypeDown))) Hok)
    as (l2 & evT & HT).
  pose proof (sync_steps_sound _ _ _ _ _ (toggled_step_sound _ _ _) HT) as [Hids _].
  pose proof (same_ids_layout _ _ Hids) as [_ Hok2]. rewrite Hok in Hok2.
  pose proof (toggled_steps_post _ _ _ _ _ _ _ HT) as [_ Hdom].
  destruct (sync_steps_total _ l2 (replay evT (pressingRecords_ e))
              (pressed_step_sound gks key
                 (bool_decide (cl_type c ≠ kFlutterKeyEventTypeRepeat))) Hok2)
    as (l3 & evP & HPp).
  pose proof (sync_steps_pressed_same _ _ _ _ _ _ _ HPp) as ->.
  assert (Hthere : is_Some (replay evP (replay evT (pressingRecords_ e)) !! P)).
  { assert (H2 : is_Some (replay evT (pressingRecords_ e) !! P))
      by (apply Hdom; by eexists).
    destruct (decide (P ∈ registry_physical l2)) as [Hin|Hnin].
    - apply list_elem_of_fmap in Hin as ([vk ki2] & HPe & Hin). simpl in HPe.
      destruct (same_ids_elem_of _ _ _ _ Hids Hin) as (ki1 & Hin1 & Hp1 & _ & Hc1 & _).
      destruct (Hagree vk ki1 Hin1 ltac:(congruence)) as [Hc Hexp].
      rewrite HPe.
      apply (pressed_steps_post _ _ _ _ _ _ HPp
               ltac:(by rewrite (same_ids_physical _ _ Hids)) (vk, ki2) Hin);
        simpl; [congruence|congruence|exact Hexp].
    - rewrite replay_untouched; [done|].
      eapply sync_steps_untouched; [apply pressed_step_sound|exact HPp|].
      apply Forall_forall. intros kv Hkv Heq. apply Hnin.
      unfold registry_physical. apply list_elem_of_fmap. by exists kv. }
  unfold processed. fold P. change (result_logical_key c) with L. fold l1.
  rewrite HT, HPp. change (eventual_logical_record c) with 0. cbn [Z.eqb negb].
  destruct Hthere as [x Hx]. rewrite Hx.
  eexists _, (evT ++ evP), _. split.
  { rewrite map_app, <- app_assoc. reflexivity. }
  split.
  { apply Forall_app. split.
    - eapply sync_steps_events; [apply toggled_step_sound|exact HT].
    - eapply sync_steps_events; [apply pressed_step_sound|exact HPp]. }
  apply lookup_delete_eq.
Qed.

Lemma up_completes_witness :
  ∃ (e' : Engine) evs rid,
    KeyboardHookImpl fixture all_up VK_LSHIFT 0x2a WM_KEYUP 0 false false 8
      engine_shift_down
      = Ok (tt, e',
            map send_none evs ++
            [PerformSend {| type := kFlutterKeyEventTypeUp;
                            physical := GetPhysicalKey fixture 0x2a false;
                            logical := 0x200000102; character := [];
                            synthesized := false |} (Some rid)]) ∧
    Forall is_synthesized_key_event evs ∧
    pressingRecords_ e' !! GetPhysicalKey fixture 0x2a false = None.
Proof.
  apply (up_completes fixture all_up VK_LSHIFT 0x2a WM_KEYUP 0 false false 8
           engine_shift_down 0x200000102).
  - by left.
  - reflexivity.
  - discriminate.
  - discriminate.
  - vm_compute. discriminate.
  - reflexivity.
  - apply (bool_decide_unpack _). vm_compute. reflexivity.
  - assert (HF : Forall
              (λ kv : Z * CriticalKey,
                 physical_key kv.2 = GetPhysicalKey fixture 0x2a false →
                 check_pressed kv.2 = true ∧
                 expected_pressed all_up VK_LSHIFT true kv.1 = true)
              (update_found (to_u32 VK_LSHIFT)
                 (set_last_seen (GetPhysicalKey fixture 0x2a false) 0x200000102)
                 (critical_keys_ engine_shift_down))).
    { repeat (constructor 2;
              [vm_compute; intros Hp; try discriminate Hp; split; reflexivity|]).
      constructor 1. }
    intros vk ki Hin. exact (proj1 (Forall_forall _ _) HF (vk, ki) Hin).
Defined.

(** ** What one raw input does *)

Lemma KeyboardHook_dichotomy pf gks key scancode action ch extended was_down callback
    (e e' : Engine) out :
  KeyboardHook pf gks key scancode action ch extended was_down callback e
    = Ok (tt, e', out) →
  (out = [InvokeCallback callback true; PerformSend empty_event None] ∧
   e' = set_sent_any_events true e) ∨
  (∃ c evs,
     processed pf gks key scancode extended callback c (set_sent_any_events false e)
       = Ok (tt, e', out) ∧
     Forall is_synthesized_key_event evs ∧
     out = map send_none evs ++
           [PerformSend {| type := cl_type c;
                           physical := GetPhysicalKey pf scancode extended;
                           logical := result_logical_key c;
                           character := character_bytes c; synthesized := false |}
              (Some (to_u64 (response_id_ e + 1)))] ∧
     pending_responses_ e' =
       <[to_u64 (response_id_ e + 1) := callback]> (pending_responses_ e)).
Proof.
  rewrite KeyboardHook_eq.
  destruct (KeyboardHookImpl _ _ _ _ _ _ _ _ _ _) as [[[[] e1] o1]|w] eqn:Hi; [|done].
  apply KeyboardHookImpl_inv in Hi as [_ [[-> ->] | (c & _ & _ & Hp)]].
  - simpl. intros [= <- <-]. by left.
  - pose proof (processed_shape _ _ _ _ _ _ _ _ _ _ Hp)
      as (evs & Hev & Ho & _ & _ & _ & _ & Hpend & Hsent).
    rewrite Hsent. intros [= <- <-]. right. exists c, evs.
    split; [done|]. split; [done|]. split; [exact Ho|exact Hpend].
Qed.

(** X18. Every call of [KeyboardHook] that returns does exactly one of two
    things with the caller's callback. Either it invokes the callback once,
    with [handled = true], registers nothing, leaves the press-state table,
    the registry, the response counter and the ledger as they are, and
    sends the neutral event as its only event. Or it does not invoke the
    callback, stores it in the ledger under the next response id, and sends
    synthesized events (without tracking) followed by one primary event
    that carries that id. In both cases at least one event is sent. *)
Theorem callback_invoked_or_registered pf gks key scancode action ch extended was_down
    callback (e e' : Engine) out :
  KeyboardHook pf gks key scancode action ch extended was_down callback e
    = Ok (tt, e', out) →
  (callbacks out = [(callback, true)] ∧ sends out = [(empty_event, None)] ∧
   pressingRecords_ e' = pressingRecords_ e ∧ critical_keys_ e' = critical_keys_ e ∧
   response_id_ e' = response_id_ e ∧ pending_responses_ e' = pending_responses_ e) ∨
  (callbacks out = [] ∧
   ∃ evs primary,
     sends out = map (λ ev, (ev, None)) evs ++ [(primary, Some (response_id_ e'))] ∧
     Forall (λ ev, synthesized ev = true) evs ∧ synthesized primary = false ∧
     response_id_ e' = to_u64 (response_id_ e + 1) ∧
     pending_responses_ e' = <[response_id_ e' := callback]> (pending_responses_ e)).
Proof.
  intros H. apply KeyboardHook_dichotomy in H as [[-> ->] | (c & evs & Hp & Hev & -> & Hpend)].
  - left. by destruct e.
  - right. apply processed_shape in Hp as (_ & _ & _ & _ & _ & _ & Hi & _ & _).
    simpl in Hi. rewrite callbacks_app, callbacks_send_none. split; [done|].
    eexists evs, _. rewrite sends_app, sends_send_none, Hi. simpl.
    split; [reflexivity|]. split; [|by rewrite Hpend].
    eapply Forall_impl; [exact Hev|]. by intros ev [Hs _].
Qed.

Lemma callback_invoked_or_registered_witness :
  (callbacks [PerformSend down_A_event (Some 2)] = [(7, true)] ∧
   sends [PerformSend down_A_event (Some 2)] = [(empty_event, None)] ∧
   pressingRecords_ engine_A_down = pressingRecords_ engine0 ∧
   critical_keys_ engine_A_down = critical_keys_ engine0 ∧
   response_id_ engine_A_down = response_id_ engine0 ∧
   pending_responses_ engine_A_down = pending_responses_ engine0) ∨
  (callbacks [PerformSend down_A_event (Some 2)] = [] ∧
   ∃ evs primary,
     sends [PerformSend down_A_event (Some 2)]
       = map (λ ev, (ev, None)) evs ++ [(primary, Some (response_id_ engine_A_down))] ∧
     Forall (λ ev, synthesized ev = true) evs ∧ synthesized primary = false ∧
     response_id_ engine_A_down = to_u64 (response_id_ engine0 + 1) ∧
     pending_responses_ engine_A_down
       = <[response_id_ engine_A_down := 7]> (pending_responses_ engine0)).
Proof.
  apply (callback_invoked_or_registered fixture all_up 0x41 0x1e WM_KEYDOWN 0x41
           false false 7 engine0 engine_A_down [PerformSend down_A_event (Some 2)]).
  vm_compute. reflexivity.
Defined.

Lemma key_events_Forall (Q : FlutterKeyEvent → Prop) evs primary rid :
  Forall Q evs → Q primary →
  Forall Q (key_events (map send_none evs ++ [PerformSend primary (Some rid)])).
Proof.
  intros Hev Hp. rewrite key_events_app. apply Forall_app. split.
  - induction Hev as [|ev evs' Hq _ IH]; [constructor|]. simpl.
    destruct (is_neutral (ev, None)); [done|]. by constructor.
  - simpl. destruct (is_neutral (primary, Some rid)); by repeat constructor.
Qed.

(** X19. A raw input touches only its own physical key and the physical
    keys of the registry: for a physical key that is neither the key of the
    raw input nor the physical id of a record of the registry, the entry of
    the press-state table is left as it is and no key event is sent. *)
Theorem other_keys_untouched pf gks key scancode action ch extended was_down callback
    (e e' : Engine) out (p : Z) :
  KeyboardHook pf gks key scancode action ch extended was_down callback e
    = Ok (tt, e', out) →
  p ≠ GetPhysicalKey pf scancode extended →
  Forall (λ kv : Z * CriticalKey, physical_key kv.2 ≠ p) (critical_keys_ e) →
  pressingRecords_ e' !! p = pressingRecords_ e !! p ∧
  Forall (λ ev, physical ev ≠ p) (key_events out).
Proof.
  intros H Hp Hreg.
  apply KeyboardHook_dichotomy in H as [[-> ->] | (c & evs & Hproc & _ & _ & _)].
  { split; [done|]. simpl. constructor. }
  destruct (processed_inv _ _ _ _ _ _ _ _ _ _ Hproc)
    as (l2 & evT & evP & HT & HPp & Hr & _ & _ & _ & _ & ->).
  cbn [critical_keys_ pressingRecords_ set_sent_any_events] in *.
  set (l1 := update_found _ _ _) in *.
  assert (Hl1 : Forall (λ kv : Z * CriticalKey, physical_key kv.2 ≠ p) l1).
  { unfold l1. clear -Hreg Hp.
    induction Hreg as [|[k ck] rest Hk Hrest IH]; [constructor|].
    simpl. destruct (k =? to_u32 key); constructor; try done. }
  pose proof (sync_steps_sound _ _ _ _ _ (toggled_step_sound _ _ _) HT) as [Hids _].
  assert (Hl2 : Forall (λ kv : Z * CriticalKey, physical_key kv.2 ≠ p) l2).
  { apply Forall_forall. intros [vk ki2] Hin.
    destruct (same_ids_elem_of _ _ _ _ Hids Hin) as (ki1 & Hin1 & Hp1 & _).
    rewrite Forall_forall in Hl1. specialize (Hl1 _ Hin1). simpl in *. congruence. }
  pose proof (sync_steps_untouched _ _ _ _ _ p (toggled_step_sound _ _ _) HT Hl1) as HuT.
  pose proof (sync_steps_untouched _ _ _ _ _ p (pressed_step_sound _ _ _) HPp Hl2) as HuP.
  assert (Hu : Forall (λ ev, physical ev ≠ p) (evT ++ evP)) by by apply Forall_app.
  split.
  - cbv zeta in Hr.
    destruct (eventual_logical_record c =? 0).
    + destruct Hr as [_ ->]. rewrite lookup_delete_ne by done. by apply replay_untouched.
    + rewrite Hr, lookup_insert_ne by done. by apply replay_untouched.
  - apply key_events_Forall; [done|]. simpl. congruence.
Qed.

Lemma other_keys_untouched_witness :
  pressingRecords_ engine_A_down !! 0x99 = pressingRecords_ engine0 !! 0x99 ∧
  Forall (λ ev, physical ev ≠ 0x99) (key_events [PerformSend down_A_event (Some 2)]).
Proof.
  apply (other_keys_untouched fixture all_up 0x41 0x1e WM_KEYDOWN 0x41
           false false 7 engine0 engine_A_down [PerformSend down_A_event (Some 2)] 0x99).
  - vm_compute. reflexivity.
  - vm_compute. discriminate.
  - repeat (constructor 2; [vm_compute; discriminate|]). constructor 1.
Defined.

(** ** Acknowledgments *)

(** X20. [HandleResponse] on a pending response id changes nothing but
    the ledger. Two acknowledgments of different pending ids commute: in
    either order both return, each invokes the callback stored for its id
    with its own handled flag, and the engine afterwards is the same, with
    both entries removed. *)
Theorem acknowledgments_commute (e : Engine) (id1 id2 : Z) (h1 h2 : bool) cb1 cb2 :
  id1 ≠ id2 →
  pending_responses_ e !! id1 = Some cb1 →
  pending_responses_ e !! id2 = Some cb2 →
  let e12 := set_pending_responses_ (delete id2 (delete id1 (pending_responses_ e))) e in
  (HandleResponse h1 id1 ;; HandleResponse h2 id2) e
    = Ok (tt, e12, [InvokeCallback cb1 h1; InvokeCallback cb2 h2]) ∧
  (HandleResponse h2 id2 ;; HandleResponse h1 id1) e
    = Ok (tt, e12, [InvokeCallback cb2 h2; InvokeCallback cb1 h1]) ∧
  pressingRecords_ e12 = pressingRecords_ e ∧ critical_keys_ e12 = critical_keys_ e ∧
  response_id_ e12 = response_id_ e.
Proof.
  intros Hne H1 H2 e12. split; [|split].
  - rewrite bind_eq, HandleResponse_eq, H1, HandleResponse_eq. simpl.
    by rewrite lookup_delete_ne, H2 by done.
  - rewrite bind_eq, HandleResponse_eq, H2, HandleResponse_eq. simpl.
    rewrite lookup_delete_ne, H1 by done. unfold e12, set_pending_responses_. simpl.
    by rewrite delete_delete.
  - done.
Qed.

Lemma acknowledgments_commute_witness :
  (HandleResponse true 2 ;; HandleResponse false 3)
    (set_pending_responses_ {[ 2 := 7; 3 := 8 ]} engine0)
  = Ok (tt,
        set_pending_responses_
          (delete 3 (delete 2 (pending_responses_
                                 (set_pending_responses_ {[ 2 := 7; 3 := 8 ]} engine0))))
          (set_pending_responses_ {[ 2 := 7; 3 := 8 ]} engine0),
        [InvokeCallback 7 true; InvokeCallback 8 false]).
Proof.
  refine (proj1 (acknowledgments_commute
                   (set_pending_responses_ {[ 2 := 7; 3 := 8 ]} engine0)
                   2 3 true false 7 8 _ _ _)).
  - discriminate.
  - reflexivity.
  - reflexivity.
Defined.

(** ** Callbacks along a sequence of calls *)

Lemma call_callbacks pf c (e e' : Engine) out used invoked :
  call pf c e = Ok (tt, e', out) →
  0 ≤ response_id_ e → response_id_ e + 1 < 2 ^ 64 → ledger_bounded e →
  (∀ cb, cb ∈ hook_callbacks [c] → cb ∉ used) →
  callbacks_accounted e used invoked →
  callbacks_accounted e' (used ++ hook_callbacks [c])
    (invoked ++ map fst (callbacks out)).
Proof.
  intros H H0 Hmax Hb Hfresh (Hnd & Hsub & Hpend & Hinj & Hall).
  pose proof (call_ledger _ _ _ _ _ H H0 Hmax Hb) as [_ Hstep].
  destruct c as [g k sc a ch x w cb | handled ud]; simpl in H.
  - assert (Hcb : cb ∉ used) by (apply Hfresh; simpl; left).
    assert (Hcbi : cb ∉ invoked) by (intros Hi; by apply Hcb, Hsub).
    apply KeyboardHook_dichotomy in H as [[-> ->] | (c & evs & _ & _ & -> & Hp)].
    + (* the callback is invoked at once *)
      simpl. repeat split.
      * apply NoDup_app. split; [done|]. split; [|apply NoDup_singleton].
        intros y Hy Hy'. apply list_elem_of_singleton in Hy' as ->. done.
      * intros y Hy. apply elem_of_app in Hy as [Hy|Hy]; apply elem_of_app; auto.
      * apply elem_of_app. left. by eapply Hpend.
      * intros Hy. apply elem_of_app in Hy as [Hy|Hy]; [by eapply Hpend|].
        apply list_elem_of_singleton in Hy as ->. apply Hcb. by eapply Hpend.
      * exact Hinj.
      * intros y Hy. apply elem_of_app in Hy as [Hy|Hy].
        -- destruct (Hall y Hy) as [Hi | Hp]; [left; apply elem_of_app; auto|by right].
        -- left. apply elem_of_app. by right.
    + (* the callback is registered *)
      destruct Hstep as [[_ Ho] | (Hi & Ho & Hnone & _)].
      { rewrite response_ids_app, response_ids_send_none in Ho. done. }
      rewrite response_ids_app, response_ids_send_none in Ho. simpl in Ho.
      injection Ho as Hrid. rewrite Hrid in Hp. clear Hrid.
      rewrite callbacks_app, callbacks_send_none. simpl. rewrite app_nil_r.
      set (rid := response_id_ e') in *.
      repeat split.
      * done.
      * intros y Hy. apply elem_of_app. auto.
      * rewrite Hp, lookup_insert in H. case_decide.
        -- injection H as <-. apply elem_of_app. right. left.
        -- apply elem_of_app. left. by eapply Hpend.
      * rewrite Hp, lookup_insert in H. case_decide.
        -- by injection H as <-.
        -- by eapply Hpend.
      * intros id1 id2 y. rewrite Hp, !lookup_insert.
        repeat case_decide; subst; try done.
        -- intros [= <-] Hy. apply Hpend in Hy as [Hy _]. done.
        -- intros Hy [= <-]. apply Hpend in Hy as [Hy _]. done.
        -- apply Hinj.
      * intros y Hy. apply elem_of_app in Hy as [Hy|Hy].
        -- destruct (Hall y Hy) as [Hi' | [id Hid]]; [by left|].
           right. exists id. rewrite Hp, lookup_insert_ne; [done|].
           intros <-. congruence.
        -- apply list_elem_of_singleton in Hy as ->. right. exists rid.
           by rewrite Hp, lookup_insert_eq.
  - rewrite HandleResponse_eq in H.
    destruct (pending_responses_ e !! ud) as [cb|] eqn:Hl; [|done].
    injection H as <- <-. clear Hstep.
    unfold callbacks_accounted, set_pending_responses_. simpl.
    rewrite app_nil_r.
    destruct (Hpend _ _ Hl) as [Hu Hni].
    repeat split.
    + apply NoDup_app. split; [done|]. split; [|apply NoDup_singleton].
      intros y Hy Hy'. apply list_elem_of_singleton in Hy' as ->. done.
    + intros y Hy. apply elem_of_app in Hy as [Hy|Hy]; [by apply Hsub|].
      by apply list_elem_of_singleton in Hy as ->.
    + rewrite lookup_delete in H. case_decide; [done|]. by eapply Hpend.
    + rewrite lookup_delete in H. case_decide; [done|].
      intros Hy. apply elem_of_app in Hy as [Hy|Hy]; [by eapply Hpend|].
      apply list_elem_of_singleton in Hy as ->. eauto.
    + intros id1 id2 y. rewrite !lookup_delete. repeat case_decide; try done.
      apply Hinj.
    + intros y Hy. destruct (Hall y Hy) as [Hi | [id Hid]].
      * left. apply elem_of_app. auto.
      * destruct (decide (id = ud)) as [->|Hne].
        -- left. apply elem_of_app. right. rewrite Hl in Hid. injection Hid as ->. left.
        -- right. exists id. by rewrite lookup_delete_ne.
Qed.

Lemma run_callbacks pf cs : ∀ (e0 e : Engine) out used invoked,
  run pf cs e0 = Ok (tt, e, out) →
  0 ≤ response_id_ e0 → response_id_ e0 + Z.of_nat (length cs) < 2 ^ 64 →
  ledger_bounded e0 →
  NoDup (hook_callbacks cs) →
  (∀ cb, cb ∈ hook_callbacks cs → cb ∉ used) →
  callbacks_accounted e0 used invoked →
  callbacks_accounted e (used ++ hook_callbacks cs)
    (invoked ++ map fst (callbacks out)).
Proof.
  induction cs as [|c cs IH]; intros e0 e out used invoked H H0 Hmax Hb Hnd Hfresh Hacc.
  - injection H as <- <-. simpl. by rewrite !app_nil_r.
  - simpl in H. rewrite bind_eq in H.
    destruct (call pf c e0) as [[[[] e1] o1]|w] eqn:Hc; [|done].
    destruct (run pf cs e1) as [[[[] e2] o2]|w] eqn:Hr; [|done].
    injection H as <- <-. simpl length in Hmax.
    pose proof (call_ledger _ _ _ _ _ Hc H0 ltac:(lia) Hb) as [Hb1 Hstep].
    assert (Hi1 : response_id_ e0 ≤ response_id_ e1 ≤ response_id_ e0 + 1)
      by (destruct Hstep as [[-> _] | [-> _]]; lia).
    assert (Hsplit : hook_callbacks (c :: cs) = hook_callbacks [c] ++ hook_callbacks cs).
    { by destruct c. }
    rewrite Hsplit in *. apply NoDup_app in Hnd as (Hnd1 & Hdisj & Hnd2).
    eapply (call_callbacks _ _ _ _ _ used invoked) in Hc; [|done|lia|done| |done].
    2:{ intros cb Hcb. apply Hfresh. apply elem_of_app. by left. }
    eapply IH in Hr; [|lia|lia|done|done| |exact Hc].
    2:{ intros cb Hcb Hin. apply elem_of_app in Hin as [Hin|Hin].
        - eapply Hfresh; [|exact Hin]. apply elem_of_app. by right.
        - by eapply Hdisj. }
    by rewrite callbacks_app, map_app, !app_assoc.
Qed.

(** X21. Along a sequence of calls of [KeyboardHook] and [HandleResponse]
    that returns, on a freshly constructed engine (short enough that the
    response counter does not wrap), in which the callbacks handed to
    [KeyboardHook] are pairwise different: no callback is invoked twice;
    only callbacks handed to [KeyboardHook] are invoked; and every callback
    handed to [KeyboardHook] either has been invoked or is pending in the
    ledger, never both. *)
Theorem callbacks_exactly_once pf gks0 cs (e : Engine) out :
  run pf cs (KeyboardKeyEmbedderHandler pf gks0) = Ok (tt, e, out) →
  NoDup (hook_callbacks cs) →
  Z.of_nat (length cs) + 1 < 2 ^ 64 →
  let invoked := map fst (callbacks out) in
  NoDup invoked ∧
  (∀ cb, cb ∈ hook_callbacks cs ↔
         (cb ∈ invoked ∨ ∃ id, pending_responses_ e !! id = Some cb)) ∧
  (∀ id cb, pending_responses_ e !! id = Some cb → cb ∉ invoked).
Proof.
  intros H Hnd Hlen invoked.
  apply (run_callbacks _ _ _ _ _ [] []) in H; [|done| |by intros id [cb Hcb]|done| |].
  - destruct H as (Hn & Hsub & Hpend & _ & Hall). simpl in *.
    split; [done|]. split.
    + intros cb. split; [apply Hall|]. intros [Hi | [id Hid]]; [auto|].
      by apply Hpend in Hid as [Hu _].
    + intros id cb Hid. by apply Hpend in Hid as [_ Hni].
  - change (response_id_ (KeyboardKeyEmbedderHandler pf gks0)) with 1. lia.
  - intros cb _ Hin. by apply elem_of_nil in Hin.
  - repeat split; try done; [constructor|].
    intros cb Hin. by apply elem_of_nil in Hin.
Qed.

Lemma callbacks_exactly_once_witness :
  NoDup (map fst (callbacks [PerformSend down_A_event (Some 2);
                             InvokeCallback 7 false;
                             InvokeCallback 8 true; PerformSend empty_event None])).
Proof.
  refine (proj1 (callbacks_exactly_once fixture all_up
                   [CallKeyboardHook all_up 0x41 0x1e WM_KEYDOWN 0x41 false false 7;
                    CallHandleResponse false 2;
                    CallKeyboardHook all_up 0x42 0x30 WM_KEYUP 0 false false 8]
                   (set_pending_responses_ ∅ engine_A_down) _ _ _ _)).
  - vm_compute. reflexivity.
  - apply (bool_decide_unpack _). vm_compute. reflexivity.
  - simpl. lia.
Defined.
